(** * Graph Studio: serializer, layout adapter, session state and autosave

    A shallow embedding of the renderer, [src/renderer/App.tsx] (the
    newer of its two versions; line numbers refer to it), and of the IPC
    handlers of [electron/main.js].

    The renderer is a React component.  Its state cells become the record
    [Session]; a handler is a computation over the [World] (the live
    session, the autosave timer, the clock, the disk, the log of IPC
    requests) that may throw.  A React closure is made explicit: a handler
    takes the session of the render that created it as an argument [c],
    reads the state through [c], and writes to the live session through
    the setters.  The setters record whether a dependency of one of the
    two effects changed; after the handler React renders once with all
    its updates (also after an [await], as React 18 does) and the effects
    whose dependencies changed run.  The timeout of the autosave effect
    carries the session of the render that armed it.

    What the platform provides (JSON, dagre, Node's [path], the verdicts
    of the file system, [crypto.randomUUID]) is the interface [Env];
    the graphs on which [dagre.layout] throws instead of returning are
    the interface [Dagre].

    The notes map, a JavaScript object used as a map, is a [gmap]; node
    ids that name a property of [Object.prototype] are outside the model.
    Numbers are binary64 floats.  An event is taken when the handler of
    the one before has run to its end; the one thing that arrives
    between a request and its use is the answer to a note read.  Not
    modelled: [onConnect] (reactflow's [addEdge]), [graph:saveAs] beyond
    its answer (it is made of calls of Node's [path]), the JSX but for
    the values a render derives for the editors, and the older version
    of App.tsx. *)

From Stdlib Require Import Floats Ascii.
From stdpp Require Import gmap strings list pretty.

Local Open Scope string_scope.

(** ** JavaScript values the code tests for truthiness *)

(** [!s] is false exactly for a non-empty string; [null] and [undefined]
    are [None].  [truthy_string o] is the string when [o] is truthy. *)
Definition truthy_string (o : option string) : option string :=
  match o with
  | Some s => if String.eqb s "" then None else Some s
  | None => None
  end.

(** ** Exceptions *)

Inductive exn :=
| SyntaxError   (* thrown by JSON.parse *)
| TypeError     (* property read on null, call of a non-function *)
| IOError       (* a rejected IPC promise *)
| IllTyped.     (* not an exception of the source: the value violates the
                   unchecked cast [as GraphJson]; the source would go on
                   with an ill-typed value, which this typed model does
                   not follow *)

Inductive result (A : Type) :=
| Ok (a : A)
| Throw (e : exn).
Arguments Ok {A} a.
Arguments Throw {A} e.

Definition rbind {A B} (r : result A) (k : A → result B) : result B :=
  match r with
  | Ok a => k a
  | Throw e => Throw e
  end.

Global Instance result_ret : MRet result := @Ok.
Global Instance result_bind : MBind result := λ A B k r, rbind r k.

Fixpoint rmapM {A B} (f : A → result B) (l : list A) : result (list B) :=
  match l with
  | [] => Ok []
  | a :: l' => rbind (f a) (λ b, rbind (rmapM f l') (λ bs, Ok (b :: bs)))
  end.

(** ** JSON documents *)

#[local] Unset Elimination Schemes.
Inductive json :=
| JNull
| JBool (b : bool)
| JNum (n : float)
| JStr (s : string)
| JArr (items : list json)
| JObj (fields : list (string * json)).
#[local] Set Elimination Schemes.

Fixpoint assoc {V} (k : string) (fields : list (string * V)) : option V :=
  match fields with
  | [] => None
  | (k', v) :: rest => if String.eqb k k' then Some v else assoc k rest
  end.

(** [v.k] for the keys the source reads ([nodes], [edges], [id], [label],
    [tagColor], [source], [target], [directed]): a TypeError on null, the
    own property of an object, undefined ([None]) on anything else. *)
Definition prop (v : json) (k : string) : result (option json) :=
  match v with
  | JNull => Throw TypeError
  | JObj fields => Ok (assoc k fields)
  | _ => Ok None
  end.

(** ToBoolean on a parsed JSON value. *)
Definition js_truthy (v : json) : bool :=
  match v with
  | JNull => false
  | JBool b => b
  | JNum n => negb (PrimFloat.eqb n 0 || PrimFloat.is_nan n)
  | JStr s => negb (String.eqb s "")
  | JArr _ | JObj _ => true
  end.

(** [o || []] *)
Definition or_empty_array (o : option json) : json :=
  match o with
  | Some v => if js_truthy v then v else JArr []
  | None => JArr []
  end.

(** ** The graph a dagre layout is asked for

    The source builds a new graphlib graph by a sequence of calls and
    hands it to [dagre.layout].  The graph is represented by what the
    calls put into it, in call order. *)

Record Point := { px : float; py : float }.

Record GraphLabel := { rankdir : string; nodesep : float; ranksep : float }.

Record DagreGraph := {
  g_label : option GraphLabel;
  g_defaultEdgeLabel : bool;
  g_nodes : list (string * (float * float));   (* id, width, height *)
  g_edges : list (string * string)             (* source, target *)
}.

(** ** IPC requests of [window.graphAPI] (electron/preload.js) *)

Inductive Request :=
| OpenGraph
| SaveGraph (filePath content : string)
| SaveGraphAs (suggestedName : string)
| WriteNodeFile (baseDir nodeId content : string)
| ReadNodeFile (baseDir nodeId : string).

(** ** The platform *)

Class Env := {
  (** [JSON.parse]: [None] is a SyntaxError. *)
  JSON_parse : string → option json;
  (** [JSON.stringify(value, null, 2)]. *)
  JSON_stringify : json → string;
  (** x and y of [graph.node(id)] once [dagre.layout(graph)] has run;
      [layoutGraph] asks only for ids it added with [setNode]. *)
  dagre_layout : DagreGraph → string → Point;
  (** Node's [path.join] and [path.dirname]. *)
  path_join : list string → string;
  path_dirname : string → string;
  (** Whether the main process completes a request; otherwise the
      promise is rejected. *)
  fs_ok : Request → bool;
  (** What the n-th call of [crypto.randomUUID] returns. *)
  randomUUID : nat → string
}.

(** ** Data model (App.tsx, lines 18-37, and the reactflow types it uses) *)

(** [label] and [tagColor] are declared [string]; a node loaded from a
    file that lacks the key carries [undefined], which is [None]. *)
Module GraphNodeData.
Record t := { label : option string; tagColor : option string }.
End GraphNodeData.

Module Node.
Record t := {
  id : string;
  type : string;
  position : Point;
  data : GraphNodeData.t
}.
End Node.

Inductive MarkerType := Arrow | ArrowClosed.

Record EdgeMarker := { marker_type : MarkerType; marker_color : string }.

Record EdgeStyle := { stroke : string; strokeWidth : float }.

(** [data?: { directed?: boolean }] *)
Record EdgeData := { directed : option bool }.

Module Edge.
Record t := {
  id : string;
  source : string;
  target : string;
  type : string;
  style : EdgeStyle;
  data : option EdgeData;
  markerEnd : option EdgeMarker
}.
End Edge.

Record GraphFile := { filePath : string; baseDir : string }.

Module TagMeta.
Record t := { id : string; name : string; color : string }.
End TagMeta.

Module GraphJson.
Record node := { id : string; label : option string; tagColor : option string }.
Record edge := { source : string; target : string; directed : option bool }.
Record t := { nodes : list node; edges : list edge }.
End GraphJson.

(** The payload of [graph:open] (global.d.ts). *)
Record GraphFilePayload := {
  payload_filePath : string;
  payload_baseDir : string;
  payload_data : string
}.

(** ** Constants *)

Definition nodeWidth : float := 220.
Definition nodeHeight : float := 80.

Definition defaultEdgeStyle : EdgeStyle := {| stroke := "#94a3b8"; strokeWidth := 2 |}.

Definition arrowClosed : EdgeMarker :=
  {| marker_type := ArrowClosed; marker_color := stroke defaultEdgeStyle |}.

Definition initialNodes : list Node.t := [
  {| Node.id := "node-1";
     Node.data := {| GraphNodeData.label := Some "Idea"; GraphNodeData.tagColor := Some "#6366F1" |};
     Node.position := {| px := 0; py := 0 |};
     Node.type := "graphNode" |};
  {| Node.id := "node-2";
     Node.data := {| GraphNodeData.label := Some "Next"; GraphNodeData.tagColor := Some "#22C55E" |};
     Node.position := {| px := 300; py := 0 |};
     Node.type := "graphNode" |}
].

Definition initialEdges : list Edge.t := [
  {| Edge.id := "e1-2";
     Edge.source := "node-1";
     Edge.target := "node-2";
     Edge.type := "smoothstep";
     Edge.style := defaultEdgeStyle;
     Edge.data := Some {| directed := Some true |};
     Edge.markerEnd := Some arrowClosed |}
].

Definition initialTags : list TagMeta.t := [
  {| TagMeta.id := "tag-core"; TagMeta.name := "Core"; TagMeta.color := "#6366F1" |};
  {| TagMeta.id := "tag-todo"; TagMeta.name := "Todo"; TagMeta.color := "#22C55E" |}
].

(** [edge.data?.directed ?? true] *)
Definition edge_directed (edge : Edge.t) : bool :=
  default true (Edge.data edge ≫= directed).

(** ** Graph Serializer *)

(** App.tsx, lines 104-115. *)
Definition createGraphJson (nodes : list Node.t) (edges : list Edge.t) : GraphJson.t :=
  {| GraphJson.nodes :=
       (λ node, {| GraphJson.id := Node.id node;
                   GraphJson.label := GraphNodeData.label (Node.data node);
                   GraphJson.tagColor := GraphNodeData.tagColor (Node.data node) |}) <$> nodes;
     GraphJson.edges :=
       (λ edge, {| GraphJson.source := Edge.source edge;
                   GraphJson.target := Edge.target edge;
                   GraphJson.directed := Some (edge_directed edge) |}) <$> edges |}.

(** The object [JSON.stringify] is given, as the JSON tree it serializes:
    own properties in creation order, a property whose value is
    [undefined] left out. *)
Definition field {A} (k : string) (f : A → json) (o : option A) : list (string * json) :=
  match o with
  | Some a => [(k, f a)]
  | None => []
  end.

Definition node_to_json (n : GraphJson.node) : json :=
  JObj ([("id", JStr (GraphJson.id n))]
        ++ field "label" JStr (GraphJson.label n)
        ++ field "tagColor" JStr (GraphJson.tagColor n))%list.

Definition edge_to_json (e : GraphJson.edge) : json :=
  JObj ([("source", JStr (GraphJson.source e)); ("target", JStr (GraphJson.target e))]
        ++ field "directed" JBool (GraphJson.directed e))%list.

Definition GraphJson_to_json (g : GraphJson.t) : json :=
  JObj [("nodes", JArr (node_to_json <$> GraphJson.nodes g));
        ("edges", JArr (edge_to_json <$> GraphJson.edges g))].

(** What [parseGraphJson] returns before the cast: whatever JSON values
    sit under the two keys. *)
Record ParsedGraph := { parsed_nodes : json; parsed_edges : json }.

(** ** Graph Session State (the [useState] cells of [App], lines 146-160) *)

Record Session := {
  nodes : list Node.t;
  edges : list Edge.t;
  selectedNodeId : option string;
  selectedEdgeId : option string;
  graphFile : option GraphFile;
  nodeNotes : gmap string string;
  tags : list TagMeta.t;
  selectedTagColor : option string;
  newTagName : string;
  newTagColor : string;
  status : string
}.

Definition with_nodes (f : list Node.t → list Node.t) (s : Session) : Session :=
  {| nodes := f (nodes s); edges := edges s; selectedNodeId := selectedNodeId s;
     selectedEdgeId := selectedEdgeId s; graphFile := graphFile s; nodeNotes := nodeNotes s;
     tags := tags s; selectedTagColor := selectedTagColor s; newTagName := newTagName s;
     newTagColor := newTagColor s; status := status s |}.

Definition with_edges (f : list Edge.t → list Edge.t) (s : Session) : Session :=
  {| nodes := nodes s; edges := f (edges s); selectedNodeId := selectedNodeId s;
     selectedEdgeId := selectedEdgeId s; graphFile := graphFile s; nodeNotes := nodeNotes s;
     tags := tags s; selectedTagColor := selectedTagColor s; newTagName := newTagName s;
     newTagColor := newTagColor s; status := status s |}.

Definition with_selectedNodeId (v : option string) (s : Session) : Session :=
  {| nodes := nodes s; edges := edges s; selectedNodeId := v;
     selectedEdgeId := selectedEdgeId s; graphFile := graphFile s; nodeNotes := nodeNotes s;
     tags := tags s; selectedTagColor := selectedTagColor s; newTagName := newTagName s;
     newTagColor := newTagColor s; status := status s |}.

Definition with_selectedEdgeId (v : option string) (s : Session) : Session :=
  {| nodes := nodes s; edges := edges s; selectedNodeId := selectedNodeId s;
     selectedEdgeId := v; graphFile := graphFile s; nodeNotes := nodeNotes s;
     tags := tags s; selectedTagColor := selectedTagColor s; newTagName := newTagName s;
     newTagColor := newTagColor s; status := status s |}.

Definition with_graphFile (v : option GraphFile) (s : Session) : Session :=
  {| nodes := nodes s; edges := edges s; selectedNodeId := selectedNodeId s;
     selectedEdgeId := selectedEdgeId s; graphFile := v; nodeNotes := nodeNotes s;
     tags := tags s; selectedTagColor := selectedTagColor s; newTagName := newTagName s;
     newTagColor := newTagColor s; status := status s |}.

Definition with_nodeNotes (f : gmap string string → gmap string string) (s : Session) : Session :=
  {| nodes := nodes s; edges := edges s; selectedNodeId := selectedNodeId s;
     selectedEdgeId := selectedEdgeId s; graphFile := graphFile s; nodeNotes := f (nodeNotes s);
     tags := tags s; selectedTagColor := selectedTagColor s; newTagName := newTagName s;
     newTagColor := newTagColor s; status := status s |}.

Definition with_tags (f : list TagMeta.t → list TagMeta.t) (s : Session) : Session :=
  {| nodes := nodes s; edges := edges s; selectedNodeId := selectedNodeId s;
     selectedEdgeId := selectedEdgeId s; graphFile := graphFile s; nodeNotes := nodeNotes s;
     tags := f (tags s); selectedTagColor := selectedTagColor s; newTagName := newTagName s;
     newTagColor := newTagColor s; status := status s |}.

Definition with_selectedTagColor (v : option string) (s : Session) : Session :=
  {| nodes := nodes s; edges := edges s; selectedNodeId := selectedNodeId s;
     selectedEdgeId := selectedEdgeId s; graphFile := graphFile s; nodeNotes := nodeNotes s;
     tags := tags s; selectedTagColor := v; newTagName := newTagName s;
     newTagColor := newTagColor s; status := status s |}.

Definition with_status (v : string) (s : Session) : Session :=
  {| nodes := nodes s; edges := edges s; selectedNodeId := selectedNodeId s;
     selectedEdgeId := selectedEdgeId s; graphFile := graphFile s; nodeNotes := nodeNotes s;
     tags := tags s; selectedTagColor := selectedTagColor s; newTagName := newTagName s;
     newTagColor := newTagColor s; status := v |}.

(** ** The world a handler runs in *)

(** [saveTimeout]: the save scheduled by the autosave effect.  The
    callback calls the [handleSave] of the render that ran the effect, so
    the timer carries that render's session. *)
Record Timer := { due : N; closure : Session }.

Record World := {
  session : Session;            (* the live React state *)
  autosaveDeps : bool;          (* an update of the running handler replaced
                                   [nodes], [edges] or [graphFile?.filePath] *)
  noteDeps : bool;              (* ... or [graphFile?.baseDir], [nodeNotes]
                                   or [selectedNodeId] *)
  pending : option Timer;       (* the timeout not yet fired nor cleared *)
  clock : N;                    (* milliseconds *)
  disk : gmap string string;    (* path to file content *)
  log : list Request;           (* IPC requests issued so far, oldest first *)
  reads : list (string * string);     (* note reads under way: the node id
                                         and the content that was read *)
  dialogs : list (option GraphFile);  (* the answers the user will give to
                                         the coming save-as dialogs *)
  drawn : nat                   (* calls of crypto.randomUUID so far *)
}.

Definition with_session (f : Session → Session) (w : World) : World :=
  {| session := f (session w); autosaveDeps := autosaveDeps w; noteDeps := noteDeps w;
     pending := pending w; clock := clock w; disk := disk w; log := log w;
     reads := reads w; dialogs := dialogs w; drawn := drawn w |}.

Definition with_autosaveDeps (b : bool) (w : World) : World :=
  {| session := session w; autosaveDeps := b; noteDeps := noteDeps w;
     pending := pending w; clock := clock w; disk := disk w; log := log w;
     reads := reads w; dialogs := dialogs w; drawn := drawn w |}.

Definition with_noteDeps (b : bool) (w : World) : World :=
  {| session := session w; autosaveDeps := autosaveDeps w; noteDeps := b;
     pending := pending w; clock := clock w; disk := disk w; log := log w;
     reads := reads w; dialogs := dialogs w; drawn := drawn w |}.

Definition with_pending (t : option Timer) (w : World) : World :=
  {| session := session w; autosaveDeps := autosaveDeps w; noteDeps := noteDeps w;
     pending := t; clock := clock w; disk := disk w; log := log w; reads := reads w;
     dialogs := dialogs w; drawn := drawn w |}.

Definition with_clock (t : N) (w : World) : World :=
  {| session := session w; autosaveDeps := autosaveDeps w; noteDeps := noteDeps w;
     pending := pending w; clock := t; disk := disk w; log := log w; reads := reads w;
     dialogs := dialogs w; drawn := drawn w |}.

Definition with_disk (f : gmap string string → gmap string string) (w : World) : World :=
  {| session := session w; autosaveDeps := autosaveDeps w; noteDeps := noteDeps w;
     pending := pending w; clock := clock w; disk := f (disk w); log := log w;
     reads := reads w; dialogs := dialogs w; drawn := drawn w |}.

Definition with_log (f : list Request → list Request) (w : World) : World :=
  {| session := session w; autosaveDeps := autosaveDeps w; noteDeps := noteDeps w;
     pending := pending w; clock := clock w; disk := disk w; log := f (log w);
     reads := reads w; dialogs := dialogs w; drawn := drawn w |}.

Definition with_reads (f : list (string * string) → list (string * string)) (w : World) : World :=
  {| session := session w; autosaveDeps := autosaveDeps w; noteDeps := noteDeps w;
     pending := pending w; clock := clock w; disk := disk w; log := log w;
     reads := f (reads w); dialogs := dialogs w; drawn := drawn w |}.

Definition with_dialogs (l : list (option GraphFile)) (w : World) : World :=
  {| session := session w; autosaveDeps := autosaveDeps w; noteDeps := noteDeps w;
     pending := pending w; clock := clock w; disk := disk w; log := log w;
     reads := reads w; dialogs := l; drawn := drawn w |}.

Definition with_drawn (n : nat) (w : World) : World :=
  {| session := session w; autosaveDeps := autosaveDeps w; noteDeps := noteDeps w;
     pending := pending w; clock := clock w; disk := disk w; log := log w;
     reads := reads w; dialogs := dialogs w; drawn := n |}.

(** ** Handlers: state over the world, with exceptions *)

Definition M (A : Type) : Type := World → result A * World.

Global Instance M_ret : MRet M := λ A a w, (Ok a, w).

Global Instance M_bind : MBind M := λ A B k m w,
  match m w with
  | (Ok a, w') => k a w'
  | (Throw e, w') => (Throw e, w')
  end.

Definition lift {A} (r : result A) : M A := λ w, (r, w).

Definition modify (f : World → World) : M unit := λ w, (Ok tt, f w).

(** The world a handler leaves behind, whether it returned or threw. *)
Definition exec {A} (m : M A) (w : World) : World := snd (m w).

(** The setters.  React compares the dependencies of an effect by
    identity: every array or object the source hands to [setNodes],
    [setEdges] or [setNodeNotes] is a new one; strings and null are
    compared by value. *)
Definition setNodes (f : list Node.t → list Node.t) : M unit :=
  modify (λ w, with_autosaveDeps true (with_session (with_nodes f) w)).

Definition setEdges (f : list Edge.t → list Edge.t) : M unit :=
  modify (λ w, with_autosaveDeps true (with_session (with_edges f) w)).

Definition setGraphFile (v : option GraphFile) : M unit :=
  modify (λ w,
    let old := graphFile (session w) in
    let samePath := bool_decide (filePath <$> old = filePath <$> v) in
    let sameDir := bool_decide (baseDir <$> old = baseDir <$> v) in
    with_autosaveDeps (autosaveDeps w || negb samePath)
      (with_noteDeps (noteDeps w || negb sameDir)
         (with_session (with_graphFile v) w))).

Definition setSelectedNodeId (v : option string) : M unit :=
  modify (λ w,
    let same := bool_decide (selectedNodeId (session w) = v) in
    with_noteDeps (noteDeps w || negb same) (with_session (with_selectedNodeId v) w)).

Definition setSelectedEdgeId (v : option string) : M unit :=
  modify (with_session (with_selectedEdgeId v)).

Definition setNodeNotes (f : gmap string string → gmap string string) : M unit :=
  modify (λ w, with_noteDeps true (with_session (with_nodeNotes f) w)).

Definition setTags (f : list TagMeta.t → list TagMeta.t) : M unit :=
  modify (with_session (with_tags f)).

Definition setSelectedTagColor (v : option string) : M unit :=
  modify (with_session (with_selectedTagColor v)).

Definition setStatus (v : string) : M unit :=
  modify (with_session (with_status v)).

Section Renderer.
Context `{Env}.

(** App.tsx, lines 117-123. *)
Definition parseGraphJson (raw : string) : result ParsedGraph :=
  match JSON_parse raw with
  | None => Throw SyntaxError
  | Some parsed =>
      rbind (prop parsed "nodes") (λ nodes,
      rbind (prop parsed "edges") (λ edges,
      Ok {| parsed_nodes := or_empty_array nodes;
            parsed_edges := or_empty_array edges |}))
  end.

(** The unchecked cast [as GraphJson], made explicit.  First what the
    two [.map] calls of [handleOpen] throw on: a value that is no array
    has no callable [map], and reading a property of a null element is a
    TypeError.  Then the declared shape of the elements: [id], [source]
    and [target] are strings, [label] and [tagColor] strings or absent,
    [directed] a boolean, absent or null ([??] treats the last two
    alike). *)
Definition is_null (v : json) : bool :=
  match v with
  | JNull => true
  | _ => false
  end.

Definition array_elements (v : json) : result (list json) :=
  match v with
  | JArr items => if existsb is_null items then Throw TypeError else Ok items
  | _ => Throw TypeError
  end.

Definition as_string (o : option json) : result string :=
  match o with
  | Some (JStr s) => Ok s
  | _ => Throw IllTyped
  end.

Definition as_optional_string (o : option json) : result (option string) :=
  match o with
  | None => Ok None
  | Some (JStr s) => Ok (Some s)
  | Some _ => Throw IllTyped
  end.

Definition as_optional_bool (o : option json) : result (option bool) :=
  match o with
  | None | Some JNull => Ok None
  | Some (JBool b) => Ok (Some b)
  | Some _ => Throw IllTyped
  end.

Definition as_node (v : json) : result GraphJson.node :=
  id ← prop v "id" ≫= as_string;
  label ← prop v "label" ≫= as_optional_string;
  tagColor ← prop v "tagColor" ≫= as_optional_string;
  mret {| GraphJson.id := id; GraphJson.label := label; GraphJson.tagColor := tagColor |}.

Definition as_edge (v : json) : result GraphJson.edge :=
  source ← prop v "source" ≫= as_string;
  target ← prop v "target" ≫= as_string;
  directed ← prop v "directed" ≫= as_optional_bool;
  mret {| GraphJson.source := source; GraphJson.target := target;
          GraphJson.directed := directed |}.

Definition asGraphJson (d : ParsedGraph) : result GraphJson.t :=
  nodes ← array_elements (parsed_nodes d);
  edges ← array_elements (parsed_edges d);
  nodes ← rmapM as_node nodes;
  edges ← rmapM as_edge edges;
  mret {| GraphJson.nodes := nodes; GraphJson.edges := edges |}.

(** *** Layout Engine Adapter (App.tsx, lines 42-64) *)

Definition newGraph : DagreGraph :=
  {| g_label := None; g_defaultEdgeLabel := false; g_nodes := []; g_edges := [] |}.

Definition setGraph (l : GraphLabel) (g : DagreGraph) : DagreGraph :=
  {| g_label := Some l; g_defaultEdgeLabel := g_defaultEdgeLabel g;
     g_nodes := g_nodes g; g_edges := g_edges g |}.

Definition setDefaultEdgeLabel (g : DagreGraph) : DagreGraph :=
  {| g_label := g_label g; g_defaultEdgeLabel := true;
     g_nodes := g_nodes g; g_edges := g_edges g |}.

Definition setNode (id : string) (width height : float) (g : DagreGraph) : DagreGraph :=
  {| g_label := g_label g; g_defaultEdgeLabel := g_defaultEdgeLabel g;
     g_nodes := (g_nodes g ++ [(id, (width, height))])%list; g_edges := g_edges g |}.

Definition setEdge (source target : string) (g : DagreGraph) : DagreGraph :=
  {| g_label := g_label g; g_defaultEdgeLabel := g_defaultEdgeLabel g;
     g_nodes := g_nodes g; g_edges := (g_edges g ++ [(source, target)])%list |}.

Definition layoutGraph (nodes : list Node.t) (edges : list Edge.t) : list Node.t :=
  let graph := newGraph in
  let graph := setGraph {| rankdir := "LR"; nodesep := 60; ranksep := 80 |} graph in
  let graph := setDefaultEdgeLabel graph in
  let graph := foldl (λ g node, setNode (Node.id node) nodeWidth nodeHeight g) graph nodes in
  let graph := foldl (λ g edge, setEdge (Edge.source edge) (Edge.target edge) g) graph edges in
  (λ node,
     let p := dagre_layout graph (Node.id node) in
     {| Node.id := Node.id node;
        Node.type := Node.type node;
        Node.data := Node.data node;
        Node.position := {| px := (px p - nodeWidth / 2)%float;
                            py := (py p - nodeHeight / 2)%float |} |}) <$> nodes.

(** *** File Storage Gateway (electron/main.js) *)

(** [graph:save], lines 67-71. *)
Definition graph_save (filePath content : string) (d : gmap string string) : gmap string string :=
  <[filePath := content]> d.

(** [node:read], lines 92-102: a missing file reads as the empty string. *)
Definition node_read (baseDir nodeId : string) (d : gmap string string) : string :=
  let nodePath := path_join [baseDir; "nodes"; nodeId ++ ".md"] in
  default "" (d !! nodePath).

(** [node:write], lines 104-110. *)
Definition node_write (baseDir nodeId content : string) (d : gmap string string) : gmap string string :=
  let nodesDir := path_join [baseDir; "nodes"] in
  let nodePath := path_join [nodesDir; nodeId ++ ".md"] in
  <[nodePath := content]> d.

Definition deliver (r : Request) (d : gmap string string) : gmap string string :=
  match r with
  | SaveGraph filePath content => graph_save filePath content d
  | WriteNodeFile baseDir nodeId content => node_write baseDir nodeId content d
  | _ => d
  end.

(** [await window.graphAPI.f(...)]: the request goes out; it changes the
    disk and resolves, or is rejected. *)
Definition request (r : Request) : M unit :=
  λ w, let w := with_log (λ l, (l ++ [r])%list) w in
       if fs_ok r then (Ok tt, with_disk (deliver r) w) else (Throw IOError, w).

(** [await Promise.all(rs)]: every request goes out before the first
    answer is looked at; one rejection rejects the whole.  Writes that
    hit the same path land in call order. *)
Definition requestAll (rs : list Request) : M unit :=
  λ w, let w := with_log (λ l, (l ++ rs)%list) w in
       let w := with_disk (λ d, foldl (λ d r, if fs_ok r then deliver r d else d) d rs) w in
       (if forallb fs_ok rs then Ok tt else Throw IOError, w).

Definition crypto_randomUUID : M string :=
  λ w, (Ok (randomUUID (drawn w)), with_drawn (S (drawn w)) w).

(** *** Constructors (App.tsx, lines 125-143) *)

Definition createNode (label tagColor uuid : string) : Node.t :=
  {| Node.id := "node-" ++ uuid;
     Node.type := "graphNode";
     Node.position := {| px := 100; py := 100 |};
     Node.data := {| GraphNodeData.label := Some label;
                     GraphNodeData.tagColor := Some tagColor |} |}.

Definition createEdge (source target : string) (directed : bool) (uuid : string) : Edge.t :=
  {| Edge.id := "e-" ++ source ++ "-" ++ target ++ "-" ++ uuid;
     Edge.source := source;
     Edge.target := target;
     Edge.type := "smoothstep";
     Edge.style := defaultEdgeStyle;
     Edge.data := Some {| directed := Some directed |};
     Edge.markerEnd := if directed then Some arrowClosed else None |}.

(** *** Handlers of [App].  The argument [c] is the session of the
    render the handler belongs to. *)

(** Lines 181-184. *)
Definition onAddNode (c : Session) : M unit :=
  let fallbackColor := default "#38BDF8" (TagMeta.color <$> head (tags c)) in
  uuid ← crypto_randomUUID;
  setNodes (λ current, (current ++ [createNode "New node" fallbackColor uuid])%list).

(** Lines 186-195. *)
Definition onDeleteNode (c : Session) : M unit :=
  match truthy_string (selectedNodeId c) with
  | None => mret tt
  | Some selectedNodeId =>
      setNodes (λ current,
        filter (λ node, Node.id node ≠ selectedNodeId) current);;
      setEdges (λ current,
        filter (λ edge, Edge.source edge ≠ selectedNodeId
                        ∧ Edge.target edge ≠ selectedNodeId) current);;
      setSelectedNodeId None;;
      setNodeNotes (λ current, delete selectedNodeId current)
  end.

(** Lines 197-201. *)
Definition onDeleteEdge (c : Session) : M unit :=
  match truthy_string (selectedEdgeId c) with
  | None => mret tt
  | Some selectedEdgeId =>
      setEdges (λ current, filter (λ edge, Edge.id edge ≠ selectedEdgeId) current);;
      setSelectedEdgeId None
  end.

(** Lines 203-216. *)
Definition toggleEdge (selectedEdgeId : string) (edge : Edge.t) : Edge.t :=
  if bool_decide (Edge.id edge ≠ selectedEdgeId) then edge
  else
    let directed := negb (edge_directed edge) in
    {| Edge.id := Edge.id edge;
       Edge.source := Edge.source edge;
       Edge.target := Edge.target edge;
       Edge.type := Edge.type edge;
       Edge.style := Edge.style edge;
       Edge.data := Some {| directed := Some directed |};
       Edge.markerEnd := if directed then Some arrowClosed else None |}.

Definition onToggleEdgeDirection (c : Session) : M unit :=
  match truthy_string (selectedEdgeId c) with
  | None => mret tt
  | Some selectedEdgeId => setEdges (λ current, toggleEdge selectedEdgeId <$> current)
  end.

(** Lines 218-220. *)
Definition onAutoLayout (c : Session) : M unit :=
  setNodes (λ current, layoutGraph current (edges c)).

(** Lines 240-252. *)
Definition novelColors (current : list TagMeta.t) (colors : list (option string)) : list string :=
  let existingColors := TagMeta.color <$> current in
  omap (λ color : option string,
          match truthy_string color with
          | Some color => if bool_decide (color ∈ existingColors) then None else Some color
          | None => None
          end) colors.

Definition ensureTagsForColors (colors : list (option string)) : M unit :=
  λ w,
    let current := tags (session w) in
    let additions :=
      imap (λ index color,
              {| TagMeta.id := "tag-" ++ randomUUID (drawn w + index);
                 TagMeta.name := "Tag " ++ pretty (length current + index + 1);
                 TagMeta.color := color |})
           (novelColors current colors) in
    (Ok tt,
     with_drawn (drawn w + length additions)
       (with_session (with_tags (λ current,
          match additions with
          | [] => current
          | _ => (current ++ additions)%list
          end)) w)).

(** Lines 254-280. *)
Definition loadNode (node : GraphJson.node) : Node.t :=
  {| Node.id := GraphJson.id node;
     Node.type := "graphNode";
     Node.position := {| px := 0; py := 0 |};
     Node.data := {| GraphNodeData.label := GraphJson.label node;
                     GraphNodeData.tagColor := GraphJson.tagColor node |} |}.

Definition loadEdge (index : nat) (edge : GraphJson.edge) : Edge.t :=
  {| Edge.id := "e-" ++ GraphJson.source edge ++ "-" ++ GraphJson.target edge
                     ++ "-" ++ pretty index;
     Edge.source := GraphJson.source edge;
     Edge.target := GraphJson.target edge;
     Edge.type := "smoothstep";
     Edge.style := defaultEdgeStyle;
     Edge.data := Some {| directed := Some (default true (GraphJson.directed edge)) |};
     Edge.markerEnd := if default true (GraphJson.directed edge)
                       then Some arrowClosed else None |}.

Definition handleOpen (answer : option GraphFilePayload) : M unit :=
  modify (with_log (λ l, (l ++ [OpenGraph])%list));;
  match answer with
  | None => mret tt
  | Some result =>
      parsed ← lift (parseGraphJson (payload_data result));
      data ← lift (asGraphJson parsed);
      let loadedNodes := loadNode <$> GraphJson.nodes data in
      let loadedEdges := imap loadEdge (GraphJson.edges data) in
      setNodes (λ _, layoutGraph loadedNodes loadedEdges);;
      setEdges (λ _, loadedEdges);;
      ensureTagsForColors ((λ node, GraphNodeData.tagColor (Node.data node)) <$> loadedNodes);;
      setGraphFile (Some {| filePath := payload_filePath result;
                            baseDir := payload_baseDir result |});;
      setSelectedNodeId None;;
      setNodeNotes (λ _, ∅);;
      setStatus ("Opened " ++ payload_filePath result)
  end.

(** Lines 295-309: [handleSave] once it has a file path. *)
Definition graphWrite (c : Session) (filePath : string) : Request :=
  let payload := createGraphJson (nodes c) (edges c) in
  SaveGraph filePath (JSON_stringify (GraphJson_to_json payload)).

Definition noteWrites (c : Session) (baseDir : string) : list Request :=
  (λ node, WriteNodeFile baseDir (Node.id node) (default "" (nodeNotes c !! Node.id node)))
    <$> nodes c.

Definition writeGraph (c : Session) (filePath : string) (baseDirOverride : option string) : M unit :=
  request (graphWrite c filePath);;
  let baseDir := match baseDirOverride with
                 | Some b => Some b
                 | None => baseDir <$> graphFile c
                 end in
  match truthy_string baseDir with
  | Some baseDir => requestAll (noteWrites c baseDir)
  | None => mret tt
  end;;
  setStatus ("Saved " ++ filePath).

(** Lines 282-287.  [handleSaveAs] calls [handleSave] with the chosen
    path, which comes back to [handleSaveAs] when that path is empty: the
    recursion is on the answers the user still has to give; with none
    left the dialog stays open and the handler never resumes. *)
Fixpoint handleSaveAs_with (answers : list (option GraphFile)) (c : Session) : M unit :=
  match answers with
  | [] => request (SaveGraphAs "graph")
  | answer :: answers =>
      request (SaveGraphAs "graph");;
      modify (with_dialogs answers);;
      match answer with
      | None => mret tt
      | Some result =>
          setGraphFile (Some {| filePath := filePath result; baseDir := baseDir result |});;
          match truthy_string (Some (filePath result)) with
          | Some filePath => writeGraph c filePath (Some (baseDir result))
          | None => handleSaveAs_with answers c
          end
      end
  end.

Definition handleSaveAs (c : Session) : M unit :=
  λ w, handleSaveAs_with (dialogs w) c w.

(** Lines 289-310. *)
Definition handleSave (c : Session) (filePathOverride baseDirOverride : option string) : M unit :=
  let filePath := match filePathOverride with
                  | Some f => Some f
                  | None => filePath <$> graphFile c
                  end in
  match truthy_string filePath with
  | None => handleSaveAs c
  | Some filePath => writeGraph c filePath baseDirOverride
  end.

(** Lines 312-320. *)
Definition handleNew : M unit :=
  setNodes (λ _, layoutGraph initialNodes initialEdges);;
  setEdges (λ _, initialEdges);;
  setGraphFile None;;
  setSelectedNodeId None;;
  setNodeNotes (λ _, ∅);;
  setSelectedTagColor None;;
  setStatus "New graph".

(** Lines 345-352; the patch holds the keys the editor sets. *)
Definition updateSelectedNode (c : Session) (patch : GraphNodeData.t) : M unit :=
  match truthy_string (selectedNodeId c) with
  | None => mret tt
  | Some selectedNodeId =>
      setNodes (λ current,
        (λ node,
           if bool_decide (Node.id node = selectedNodeId) then
             {| Node.id := Node.id node; Node.type := Node.type node;
                Node.position := Node.position node;
                Node.data :=
                  {| GraphNodeData.label :=
                       match GraphNodeData.label patch with
                       | Some l => Some l
                       | None => GraphNodeData.label (Node.data node)
                       end;
                     GraphNodeData.tagColor :=
                       match GraphNodeData.tagColor patch with
                       | Some t => Some t
                       | None => GraphNodeData.tagColor (Node.data node)
                       end |} |}
           else node) <$> current)
  end.

(** Lines 396-409 and 449-454: reactflow callbacks and the note editor.
    [apply] stands for [applyNodeChanges(changes, ·)] and
    [applyEdgeChanges(changes, ·)]; [removed] lists the ids of the
    changes of type remove. *)
Definition onNodesChange (apply : list Node.t → list Node.t) : M unit :=
  setNodes apply.

Definition onEdgesChange (c : Session) (apply : list Edge.t → list Edge.t)
    (removed : list string) : M unit :=
  setEdges apply;;
  match selectedEdgeId c with
  | Some id => if bool_decide (id ∈ removed) then setSelectedEdgeId None else mret tt
  | None => mret tt
  end.

Definition onNodeClick (id : string) : M unit :=
  setSelectedNodeId (Some id);; setSelectedEdgeId None.

Definition onEdgeClick (id : string) : M unit :=
  setSelectedEdgeId (Some id);; setSelectedNodeId None.

(** The textarea is on screen only while a node is selected. *)
Definition onNoteChange (c : Session) (value : string) : M unit :=
  match selectedNodeId c with
  | Some selectedNodeId => setNodeNotes (λ current, <[selectedNodeId := value]> current)
  | None => mret tt
  end.

(** Lines 337-342: the continuation of the [readNodeFile] issued for
    [nodeId]. *)
Definition onNoteRead (nodeId content : string) : M unit :=
  setNodeNotes (λ current, <[nodeId := content]> current).

(** *** The autosave effect (lines 322-330) *)

Definition autosaveEffect (w : World) : World :=
  match truthy_string (filePath <$> graphFile (session w)) with
  | None => w
  | Some _ =>
      (* clearTimeout on the previous timer, then setTimeout(..., 800) *)
      with_pending (Some {| due := (clock w + 800)%N; closure := session w |}) w
  end.

(** *** The note loading effect (lines 332-343).  The main process reads
    the file when the request arrives; the answer comes back as a later
    event. *)
Definition noteEffect (w : World) : World :=
  match truthy_string (baseDir <$> graphFile (session w)),
        truthy_string (selectedNodeId (session w)) with
  | Some baseDir, Some selectedNodeId =>
      match nodeNotes (session w) !! selectedNodeId with
      | Some _ => w
      | None =>
          let r := ReadNodeFile baseDir selectedNodeId in
          let w := with_log (λ l, (l ++ [r])%list) w in
          if fs_ok r
          then with_reads (λ l, (l ++ [(selectedNodeId,
                                        node_read baseDir selectedNodeId (disk w))])%list) w
          else w
      end
  | _, _ => w
  end.

(** A render: an effect runs when one of its dependencies changed. *)
Definition render (w : World) : World :=
  let w := if autosaveDeps w then autosaveEffect w else w in
  let w := if noteDeps w then noteEffect w else w in
  with_noteDeps false (with_autosaveDeps false w).

(** *** Events *)

Inductive Event :=
| AddNodeClick
| DeleteClick
| DeleteEdgeClick
| ToggleDirectionClick
| AutoLayoutClick
| NodesChange (apply : list Node.t → list Node.t)
| EdgesChange (apply : list Edge.t → list Edge.t) (removed : list string)
| NodeClick (id : string)
| EdgeClick (id : string)
| LabelInput (value : string)
| TagSelect (value : string)
| NoteInput (value : string)
| NoteRead (i : nat)    (* the i-th read under way is answered *)
| NewClick
| OpenClick (answer : option GraphFilePayload)
| SaveClick
| SaveAsClick.

Definition noteReadArrives (i : nat) : M unit :=
  λ w, match reads w !! i with
       | Some (nodeId, content) => onNoteRead nodeId content (with_reads (delete i) w)
       | None => (Ok tt, w)
       end.

Definition handler (e : Event) (c : Session) : M unit :=
  match e with
  | AddNodeClick => onAddNode c
  | DeleteClick => onDeleteNode c
  | DeleteEdgeClick => onDeleteEdge c
  | ToggleDirectionClick => onToggleEdgeDirection c
  | AutoLayoutClick => onAutoLayout c
  | NodesChange apply => onNodesChange apply
  | EdgesChange apply removed => onEdgesChange c apply removed
  | NodeClick id => onNodeClick id
  | EdgeClick id => onEdgeClick id
  | LabelInput value =>
      updateSelectedNode c {| GraphNodeData.label := Some value; GraphNodeData.tagColor := None |}
  | TagSelect value =>
      updateSelectedNode c {| GraphNodeData.label := None; GraphNodeData.tagColor := Some value |}
  | NoteInput value => onNoteChange c value
  | NoteRead i => noteReadArrives i
  | NewClick => handleNew
  | OpenClick answer => handleOpen answer
  | SaveClick => handleSave c None None
  | SaveAsClick => handleSaveAs c
  end.

(** The world a handler is started in: no dependency changed yet. *)
Definition idle (w : World) : World :=
  with_noteDeps false (with_autosaveDeps false w).

(** One event: the handler of the current render runs to its end, React
    renders once with all its updates, the effects run. *)
Definition dispatch (e : Event) (w : World) : World :=
  render (exec (handler e (session w)) (idle w)).

(** Time passes.  A timer that comes due fires: its callback calls the
    [handleSave] of the render that armed it. *)
Definition elapse (d : N) (w : World) : World :=
  let t := (clock w + d)%N in
  match pending w with
  | Some timer =>
      if (due timer <=? t)%N then
        let w := with_clock (due timer) (with_pending None w) in
        let w := render (exec (handleSave (closure timer) None None) (idle w)) in
        with_clock t w
      else with_clock t w
  | None => with_clock t w
  end.

(** The state [App] mounts with (lines 146-160).  The autosave effect
    of the first render finds no file and returns. *)
Definition initialSession : Session :=
  {| nodes := layoutGraph initialNodes initialEdges;
     edges := initialEdges;
     selectedNodeId := None;
     selectedEdgeId := None;
     graphFile := None;
     nodeNotes := ∅;
     tags := initialTags;
     selectedTagColor := None;
     newTagName := "";
     newTagColor := "#38BDF8";
     status := "Ready" |}.

Definition initialWorld (files : gmap string string)
    (answers : list (option GraphFile)) : World :=
  {| session := initialSession; autosaveDeps := false; noteDeps := false;
     pending := None; clock := 0; disk := files; log := []; reads := [];
     dialogs := answers; drawn := 0 |}.

Inductive Step :=
| Do (e : Event)
| Wait (d : N).

Definition step (w : World) (s : Step) : World :=
  match s with
  | Do e => dispatch e w
  | Wait d => elapse d w
  end.

Definition run (script : list Step) (w : World) : World := foldl step w script.

End Renderer.

(** ** An executable platform

    A small JSON reader and writer over byte strings, a one-row layout
    and a [path] without normalization.  They let the model run on
    concrete documents; they stand in for the JavaScript engine, dagre
    and Node, and are no part of the source. *)

Module MiniJSON.

Definition dq : ascii := "034"%char.
Definition nl : ascii := "010"%char.

Definition is_ws (c : ascii) : bool :=
  Ascii.eqb c " " || Ascii.eqb c "009" || Ascii.eqb c "010" || Ascii.eqb c "013".

Fixpoint skip_ws (s : string) : string :=
  match s with
  | String c s' => if is_ws c then skip_ws s' else s
  | EmptyString => s
  end.

Fixpoint spaces (n : nat) : string :=
  match n with
  | 0 => ""
  | S n => String " " (spaces n)
  end.

(** *** Strings *)

Definition hex_digit (n : N) : ascii :=
  ascii_of_N (if (n <? 10)%N then 48 + n else 87 + n).

Definition hex_value (c : ascii) : option N :=
  let n := N_of_ascii c in
  if (48 <=? n)%N && (n <=? 57)%N then Some (n - 48)%N
  else if (97 <=? n)%N && (n <=? 102)%N then Some (n - 87)%N
  else if (65 <=? n)%N && (n <=? 70)%N then Some (n - 55)%N
  else None.

(** QuoteJSONString, on bytes. *)
Definition escape_char (c : ascii) : string :=
  if Ascii.eqb c dq then String "\" (String dq "")
  else if Ascii.eqb c "\" then "\\"
  else if Ascii.eqb c "008" then "\b"
  else if Ascii.eqb c "009" then "\t"
  else if Ascii.eqb c "010" then "\n"
  else if Ascii.eqb c "012" then "\f"
  else if Ascii.eqb c "013" then "\r"
  else if (N_of_ascii c <? 32)%N then
    "\u00" ++ String (hex_digit (N_of_ascii c / 16)) (String (hex_digit (N_of_ascii c mod 16)) "")
  else String c "".

Fixpoint escape (s : string) : string :=
  match s with
  | EmptyString => ""
  | String c s' => escape_char c ++ escape s'
  end.

Definition quote (s : string) : string := String dq (escape s ++ String dq "").

Definition unescape (e : ascii) : option ascii :=
  if Ascii.eqb e dq then Some dq
  else if Ascii.eqb e "\" then Some "\"%char
  else if Ascii.eqb e "/" then Some "/"%char
  else if Ascii.eqb e "b" then Some "008"%char
  else if Ascii.eqb e "t" then Some "009"%char
  else if Ascii.eqb e "n" then Some "010"%char
  else if Ascii.eqb e "f" then Some "012"%char
  else if Ascii.eqb e "r" then Some "013"%char
  else None.

(** The UTF-8 bytes of a code unit below 65536; surrogate halves are
    not paired. *)
Definition utf8 (code : N) : string :=
  if (code <? 128)%N then String (ascii_of_N code) ""
  else if (code <? 2048)%N then
    String (ascii_of_N (192 + code / 64)) (String (ascii_of_N (128 + code mod 64)) "")
  else
    String (ascii_of_N (224 + code / 4096))
      (String (ascii_of_N (128 + (code / 64) mod 64))
         (String (ascii_of_N (128 + code mod 64)) "")).

(** The characters of a string literal, after its opening quote. *)
Fixpoint parse_chars (s : string) : option (string * string) :=
  match s with
  | EmptyString => None
  | String c s' =>
      if Ascii.eqb c dq then Some ("", s')
      else if Ascii.eqb c "\" then
        match s' with
        | EmptyString => None
        | String e s'' =>
            if Ascii.eqb e "u" then
              match s'' with
              | String h1 (String h2 (String h3 (String h4 s3))) =>
                  d1 ← hex_value h1; d2 ← hex_value h2;
                  d3 ← hex_value h3; d4 ← hex_value h4;
                  '(str, rest) ← parse_chars s3;
                  Some (utf8 (((d1 * 16 + d2) * 16 + d3) * 16 + d4)%N ++ str, rest)
              | _ => None
              end
            else
              c' ← unescape e;
              '(str, rest) ← parse_chars s'';
              Some (String c' str, rest)
        end
      else if (N_of_ascii c <? 32)%N then None
      else '(str, rest) ← parse_chars s'; Some (String c str, rest)
  end.

(** *** Numbers *)

Definition float_of_Z (m : Z) : float :=
  SF2Prim (binary_normalize prec emax m 0 false).

Definition digit_value (c : ascii) : option Z :=
  let n := N_of_ascii c in
  if (48 <=? n)%N && (n <=? 57)%N then Some (Z.of_N (n - 48)) else None.

(** The digits at the head of [s]: their value after [acc], their
    number, the rest. *)
Fixpoint parse_digits (acc : Z) (s : string) : Z * nat * string :=
  match s with
  | String c s' =>
      match digit_value c with
      | Some d => let '(v, n, rest) := parse_digits (acc * 10 + d) s' in (v, S n, rest)
      | None => (acc, 0, s)
      end
  | EmptyString => (acc, 0, s)
  end.

Definition scale (m e : Z) : float :=
  if (400 <? e)%Z then (if (m =? 0)%Z then 0 else (float_of_Z m * infinity))%float
  else if (0 <=? e)%Z then float_of_Z (m * 10 ^ e)
  else if (e <? -400)%Z then (float_of_Z m * 0)%float
  else (float_of_Z m / float_of_Z (10 ^ (- e)))%float.

(** [-? int frac? exp?]; the value is rounded once for a literal
    without negative decimal exponent, twice otherwise. *)
Definition parse_number (s : string) : option (float * string) :=
  let '(neg, s) := match s with
                   | String "-" s' => (true, s')
                   | _ => (false, s)
                   end in
  let '(int, n, rest) := parse_digits 0 s in
  let leading_zero := match s with
                      | String "0" _ => true
                      | _ => false
                      end in
  if bool_decide (n = 0) || (leading_zero && negb (bool_decide (n = 1))) then None
  else
    frac ← match rest with
           | String "." rest' =>
               let '(m, k, rest'') := parse_digits int rest' in
               if bool_decide (k = 0) then None else Some (m, Z.of_nat k, rest'')
           | _ => Some (int, 0%Z, rest)
           end;
    let '(m, k, rest) := frac in
    ex ← match rest with
         | String c rest' =>
             if Ascii.eqb c "e" || Ascii.eqb c "E" then
               let '(sign, rest') := match rest' with
                                     | String "-" r => ((-1)%Z, r)
                                     | String "+" r => (1%Z, r)
                                     | _ => (1%Z, rest')
                                     end in
               let '(e, j, rest'') := parse_digits 0 rest' in
               if bool_decide (j = 0) then None else Some ((sign * e)%Z, rest'')
             else Some (0%Z, rest)
         | EmptyString => Some (0%Z, rest)
         end;
    let '(e, rest) := ex in
    let v := scale m (e - k) in
    Some (if neg then (- v)%float else v, rest).

(** An integral number below 10^21 as JavaScript writes it; the
    renderer serializes no number, and any other comes out as null. *)
Definition integral (f : float) : option Z :=
  match Prim2SF f with
  | S754_zero _ => Some 0%Z
  | S754_finite s m e =>
      let z := if (0 <=? e)%Z then Some (Zpos m * 2 ^ e)%Z
               else if (Zpos m mod 2 ^ (- e) =? 0)%Z then Some (Zpos m / 2 ^ (- e))%Z
               else None in
      (λ z : Z, if s then (- z)%Z else z) <$> z
  | _ => None
  end.

Definition print_number (f : float) : string :=
  match integral f with
  | Some z => if (Z.abs z <? 10 ^ 21)%Z then pretty z else "null"
  | None => "null"
  end.

(** *** Values *)

Fixpoint strip_prefix (word s : string) : option string :=
  match word, s with
  | EmptyString, _ => Some s
  | String a word', String b s' => if Ascii.eqb a b then strip_prefix word' s' else None
  | String _ _, EmptyString => None
  end.

Definition expect (word : string) (v : json) (s : string) : option (json * string) :=
  rest ← strip_prefix word s; Some (v, rest).

(** Defining a property that exists replaces its value in place. *)
Fixpoint obj_set (k : string) (v : json) (fields : list (string * json)) : list (string * json) :=
  match fields with
  | [] => [(k, v)]
  | (k', v') :: rest =>
      if String.eqb k k' then (k', v) :: rest else (k', v') :: obj_set k v rest
  end.

Definition object_of (members : list (string * json)) : json :=
  JObj (foldl (λ fields kv, obj_set (fst kv) (snd kv) fields) [] members).

Fixpoint parse_value (fuel : nat) (s : string) : option (json * string) :=
  match fuel with
  | 0 => None
  | S fuel =>
      match skip_ws s with
      | EmptyString => None
      | String c rest =>
          if Ascii.eqb c "n" then expect "ull" JNull rest
          else if Ascii.eqb c "t" then expect "rue" (JBool true) rest
          else if Ascii.eqb c "f" then expect "alse" (JBool false) rest
          else if Ascii.eqb c dq then
            '(str, rest) ← parse_chars rest; Some (JStr str, rest)
          else if Ascii.eqb c "[" then
            match skip_ws rest with
            | String c' rest' =>
                if Ascii.eqb c' "]" then Some (JArr [], rest')
                else '(items, rest) ← parse_items fuel rest; Some (JArr items, rest)
            | EmptyString => None
            end
          else if Ascii.eqb c "{" then
            match skip_ws rest with
            | String c' rest' =>
                if Ascii.eqb c' "}" then Some (JObj [], rest')
                else '(members, rest) ← parse_members fuel rest;
                     Some (object_of members, rest)
            | EmptyString => None
            end
          else '(n, rest) ← parse_number (String c rest); Some (JNum n, rest)
      end
  end
with parse_items (fuel : nat) (s : string) : option (list json * string) :=
  match fuel with
  | 0 => None
  | S fuel =>
      '(v, rest) ← parse_value fuel s;
      match skip_ws rest with
      | String c rest' =>
          if Ascii.eqb c "," then
            '(vs, rest'') ← parse_items fuel rest'; Some (v :: vs, rest'')
          else if Ascii.eqb c "]" then Some ([v], rest')
          else None
      | EmptyString => None
      end
  end
with parse_members (fuel : nat) (s : string) : option (list (string * json) * string) :=
  match fuel with
  | 0 => None
  | S fuel =>
      match skip_ws s with
      | String c rest =>
          if Ascii.eqb c dq then
            '(key, rest) ← parse_chars rest;
            match skip_ws rest with
            | String c rest =>
                if Ascii.eqb c ":" then
                  '(v, rest) ← parse_value fuel rest;
                  match skip_ws rest with
                  | String c rest' =>
                      if Ascii.eqb c "," then
                        '(ms, rest'') ← parse_members fuel rest';
                        Some ((key, v) :: ms, rest'')
                      else if Ascii.eqb c "}" then Some ([(key, v)], rest')
                      else None
                  | EmptyString => None
                  end
                else None
            | EmptyString => None
            end
          else None
      | EmptyString => None
      end
  end.

(** [JSON.parse] *)
Definition parse (s : string) : option json :=
  '(v, rest) ← parse_value (S (String.length s)) s;
  match skip_ws rest with
  | EmptyString => Some v
  | _ => None
  end.

Fixpoint join (sep : string) (l : list string) : string :=
  match l with
  | [] => ""
  | [x] => x
  | x :: l' => x ++ sep ++ join sep l'
  end.

Fixpoint print (ind : nat) (v : json) : string :=
  let block (opening closing : ascii) (parts : list string) : string :=
    match parts with
    | [] => String opening (String closing "")
    | _ => String opening (String nl (spaces (2 + ind)))
           ++ join (String "," (String nl (spaces (2 + ind)))) parts
           ++ String nl (spaces ind) ++ String closing ""
    end in
  match v with
  | JNull => "null"
  | JBool true => "true"
  | JBool false => "false"
  | JNum n => print_number n
  | JStr s => quote s
  | JArr items => block "["%char "]"%char (print (2 + ind) <$> items)
  | JObj fields =>
      block "{"%char "}"%char
        ((λ kv, quote (fst kv) ++ ": " ++ print (2 + ind) (snd kv)) <$> fields)
  end.

(** [JSON.stringify(v, null, 2)] *)
Definition stringify (v : json) : string := print 0 v.

(** A JSON text written with ['] for the double quote. *)
Fixpoint text (s : string) : string :=
  match s with
  | EmptyString => ""
  | String c s' => String (if Ascii.eqb c "'" then dq else c) (text s')
  end.

End MiniJSON.

(** One rank per node, in the order of the [setNode] calls. *)
Fixpoint index_of (id : string) (ids : list string) : nat :=
  match ids with
  | [] => 0
  | id' :: ids => if String.eqb id id' then 0 else S (index_of id ids)
  end.

Definition row_layout (g : DagreGraph) (id : string) : Point :=
  let k := MiniJSON.float_of_Z (Z.of_nat (index_of id (fst <$> g_nodes g))) in
  {| px := (nodeWidth / 2 + k * (nodeWidth + 80))%float; py := (nodeHeight / 2)%float |}.

(** The part of a path before its last slash. *)
Fixpoint dirname_go (p : string) : option string :=
  match p with
  | EmptyString => None
  | String c p' =>
      match dirname_go p' with
      | Some d => Some (String c d)
      | None => if Ascii.eqb c "/" then Some "" else None
      end
  end.

Definition demo_env : Env := {|
  JSON_parse := MiniJSON.parse;
  JSON_stringify := MiniJSON.stringify;
  dagre_layout := row_layout;
  path_join := MiniJSON.join "/";
  path_dirname := λ p, default "." (dirname_go p);
  fs_ok := λ _, true;
  randomUUID := λ n, "uuid-" ++ pretty n
|}.

(** ** Notions the properties are stated with *)

(** Every edge ends in nodes of the session (spec, section 3). *)
Definition edges_closed (s : Session) : Prop :=
  ∀ edge, edge ∈ edges s →
    Edge.source edge ∈ Node.id <$> nodes s ∧ Edge.target edge ∈ Node.id <$> nodes s.

Definition endpoints (edge : Edge.t) : string * string :=
  (Edge.source edge, Edge.target edge).

(** The graph [layoutGraph] has built when it calls [dagre.layout], as a
    function of the node ids and of the edge endpoints. *)
Definition graphOf (ids : list string) (pairs : list (string * string)) : DagreGraph :=
  {| g_label := Some {| rankdir := "LR"; nodesep := 60; ranksep := 80 |};
     g_defaultEdgeLabel := true;
     g_nodes := (λ id, (id, (nodeWidth, nodeHeight))) <$> ids;
     g_edges := pairs |}.

(** A GraphFile is bound, as the autosave effect tests it. *)
Definition bound (s : Session) : Prop :=
  is_Some (truthy_string (filePath <$> graphFile s)).

(** JSON trees without numbers whose objects have distinct keys: what
    [JSON.parse] gives back unchanged after [JSON.stringify]. *)
Fixpoint plain (v : json) : bool :=
  match v with
  | JNum _ => false
  | JArr items => forallb plain items
  | JObj fields =>
      bool_decide (NoDup (fst <$> fields)) && forallb (λ kv, plain (snd kv)) fields
  | _ => true
  end.

Definition JSON_faithful `{Env} : Prop :=
  ∀ v, plain v = true → JSON_parse (JSON_stringify v) = Some v.

(** The events that edit the graph, and an edit that went through: its
    handler replaced [nodes] or [edges]. *)
Definition is_edit (e : Event) : bool :=
  match e with
  | AddNodeClick | DeleteClick | DeleteEdgeClick | ToggleDirectionClick
  | AutoLayoutClick | NodesChange _ | EdgesChange _ _ | LabelInput _ | TagSelect _ => true
  | _ => false
  end.

Definition mutates `{Env} (e : Event) (w : World) : Prop :=
  is_edit e = true ∧
  autosaveDeps (exec (handler e (session w)) (idle w)) = true.

(** Mutations that follow one another, each less than 800 ms after the
    one before. *)
Fixpoint burst `{Env} (w : World) (ms : list (N * Event)) : World :=
  match ms with
  | [] => w
  | (gap, e) :: ms => burst (dispatch e (elapse gap w)) ms
  end.

Fixpoint within_window `{Env} (w : World) (ms : list (N * Event)) : Prop :=
  match ms with
  | [] => True
  | (gap, e) :: ms =>
      (gap < 800)%N ∧ mutates e (elapse gap w)
      ∧ within_window (dispatch e (elapse gap w)) ms
  end.

(** The requests a save with a file path issues: the graph, then, if
    that write went through and a base directory is known, one note
    write per node of the render the handler belongs to. *)
Definition saveRequests `{Env} (c : Session) (filePath : string) (baseDir : option string)
    : list Request :=
  graphWrite c filePath ::
    (if fs_ok (graphWrite c filePath) then
       match truthy_string baseDir with
       | Some baseDir => noteWrites c baseDir
       | None => []
       end
     else []).

Definition is_WriteNodeFile (r : Request) : Prop :=
  match r with
  | WriteNodeFile _ _ _ => True
  | _ => False
  end.

(** Notions for the round trip of [MiniJSON]: the fuel a value needs,
    the separator between the items of a block, the text of a member,
    and what the text of a value starts with. *)
Fixpoint weight (v : json) : nat :=
  match v with
  | JArr items => S (foldr (λ x acc, S (weight x + acc)) 0 items)
  | JObj fields => S (foldr (λ kv acc, S (weight (snd kv) + acc)) 0 fields)
  | _ => 1
  end.

Definition item_sep (ind : nat) : string :=
  String "," (String MiniJSON.nl (MiniJSON.spaces (2 + ind))).

Definition member_text (ind : nat) (kv : string * json) : string :=
  MiniJSON.quote (fst kv) ++ ": " ++ MiniJSON.print (2 + ind) (snd kv).

Definition opens_value (s : string) : Prop :=
  ∃ c tl, s = String c tl ∧ MiniJSON.is_ws c = false
          ∧ Ascii.eqb c "]" = false ∧ Ascii.eqb c "}" = false.

Definition round_trips (x : json) : Prop :=
  plain x = true → ∀ (fuel ind : nat) (rest : string),
    (weight x ≤ fuel)%nat →
    MiniJSON.parse_value fuel (MiniJSON.print ind x ++ rest) = Some (x, rest).

Definition short (x : json) : Prop :=
  plain x = true → ∀ ind : nat, (weight x ≤ String.length (MiniJSON.print ind x))%nat.

(** ** Documents and scripts the examples run *)

(** The file of the dangling-edge example of the spec. *)
Definition dangling_file : GraphFilePayload :=
  {| payload_filePath := "/graphs/g_data/g.json";
     payload_baseDir := "/graphs/g_data";
     payload_data :=
       MiniJSON.text "{'nodes':[{'id':'a'}], 'edges':[{'source':'a','target':'b'}]}" |}.

(** A file with one node, whose note on disk reads hello. *)
Definition notes_file : GraphFilePayload :=
  {| payload_filePath := "/graphs/g_data/g.json";
     payload_baseDir := "/graphs/g_data";
     payload_data :=
       MiniJSON.text
         "{'nodes':[{'id':'node-1','label':'Idea','tagColor':'#6366F1'}], 'edges':[]}" |}.

Definition notes_disk : gmap string string :=
  {[ "/graphs/g_data/nodes/node-1.md" := "hello" ]}.

Definition broken_file : GraphFilePayload :=
  {| payload_filePath := "/graphs/g_data/g.json";
     payload_baseDir := "/graphs/g_data";
     payload_data := "{oops" |}.

(** What the two files parse to, and how they read at the type
    GraphJson. *)
Definition dangling_parsed : ParsedGraph :=
  {| parsed_nodes := JArr [JObj [("id", JStr "a")]];
     parsed_edges := JArr [JObj [("source", JStr "a"); ("target", JStr "b")]] |}.

Definition dangling_data : GraphJson.t :=
  {| GraphJson.nodes :=
       [{| GraphJson.id := "a"; GraphJson.label := None; GraphJson.tagColor := None |}];
     GraphJson.edges :=
       [{| GraphJson.source := "a"; GraphJson.target := "b"; GraphJson.directed := None |}] |}.

Definition notes_parsed : ParsedGraph :=
  {| parsed_nodes := JArr [JObj [("id", JStr "node-1"); ("label", JStr "Idea");
                                 ("tagColor", JStr "#6366F1")]];
     parsed_edges := JArr [] |}.

Definition notes_data : GraphJson.t :=
  {| GraphJson.nodes :=
       [{| GraphJson.id := "node-1"; GraphJson.label := Some "Idea";
           GraphJson.tagColor := Some "#6366F1" |}];
     GraphJson.edges := [] |}.

(** The initial nodes under other labels, the initial edge undirected. *)
Definition relabelled_nodes : list Node.t :=
  (λ node, {| Node.id := Node.id node; Node.type := Node.type node;
              Node.position := {| px := 7; py := 9 |};
              Node.data := {| GraphNodeData.label := Some "other";
                              GraphNodeData.tagColor := None |} |}) <$> initialNodes.

Definition undirected_edges : list Edge.t := toggleEdge "e1-2" <$> initialEdges.

(** Mutations 300 ms and 799 ms apart. *)
Definition two_more_mutations : list (N * Event) :=
  [(300%N, AutoLayoutClick); (799%N, NodesChange (λ l, l))].

(** Open the file; 100 ms later select its node; the read of its note
    is answered 50 ms later; 650 ms later the save armed by the open is
    due. *)
Definition select_after_open : list Step :=
  [Do (OpenClick (Some notes_file)); Wait 100; Do (NodeClick "node-1"); Wait 50;
   Do (NoteRead 0)].

Definition autosave_after_select : list Step := (select_after_open ++ [Wait 650])%list.

Definition manual_save_after_select : list Step := (select_after_open ++ [Do SaveClick])%list.

(** ** The tag panel, the open dialog, and what a render derives

    [onAddTag] (App.tsx, lines 222-238) with the inputs of the tag panel
    (lines 486-533), the values a render derives from the state (lines
    164-166), and [graph:open] (main.js, lines 51-65). *)

(** [String.prototype.trim]. *)
Class Text := { trim : string → string }.

Definition with_newTagName (v : string) (s : Session) : Session :=
  {| nodes := nodes s; edges := edges s; selectedNodeId := selectedNodeId s;
     selectedEdgeId := selectedEdgeId s; graphFile := graphFile s; nodeNotes := nodeNotes s;
     tags := tags s; selectedTagColor := selectedTagColor s; newTagName := v;
     newTagColor := newTagColor s; status := status s |}.

Definition with_newTagColor (v : string) (s : Session) : Session :=
  {| nodes := nodes s; edges := edges s; selectedNodeId := selectedNodeId s;
     selectedEdgeId := selectedEdgeId s; graphFile := graphFile s; nodeNotes := nodeNotes s;
     tags := tags s; selectedTagColor := selectedTagColor s; newTagName := newTagName s;
     newTagColor := v; status := status s |}.

Definition setNewTagName (v : string) : M unit :=
  modify (with_session (with_newTagName v)).

Definition setNewTagColor (v : string) : M unit :=
  modify (with_session (with_newTagColor v)).

(** A node as reactflow is given it: with the class name of the tag
    focus. *)
Record Shown := { shown : Node.t; className : option string }.

(** What the dialog of [graph:open] returns. *)
Record OpenDialog := { canceled : bool; filePaths : list string }.

Section Panel.
Context `{Env} `{Text}.

(** Lines 222-238. *)
Definition onAddTag (c : Session) : M unit :=
  let trimmed := trim (newTagName c) in
  match truthy_string (Some trimmed) with
  | None => setStatus "Tag name is required."
  | Some trimmed =>
      if existsb (λ tag, String.eqb (TagMeta.color tag) (newTagColor c)) (tags c) then
        setStatus "Each tag color must be unique."
      else
        uuid ← crypto_randomUUID;
        setTags (λ current,
          (current ++ [{| TagMeta.id := "tag-" ++ uuid;
                          TagMeta.name := trimmed;
                          TagMeta.color := newTagColor c |}])%list);;
        setNewTagName "";;
        setStatus ("Added tag " ++ String MiniJSON.dq (trimmed ++ String MiniJSON.dq "."))
  end.

(** Lines 164-166. *)
Definition selectedNode (c : Session) : option Node.t :=
  match selectedNodeId c with
  | Some id => find (λ node, String.eqb (Node.id node) id) (nodes c)
  | None => None
  end.

Definition selectedNote (c : Session) : string :=
  match truthy_string (selectedNodeId c) with
  | Some id => default "" (nodeNotes c !! id)
  | None => ""
  end.

Definition selectedEdge (c : Session) : option Edge.t :=
  match selectedEdgeId c with
  | Some id => find (λ edge, String.eqb (Edge.id edge) id) (edges c)
  | None => None
  end.

(** Lines 168-174: the nodes handed to reactflow, each with the class
    name the focus gives it, if any. *)
Definition visibleNodes (c : Session) : list Shown :=
  match truthy_string (selectedTagColor c) with
  | None => (λ node, {| shown := node; className := None |}) <$> nodes c
  | Some _ =>
      (λ node,
         {| shown := node;
            className :=
              Some (if bool_decide (GraphNodeData.tagColor (Node.data node)
                                    = selectedTagColor c)
                    then "node--focused" else "node--dim") |}) <$> nodes c
  end.

(** Lines 495-496: the count and the focus mark of a row of the tag
    list; lines 504 and 489: the Focus and Clear Focus buttons. *)
Definition tagCount (c : Session) (tag : TagMeta.t) : nat :=
  length (filter (λ node, GraphNodeData.tagColor (Node.data node) = Some (TagMeta.color tag))
            (nodes c)).

Definition isFocused (c : Session) (tag : TagMeta.t) : bool :=
  bool_decide (selectedTagColor c = Some (TagMeta.color tag)).

Definition onFocus (tag : TagMeta.t) : M unit :=
  setSelectedTagColor (Some (TagMeta.color tag)).

Definition onClearFocus : M unit := setSelectedTagColor None.

(** A handler of the current render runs to its end, React renders, the
    effects run: [dispatch] for a handler that is no [Event]. *)
Definition perform (h : Session → M unit) (w : World) : World :=
  render (exec (h (session w)) (idle w)).

(** [graph:open], main.js lines 51-65.  [fs.readFile] rejects when the
    file is missing. *)
Definition graph_open (chosen : OpenDialog) (d : gmap string string)
    : result (option GraphFilePayload) :=
  match canceled chosen, filePaths chosen with
  | true, _ | false, [] => Ok None
  | false, filePath :: _ =>
      match d !! filePath with
      | Some data => Ok (Some {| payload_filePath := filePath;
                                 payload_baseDir := path_dirname filePath;
                                 payload_data := data |})
      | None => Throw IOError
      end
  end.

(** Open clicked and the dialog answered: [handleOpen] awaits what
    [graph:open] returns; when the promise is rejected it is left at
    its first line. *)
Definition openGraph (chosen : OpenDialog) (w : World) : World :=
  match graph_open chosen (disk w) with
  | Ok answer => dispatch (OpenClick answer) w
  | Throw _ => with_log (λ l, (l ++ [OpenGraph])%list) w
  end.

End Panel.

(** ** Where [dagre.layout] throws

    [dagre.layout(graph)] (line 55) does not return on every graph.
    [dagre_layout] of [Env] gives the positions it leaves where it
    returns; [dagre_throws] gives the exception it throws where it does
    not.  [layoutGraph] and [handleOpen] above are the source where it
    returns.  [layoutGraph_call] and [handleOpen_call] are the source
    with the exception: it leaves [layoutGraph] at line 55, before the
    [nodes.map] of line 57, and [handleOpen] at line 273, inside the
    argument of its first setter. *)
Class Dagre := { dagre_throws : DagreGraph → option exn }.

Section Throwing.
Context `{Env} `{Dagre}.

(** Lines 42-64. *)
Definition layoutGraph_call (nodes : list Node.t) (edges : list Edge.t)
    : result (list Node.t) :=
  let graph := newGraph in
  let graph := setGraph {| rankdir := "LR"; nodesep := 60; ranksep := 80 |} graph in
  let graph := setDefaultEdgeLabel graph in
  let graph := foldl (λ g node, setNode (Node.id node) nodeWidth nodeHeight g) graph nodes in
  let graph := foldl (λ g edge, setEdge (Edge.source edge) (Edge.target edge) g) graph edges in
  match dagre_throws graph with
  | Some e => Throw e
  | None =>
      Ok ((λ node,
             let p := dagre_layout graph (Node.id node) in
             {| Node.id := Node.id node;
                Node.type := Node.type node;
                Node.data := Node.data node;
                Node.position := {| px := (px p - nodeWidth / 2)%float;
                                    py := (py p - nodeHeight / 2)%float |} |}) <$> nodes)
  end.

(** Lines 254-280. *)
Definition handleOpen_call (answer : option GraphFilePayload) : M unit :=
  modify (with_log (λ l, (l ++ [OpenGraph])%list));;
  match answer with
  | None => mret tt
  | Some result =>
      parsed ← lift (parseGraphJson (payload_data result));
      data ← lift (asGraphJson parsed);
      let loadedNodes := loadNode <$> GraphJson.nodes data in
      let loadedEdges := imap loadEdge (GraphJson.edges data) in
      laidOut ← lift (layoutGraph_call loadedNodes loadedEdges);
      setNodes (λ _, laidOut);;
      setEdges (λ _, loadedEdges);;
      ensureTagsForColors ((λ node, GraphNodeData.tagColor (Node.data node)) <$> loadedNodes);;
      setGraphFile (Some {| filePath := payload_filePath result;
                            baseDir := payload_baseDir result |});;
      setSelectedNodeId None;;
      setNodeNotes (λ _, ∅);;
      setStatus ("Opened " ++ payload_filePath result)
  end.

End Throwing.

(** A stand-in for the graphs [dagre.layout] throws on: a node whose id
    is the empty string, an edge end named constructor. *)
Definition demo_dagre : Dagre :=
  {| dagre_throws := λ g,
       if forallb (λ n, negb (String.eqb (fst n) "")) (g_nodes g)
          && forallb (λ e, negb (String.eqb (fst e) "constructor"
                                 || String.eqb (snd e) "constructor")) (g_edges g)
       then None else Some TypeError |}.

(** A [trim] for the executable platform: blanks, tabs and line ends. *)
Fixpoint trimStart (s : string) : string :=
  match s with
  | EmptyString => ""
  | String c s' => if MiniJSON.is_ws c then trimStart s' else s
  end.

Definition demo_text : Text :=
  {| trim := λ s, String.rev (trimStart (String.rev (trimStart s))) |}.

(** The executable platform with a disk that takes no graph file. *)
Definition readonly_env : Env := {|
  JSON_parse := MiniJSON.parse;
  JSON_stringify := MiniJSON.stringify;
  dagre_layout := row_layout;
  path_join := MiniJSON.join "/";
  path_dirname := λ p, default "." (dirname_go p);
  fs_ok := λ r, match r with
                | SaveGraph _ _ => false
                | _ => true
                end;
  randomUUID := λ n, "uuid-" ++ pretty n
|}.

(** ** Further notions *)

(** The file [node:write] writes the note of a node to. *)
Definition notePath `{Env} (baseDir nodeId : string) : string :=
  path_join [path_join [baseDir; "nodes"]; nodeId ++ ".md"].

(** [node:read] and [node:write] name the same file. *)
Definition path_join_nested `{Env} : Prop :=
  ∀ a b c, path_join [path_join [a; b]; c] = path_join [a; b; c].

(** Not a node and an edge selected at once (spec, section 4.3). *)
Definition exclusive (s : Session) : Prop :=
  selectedNodeId s = None ∨ selectedEdgeId s = None.

(** A computation keeps a relation between the world it starts in and
    the world it leaves. *)
Definition keeps {A} (R : World → World → Prop) (m : M A) : Prop :=
  ∀ w, R w (exec m w).

(** What every handler keeps of the autosave effect: it touches neither
    timer nor clock, and unless it flags a dependency of the effect,
    [nodes], [edges] and the file path are what they were. *)
Definition tracked (w w' : World) : Prop :=
  pending w' = pending w
  ∧ clock w' = clock w
  ∧ (autosaveDeps w = true → autosaveDeps w' = true)
  ∧ (autosaveDeps w' = false →
       nodes (session w') = nodes (session w)
       ∧ edges (session w') = edges (session w)
       ∧ filePath <$> graphFile (session w') = filePath <$> graphFile (session w)).

(** What a save leaves alone: all of the session but the file binding
    and the status line. *)
Definition saved (w w' : World) : Prop :=
  nodes (session w') = nodes (session w)
  ∧ edges (session w') = edges (session w)
  ∧ selectedNodeId (session w') = selectedNodeId (session w)
  ∧ selectedEdgeId (session w') = selectedEdgeId (session w)
  ∧ nodeNotes (session w') = nodeNotes (session w)
  ∧ tags (session w') = tags (session w).

(** The scheduled save, if any, belongs to a render with a file, and
    while a file is bound it holds the live nodes, edges and path. *)
Definition timer_fresh (w : World) : Prop :=
  ∀ t, pending w = Some t →
    bound (closure t)
    ∧ (bound (session w) →
         nodes (closure t) = nodes (session w)
         ∧ edges (closure t) = edges (session w)
         ∧ filePath <$> graphFile (closure t) = filePath <$> graphFile (session w)).

(** The events whose handlers take nodes and edges from the session
    alone: not a file, not a change list of reactflow. *)
Definition is_button (e : Event) : bool :=
  match e with
  | OpenClick (Some _) | NodesChange _ | EdgesChange _ _ => false
  | _ => true
  end.

(** A value [.map] cannot be called on, or whose elements cannot be
    read: no array, or an array that holds null. *)
Definition not_mappable (v : json) : bool :=
  match v with
  | JArr items => existsb is_null items
  | _ => true
  end.

(** The graph [handleOpen] has [layoutGraph] build for a file. *)
Definition fileGraph (data : GraphJson.t) : DagreGraph :=
  graphOf (GraphJson.id <$> GraphJson.nodes data)
          ((λ edge, (GraphJson.source edge, GraphJson.target edge)) <$> GraphJson.edges data).

(** An edge record with the default of [directed] written out. *)
Definition explicit_edge (edge : GraphJson.edge) : GraphJson.edge :=
  {| GraphJson.source := GraphJson.source edge;
     GraphJson.target := GraphJson.target edge;
     GraphJson.directed := Some (default true (GraphJson.directed edge)) |}.

(** The file a request writes. *)
Definition written `{Env} (r : Request) : option string :=
  match r with
  | SaveGraph filePath _ => Some filePath
  | WriteNodeFile baseDir nodeId _ => Some (notePath baseDir nodeId)
  | _ => None
  end.

(** A JSON document [handleOpen] throws a TypeError on: null, or an
    object whose [nodes] or [edges] is truthy and cannot be mapped. *)
Definition unreadable (v : json) : bool :=
  match v with
  | JNull => true
  | JObj fields =>
      not_mappable (or_empty_array (assoc "nodes" fields))
      || not_mappable (or_empty_array (assoc "edges" fields))
  | _ => false
  end.

(** Save, then open the file that was saved. *)
Definition reopened `{Env} (filePath : string) (w : World) : World :=
  openGraph {| canceled := false; filePaths := [filePath] |} (dispatch SaveClick w).

(** The tag [ensureTagsForColors] makes of the [index]-th new color,
    with [known] tags there and [drawn] identifiers used. *)
Definition tagFor `{Env} (known drawn index : nat) (color : string) : TagMeta.t :=
  {| TagMeta.id := "tag-" ++ randomUUID (drawn + index);
     TagMeta.name := "Tag " ++ pretty (known + index + 1);
     TagMeta.color := color |}.

(** What a request that writes a file puts there. *)
Definition content_of (r : Request) : string :=
  match r with
  | SaveGraph _ content | WriteNodeFile _ _ content => content
  | _ => ""
  end.

(** A JSON document that is neither null nor an object. *)
Definition no_record (v : json) : bool :=
  match v with
  | JNull | JObj _ => false
  | _ => true
  end.

(** A script of button events and pauses. *)
Definition buttons_only (script : list Step) : Prop :=
  Forall (λ s, match s with
               | Do e => is_button e = true
               | Wait _ => True
               end) script.

(** Edits, each after a pause. *)
Definition all_edits (ms : list (N * Event)) : Prop :=
  Forall (λ m, is_edit (snd m) = true) ms.

(** ** More documents and scripts *)

Definition saved_file : GraphFile :=
  {| filePath := "/graphs/g_data/g.json"; baseDir := "/graphs/g_data" |}.

(** Open the file with the one node, add a node 100 ms later. *)
Definition add_after_open : list Step :=
  [Do (OpenClick (Some notes_file)); Wait 100; Do AddNodeClick].

(** A file with a new tag color on two of its nodes. *)
Definition colors_file : GraphFilePayload :=
  {| payload_filePath := "/graphs/g_data/g.json";
     payload_baseDir := "/graphs/g_data";
     payload_data :=
       MiniJSON.text
         "{'nodes':[{'id':'a','tagColor':'#FF0000'},{'id':'b','tagColor':'#FF0000'},{'id':'c','tagColor':'#6366F1'}]}" |}.

Definition colors_parsed : ParsedGraph :=
  {| parsed_nodes := JArr [JObj [("id", JStr "a"); ("tagColor", JStr "#FF0000")];
                           JObj [("id", JStr "b"); ("tagColor", JStr "#FF0000")];
                           JObj [("id", JStr "c"); ("tagColor", JStr "#6366F1")]];
     parsed_edges := JArr [] |}.

Definition colors_data : GraphJson.t :=
  {| GraphJson.nodes :=
       [{| GraphJson.id := "a"; GraphJson.label := None; GraphJson.tagColor := Some "#FF0000" |};
        {| GraphJson.id := "b"; GraphJson.label := None; GraphJson.tagColor := Some "#FF0000" |};
        {| GraphJson.id := "c"; GraphJson.label := None; GraphJson.tagColor := Some "#6366F1" |}];
     GraphJson.edges := [] |}.

(** A file with an edge to a node that is not there, named constructor. *)
Definition constructor_file : GraphFilePayload :=
  {| payload_filePath := "/graphs/g_data/g.json";
     payload_baseDir := "/graphs/g_data";
     payload_data :=
       MiniJSON.text "{'nodes':[{'id':'a'}], 'edges':[{'source':'a','target':'constructor'}]}" |}.

Definition constructor_parsed : ParsedGraph :=
  {| parsed_nodes := JArr [JObj [("id", JStr "a")]];
     parsed_edges := JArr [JObj [("source", JStr "a"); ("target", JStr "constructor")]] |}.

Definition constructor_data : GraphJson.t :=
  {| GraphJson.nodes :=
       [{| GraphJson.id := "a"; GraphJson.label := None; GraphJson.tagColor := None |}];
     GraphJson.edges :=
       [{| GraphJson.source := "a"; GraphJson.target := "constructor";
           GraphJson.directed := None |}] |}.

(** A file whose [nodes] is a number. *)
Definition number_file : GraphFilePayload :=
  {| payload_filePath := "/graphs/g_data/g.json";
     payload_baseDir := "/graphs/g_data";
     payload_data := MiniJSON.text "{'nodes':5}" |}.

(** The state after opening the file with the one node, on the
    executable platform and on the one whose disk takes no graph file. *)
Definition opened : World :=
  @dispatch demo_env (OpenClick (Some notes_file)) (@initialWorld demo_env notes_disk []).

Definition opened_readonly : World :=
  @dispatch readonly_env (OpenClick (Some notes_file))
    (@initialWorld readonly_env notes_disk []).

(** Open the file with the one node and select the node: the read of
    its note is under way. *)
Definition read_under_way : World :=
  @dispatch demo_env (NodeClick "node-1") opened.

(** A name and a new color typed into the tag panel. *)
Definition tag_typed : World :=
  @perform demo_env (λ _, setNewTagColor "#FF0000")
    (@perform demo_env (λ _, setNewTagName " Research ") (@initialWorld demo_env ∅ [])).

(** Add a node, wait, select a node and delete it. *)
Definition add_select_delete : list Step :=
  [Do AddNodeClick; Wait 10; Do (NodeClick "node-1"); Do DeleteClick].

(** Edits 100 ms and 5 s apart. *)
Definition two_edits : list (N * Event) :=
  [(100%N, AddNodeClick); (5000%N, AutoLayoutClick)].

(** * Properties *)

Local Open Scope list_scope.

Ltac unfold_setters :=
  unfold setNodes, setEdges, setGraphFile, setSelectedNodeId, setSelectedEdgeId,
    setNodeNotes, setTags, setSelectedTagColor, setStatus, modify, lift in *.

Ltac step_handler :=
  unfold exec, mbind, mret, M_bind, M_ret in *; unfold_setters; simpl in *.

Lemma truthy_string_Some o s : truthy_string o = Some s → o = Some s ∧ s ≠ "".
Proof.
  destruct o as [t|]; simpl; [|done].
  destruct (String.eqb t "") eqn:E; [done|]. intros [= ->]. split; [done|].
  intros ->. by rewrite String.eqb_refl in E.
Qed.

Lemma truthy_string_nonempty s : s ≠ "" → truthy_string (Some s) = Some s.
Proof.
  intros Hs. simpl. destruct (String.eqb s "") eqn:E; [|done].
  apply String.eqb_eq in E. done.
Qed.

Section Properties.
Context `{Env}.

(** ** Effects leave the session alone *)

Lemma autosaveEffect_session w : session (autosaveEffect w) = session w.
Proof. unfold autosaveEffect. by destruct (truthy_string _). Qed.

Lemma noteEffect_session w : session (noteEffect w) = session w.
Proof. unfold noteEffect. repeat case_match; done. Qed.

Lemma noteEffect_pending w : pending (noteEffect w) = pending w.
Proof. unfold noteEffect. repeat case_match; done. Qed.

Lemma noteEffect_disk w : disk (noteEffect w) = disk w.
Proof. unfold noteEffect. repeat case_match; done. Qed.

Lemma noteEffect_clock w : clock (noteEffect w) = clock w.
Proof. unfold noteEffect. repeat case_match; done. Qed.

Lemma render_session w : session (render w) = session w.
Proof.
  unfold render. simpl.
  repeat case_match; rewrite ?noteEffect_session, ?autosaveEffect_session; done.
Qed.

Lemma render_disk w : disk (render w) = disk w.
Proof.
  unfold render, autosaveEffect. simpl.
  repeat case_match; rewrite ?noteEffect_disk; done.
Qed.

Lemma render_clock w : clock (render w) = clock w.
Proof.
  unfold render, autosaveEffect. simpl.
  repeat case_match; rewrite ?noteEffect_clock; done.
Qed.

(** What a render does to the timer: armed anew when a dependency of
    the autosave effect changed and a file is bound, left alone
    otherwise. *)
Lemma render_pending w :
  pending (render w) =
    if autosaveDeps w then
      match truthy_string (filePath <$> graphFile (session w)) with
      | Some _ => Some {| due := (clock w + 800)%N; closure := session w |}
      | None => pending w
      end
    else pending w.
Proof.
  unfold render, autosaveEffect. simpl.
  repeat case_match; rewrite ?noteEffect_pending; simpl; congruence.
Qed.

(** What [dispatch] makes of the outcome of a handler. *)
Lemma dispatch_session e w :
  session (dispatch e w) = session (exec (handler e (session w)) (idle w)).
Proof. unfold dispatch. by rewrite render_session. Qed.

Lemma dispatch_disk e w :
  disk (dispatch e w) = disk (exec (handler e (session w)) (idle w)).
Proof. unfold dispatch. by rewrite render_disk. Qed.

Lemma dispatch_clock e w :
  clock (dispatch e w) = clock (exec (handler e (session w)) (idle w)).
Proof. unfold dispatch. by rewrite render_clock. Qed.

Lemma dispatch_pending e w :
  pending (dispatch e w) =
    let w' := exec (handler e (session w)) (idle w) in
    if autosaveDeps w' then
      match truthy_string (filePath <$> graphFile (session w')) with
      | Some _ => Some {| due := (clock w' + 800)%N; closure := session w' |}
      | None => pending w'
      end
    else pending w'.
Proof. unfold dispatch. by rewrite render_pending. Qed.

(** ** Graph Serializer: reading *)

Lemma parseGraphJson_object raw fields :
  JSON_parse raw = Some (JObj fields) →
  parseGraphJson raw = Ok {| parsed_nodes := or_empty_array (assoc "nodes" fields);
                             parsed_edges := or_empty_array (assoc "edges" fields) |}.
Proof. intros Hp. unfold parseGraphJson. rewrite Hp. reflexivity. Qed.

Lemma parseGraphJson_null raw :
  JSON_parse raw = Some JNull → parseGraphJson raw = Throw TypeError.
Proof. intros Hp. unfold parseGraphJson. rewrite Hp. reflexivity. Qed.

Lemma parseGraphJson_throws raw e :
  parseGraphJson raw = Throw e →
  (e = SyntaxError ∧ JSON_parse raw = None) ∨ (e = TypeError ∧ JSON_parse raw = Some JNull).
Proof.
  unfold parseGraphJson. destruct (JSON_parse raw) as [parsed|] eqn:Hp.
  - destruct parsed; simpl; intros [= <-] || intros [=]. right. done.
  - intros [= <-]. left. done.
Qed.

(** ** Opening a file *)

(** The session a successful open leaves. *)
Lemma handleOpen_loaded r w parsed data :
  parseGraphJson (payload_data r) = Ok parsed →
  asGraphJson parsed = Ok data →
  let w' := exec (handleOpen (Some r)) w in
  fst (handleOpen (Some r) w) = Ok tt
  ∧ nodes (session w') = layoutGraph (loadNode <$> GraphJson.nodes data)
                                     (imap loadEdge (GraphJson.edges data))
  ∧ edges (session w') = imap loadEdge (GraphJson.edges data)
  ∧ graphFile (session w') = Some {| filePath := payload_filePath r;
                                     baseDir := payload_baseDir r |}
  ∧ selectedNodeId (session w') = None
  ∧ nodeNotes (session w') = ∅
  ∧ selectedEdgeId (session w') = selectedEdgeId (session w)
  ∧ autosaveDeps w' = true
  ∧ pending w' = pending w ∧ clock w' = clock w ∧ disk w' = disk w.
Proof.
  intros Hp Hd. unfold handleOpen. step_handler. rewrite Hp. simpl. rewrite Hd. simpl.
  unfold ensureTagsForColors. simpl. done.
Qed.

Lemma handleOpen_throws r w e :
  rbind (parseGraphJson (payload_data r)) asGraphJson = Throw e →
  handleOpen (Some r) w = (Throw e, with_log (λ l, (l ++ [OpenGraph])%list) w).
Proof.
  unfold handleOpen. step_handler.
  destruct (parseGraphJson (payload_data r)) as [parsed|e']; simpl.
  - destruct (asGraphJson parsed); simpl; [done|]. by intros [= ->].
  - by intros [= ->].
Qed.

(** C7.  Opening a file whose content is not valid JSON: the SyntaxError
    of [JSON.parse] leaves [handleOpen] before any setter ran.  The
    caller gets the exception; the session, the scheduled save, the
    clock, the disk and the reads under way are what they were. *)
Theorem handleOpen_malformed_is_atomic (r : GraphFilePayload) (w : World) :
  JSON_parse (payload_data r) = None →
  fst (handleOpen (Some r) w) = Throw SyntaxError
  ∧ session (dispatch (OpenClick (Some r)) w) = session w
  ∧ pending (dispatch (OpenClick (Some r)) w) = pending w
  ∧ clock (dispatch (OpenClick (Some r)) w) = clock w
  ∧ disk (dispatch (OpenClick (Some r)) w) = disk w
  ∧ reads (dispatch (OpenClick (Some r)) w) = reads w.
Proof.
  intros Hp.
  assert (Hthrow : rbind (parseGraphJson (payload_data r)) asGraphJson = Throw SyntaxError).
  { unfold parseGraphJson. by rewrite Hp. }
  split; [by rewrite (handleOpen_throws r _ SyntaxError Hthrow)|].
  rewrite dispatch_session, dispatch_pending, dispatch_clock, dispatch_disk.
  unfold dispatch. cbn [handler]. unfold exec.
  rewrite !(handleOpen_throws r _ SyntaxError Hthrow). cbn [snd].
  split_and!; done.
Qed.

(** C6.  [parseGraphJson] throws the SyntaxError of [JSON.parse] exactly
    on the texts that are no JSON; the one other exception it can throw
    is the TypeError of reading a property of the document null.  On a
    JSON object a missing [nodes] key reads as the empty array, and so
    does a missing [edges] key; with both missing the file opens without
    exception, with no node and no edge. *)
Theorem parseGraphJson_tolerant (raw : string) :
  (parseGraphJson raw = Throw SyntaxError ↔ JSON_parse raw = None)
  ∧ (∀ e, parseGraphJson raw = Throw e →
       e = SyntaxError ∨ (e = TypeError ∧ JSON_parse raw = Some JNull))
  ∧ (∀ fields, JSON_parse raw = Some (JObj fields) →
       ∃ d, parseGraphJson raw = Ok d
            ∧ (assoc "nodes" fields = None → parsed_nodes d = JArr [])
            ∧ (assoc "edges" fields = None → parsed_edges d = JArr [])
            ∧ (assoc "nodes" fields = None → assoc "edges" fields = None →
               ∀ r w, payload_data r = raw →
                 fst (handleOpen (Some r) w) = Ok tt
                 ∧ nodes (session (dispatch (OpenClick (Some r)) w)) = []
                 ∧ edges (session (dispatch (OpenClick (Some r)) w)) = [])).
Proof.
  split_and!.
  - split.
    + intros Ht. apply parseGraphJson_throws in Ht as [[_ ?]|[[=] _]]. done.
    + intros Hp. unfold parseGraphJson. by rewrite Hp.
  - intros e He. apply parseGraphJson_throws in He as [[-> _]|[-> ?]]; auto.
  - intros fields Hp. eexists. split; [by apply parseGraphJson_object|].
    cbn [parsed_nodes parsed_edges]. split_and!.
    + by intros ->.
    + by intros ->.
    + intros Hn He r w <-.
      pose proof (parseGraphJson_object _ _ Hp) as Hparsed.
      rewrite Hn, He in Hparsed. simpl in Hparsed.
      destruct (handleOpen_loaded r w _ {| GraphJson.nodes := []; GraphJson.edges := [] |}
                  Hparsed eq_refl) as (Hok & _).
      rewrite dispatch_session. cbn [handler].
      destruct (handleOpen_loaded r (idle w) _
                  {| GraphJson.nodes := []; GraphJson.edges := [] |}
                  Hparsed eq_refl) as (_ & Hnodes' & Hedges' & _).
      rewrite Hnodes', Hedges'. done.
Qed.

(** ** Deleting a node *)

Lemma onDeleteNode_session (w : World) (sel : string) :
  truthy_string (selectedNodeId (session w)) = Some sel →
  session (dispatch DeleteClick w) =
    with_nodeNotes (delete sel) (with_selectedNodeId None
      (with_edges (filter (λ edge, Edge.source edge ≠ sel ∧ Edge.target edge ≠ sel))
         (with_nodes (filter (λ node, Node.id node ≠ sel)) (session w)))).
Proof.
  intros Hsel. rewrite dispatch_session. cbn [handler]. unfold onDeleteNode.
  rewrite Hsel. reflexivity.
Qed.

(** With [selectedNodeId] null or the empty string the handler
    returns at its first line. *)
Lemma onDeleteNode_unselected (w : World) :
  truthy_string (selectedNodeId (session w)) = None →
  session (dispatch DeleteClick w) = session w.
Proof.
  intros Hsel. rewrite dispatch_session. cbn [handler]. unfold onDeleteNode.
  rewrite Hsel. reflexivity.
Qed.

Lemma filter_id_not_elem (sel : string) (l : list Node.t) :
  sel ∉ Node.id <$> filter (λ node, Node.id node ≠ sel) l.
Proof.
  intros Hin. apply list_elem_of_fmap in Hin as (n & -> & Hn).
  apply list_elem_of_filter in Hn as [Hne _]. done.
Qed.

Lemma filter_id_keeps (sel id : string) (l : list Node.t) :
  id ≠ sel → id ∈ Node.id <$> l → id ∈ Node.id <$> filter (λ node, Node.id node ≠ sel) l.
Proof.
  intros Hne Hin. apply list_elem_of_fmap in Hin as (n & Hn & Hnin).
  apply list_elem_of_fmap. exists n. split; [done|].
  apply list_elem_of_filter. split; [congruence|done].
Qed.

(** C5.  With a node selected, as the handler (line 187) and the Delete
    button (line 374, disabled otherwise) test it, that is with a
    [selectedNodeId] that is a non-empty string: deleting removes the
    nodes with that id, the edges that start or end there, and the note
    kept under that id.  No remaining node has the id, no remaining edge
    touches it, and if every edge ended in nodes before, every edge ends
    in nodes afterwards. *)
Theorem onDeleteNode_cascades (w : World) (sel : string) :
  truthy_string (selectedNodeId (session w)) = Some sel →
  nodes (session (dispatch DeleteClick w))
    = filter (λ node, Node.id node ≠ sel) (nodes (session w))
  ∧ edges (session (dispatch DeleteClick w))
    = filter (λ edge, Edge.source edge ≠ sel ∧ Edge.target edge ≠ sel) (edges (session w))
  ∧ nodeNotes (session (dispatch DeleteClick w)) = delete sel (nodeNotes (session w))
  ∧ (sel ∉ Node.id <$> nodes (session (dispatch DeleteClick w)))
  ∧ (∀ edge, edge ∈ edges (session (dispatch DeleteClick w)) →
       Edge.source edge ≠ sel ∧ Edge.target edge ≠ sel)
  ∧ nodeNotes (session (dispatch DeleteClick w)) !! sel = None
  ∧ (edges_closed (session w) → edges_closed (session (dispatch DeleteClick w))).
Proof.
  intros Hsel. rewrite (onDeleteNode_session w sel Hsel). simpl.
  split_and!; try done.
  - apply filter_id_not_elem.
  - intros edge Hin. apply list_elem_of_filter in Hin as [[? ?] _]. done.
  - apply lookup_delete_eq.
  - intros Hc edge Hin. simpl in *. apply list_elem_of_filter in Hin as [[Hs Ht] Hin].
    destruct (Hc edge Hin) as [Hsrc Htgt].
    split; by apply filter_id_keeps.
Qed.

(** ** Toggling the direction of an edge *)

Lemma onToggleEdgeDirection_session (w : World) :
  session (dispatch ToggleDirectionClick w) =
    match truthy_string (selectedEdgeId (session w)) with
    | Some sel => with_edges (fmap (toggleEdge sel)) (session w)
    | None => session w
    end.
Proof.
  rewrite dispatch_session. cbn [handler]. unfold onToggleEdgeDirection.
  destruct (truthy_string _); reflexivity.
Qed.

Lemma toggleEdge_other sel edge : Edge.id edge ≠ sel → toggleEdge sel edge = edge.
Proof. intros Hne. unfold toggleEdge. by rewrite bool_decide_eq_true_2. Qed.

Lemma toggleEdge_selected sel edge :
  Edge.id edge = sel →
  edge_directed (toggleEdge sel edge) = negb (edge_directed edge)
  ∧ Edge.markerEnd (toggleEdge sel edge)
    = (if negb (edge_directed edge) then Some arrowClosed else None)
  ∧ Edge.id (toggleEdge sel edge) = Edge.id edge
  ∧ Edge.source (toggleEdge sel edge) = Edge.source edge
  ∧ Edge.target (toggleEdge sel edge) = Edge.target edge
  ∧ Edge.type (toggleEdge sel edge) = Edge.type edge
  ∧ Edge.style (toggleEdge sel edge) = Edge.style edge.
Proof.
  intros Heq. unfold toggleEdge. rewrite bool_decide_eq_false_2 by (intros ?; done).
  done.
Qed.

(** C9.  Toggling the direction changes nothing but [edges]: nodes,
    notes, tags, the file binding and the selection stay.  With an edge
    selected, the edge list keeps its length and order; an edge with
    another id is unchanged; an edge with the selected id has its
    directed flag negated and its marker set to match, and keeps id,
    endpoints, type and style.  With no edge selected the session is
    unchanged. *)
Theorem onToggleEdgeDirection_frame (w : World) :
  (nodes (session (dispatch ToggleDirectionClick w)) = nodes (session w)
   ∧ nodeNotes (session (dispatch ToggleDirectionClick w)) = nodeNotes (session w)
   ∧ tags (session (dispatch ToggleDirectionClick w)) = tags (session w)
   ∧ graphFile (session (dispatch ToggleDirectionClick w)) = graphFile (session w)
   ∧ selectedNodeId (session (dispatch ToggleDirectionClick w)) = selectedNodeId (session w)
   ∧ selectedEdgeId (session (dispatch ToggleDirectionClick w)) = selectedEdgeId (session w))
  ∧ (truthy_string (selectedEdgeId (session w)) = None →
     session (dispatch ToggleDirectionClick w) = session w)
  ∧ (∀ sel, truthy_string (selectedEdgeId (session w)) = Some sel →
       length (edges (session (dispatch ToggleDirectionClick w))) = length (edges (session w))
       ∧ ∀ i edge, edges (session w) !! i = Some edge →
           ∃ edge', edges (session (dispatch ToggleDirectionClick w)) !! i = Some edge'
             ∧ (Edge.id edge ≠ sel → edge' = edge)
             ∧ (Edge.id edge = sel →
                  edge_directed edge' = negb (edge_directed edge)
                  ∧ Edge.markerEnd edge'
                    = (if negb (edge_directed edge) then Some arrowClosed else None)
                  ∧ Edge.id edge' = Edge.id edge
                  ∧ Edge.source edge' = Edge.source edge
                  ∧ Edge.target edge' = Edge.target edge
                  ∧ Edge.type edge' = Edge.type edge
                  ∧ Edge.style edge' = Edge.style edge)).
Proof.
  rewrite onToggleEdgeDirection_session.
  destruct (truthy_string (selectedEdgeId (session w))) as [sel|] eqn:Hsel.
  - split_and!; try done.
    intros sel' [= <-]. simpl. split; [by rewrite length_fmap|].
    intros i edge Hi. exists (toggleEdge sel edge). split_and!.
    + by rewrite list_lookup_fmap, Hi.
    + apply toggleEdge_other.
    + apply toggleEdge_selected.
  - split_and!; done.
Qed.

(** ** Layout *)

Lemma foldl_setNode (l : list Node.t) (g : DagreGraph) :
  foldl (λ g node, setNode (Node.id node) nodeWidth nodeHeight g) g l =
    {| g_label := g_label g; g_defaultEdgeLabel := g_defaultEdgeLabel g;
       g_nodes := g_nodes g ++ ((λ id, (id, (nodeWidth, nodeHeight))) <$> (Node.id <$> l));
       g_edges := g_edges g |}.
Proof.
  revert g. induction l as [|node l IH]; intros g; simpl.
  - rewrite app_nil_r. by destruct g.
  - rewrite IH. simpl. by rewrite <- app_assoc.
Qed.

Lemma foldl_setEdge (l : list Edge.t) (g : DagreGraph) :
  foldl (λ g edge, setEdge (Edge.source edge) (Edge.target edge) g) g l =
    {| g_label := g_label g; g_defaultEdgeLabel := g_defaultEdgeLabel g;
       g_nodes := g_nodes g; g_edges := g_edges g ++ (endpoints <$> l) |}.
Proof.
  revert g. induction l as [|edge l IH]; intros g; simpl.
  - rewrite app_nil_r. by destruct g.
  - rewrite IH. simpl. by rewrite <- app_assoc.
Qed.

(** The graph handed to dagre holds the node ids and the edge endpoints
    and nothing else of the session. *)
Lemma layoutGraph_graphOf (nodes : list Node.t) (edges : list Edge.t) :
  layoutGraph nodes edges =
    (λ node,
       let p := dagre_layout (graphOf (Node.id <$> nodes) (endpoints <$> edges)) (Node.id node) in
       {| Node.id := Node.id node;
          Node.type := Node.type node;
          Node.data := Node.data node;
          Node.position := {| px := (px p - nodeWidth / 2)%float;
                              py := (py p - nodeHeight / 2)%float |} |}) <$> nodes.
Proof.
  unfold layoutGraph. cbv zeta. rewrite foldl_setEdge, foldl_setNode. reflexivity.
Qed.

(** X24.  Layout reads the node ids and the edge ends, in their order,
    and nothing else of the nodes and edges: two node lists with the
    same ids and two edge lists with the same ends get the same position
    for every id, whatever their labels, tag colors, positions, edge ids
    and directions. *)
Theorem layoutGraph_reads_ids_and_ends (nodes1 nodes2 : list Node.t)
    (edges1 edges2 : list Edge.t) :
  Node.id <$> nodes1 = Node.id <$> nodes2 →
  endpoints <$> edges1 = endpoints <$> edges2 →
  (λ node, (Node.id node, Node.position node)) <$> layoutGraph nodes1 edges1
  = (λ node, (Node.id node, Node.position node)) <$> layoutGraph nodes2 edges2.
Proof.
  intros Hn He.
  rewrite !layoutGraph_graphOf, <- !list_fmap_compose, Hn, He.
  set (g := graphOf _ _).
  transitivity ((λ id, (id, {| px := (px (dagre_layout g id) - nodeWidth / 2)%float;
                               py := (py (dagre_layout g id) - nodeHeight / 2)%float |}))
                  <$> (Node.id <$> nodes1)).
  - by rewrite <- list_fmap_compose.
  - rewrite Hn. by rewrite <- list_fmap_compose.
Qed.

(** ** Opening a file whose layout throws *)

Lemma layoutGraph_call_graphOf `{Dagre} (nodes : list Node.t) (edges : list Edge.t) :
  layoutGraph_call nodes edges =
    match dagre_throws (graphOf (Node.id <$> nodes) (endpoints <$> edges)) with
    | Some e => Throw e
    | None => Ok (layoutGraph nodes edges)
    end.
Proof.
  unfold layoutGraph_call, layoutGraph. cbv zeta. rewrite foldl_setEdge, foldl_setNode.
  reflexivity.
Qed.

Lemma loaded_graph (data : GraphJson.t) :
  graphOf (Node.id <$> (loadNode <$> GraphJson.nodes data))
          (endpoints <$> imap loadEdge (GraphJson.edges data))
  = fileGraph data.
Proof.
  unfold fileGraph. f_equal.
  - by rewrite <- list_fmap_compose.
  - rewrite fmap_imap, <- imap_const. by apply imap_ext.
Qed.

(** Where [dagre.layout] returns, the open with the exception is the
    open above. *)
Lemma handleOpen_call_returns `{Dagre} r w parsed data :
  parseGraphJson (payload_data r) = Ok parsed →
  asGraphJson parsed = Ok data →
  dagre_throws (fileGraph data) = None →
  handleOpen_call (Some r) w = handleOpen (Some r) w.
Proof.
  intros Hp Hd Hg. unfold handleOpen_call, handleOpen, mbind, M_bind, lift, modify.
  rewrite Hp, Hd, layoutGraph_call_graphOf, loaded_graph, Hg. reflexivity.
Qed.

Lemma handleOpen_call_throws `{Dagre} r w parsed data e :
  parseGraphJson (payload_data r) = Ok parsed →
  asGraphJson parsed = Ok data →
  dagre_throws (fileGraph data) = Some e →
  handleOpen_call (Some r) w = (Throw e, with_log (λ l, (l ++ [OpenGraph])%list) w).
Proof.
  intros Hp Hd Hg. unfold handleOpen_call, mbind, M_bind, lift, modify.
  rewrite Hp, Hd, layoutGraph_call_graphOf, loaded_graph, Hg. reflexivity.
Qed.

Lemma handleOpen_call_fails `{Dagre} r w e :
  rbind (parseGraphJson (payload_data r)) asGraphJson = Throw e →
  handleOpen_call (Some r) w = (Throw e, with_log (λ l, (l ++ [OpenGraph])%list) w).
Proof.
  unfold handleOpen_call, mbind, M_bind, lift, modify.
  destruct (parseGraphJson (payload_data r)) as [parsed|e']; simpl.
  - destruct (asGraphJson parsed); simpl; [done|]. by intros [= ->].
  - by intros [= ->].
Qed.

(** What an open that threw leaves: the request in the log, and the
    session, the scheduled save and the disk as they were. *)
Lemma perform_thrown (h : Session → M unit) (w : World) (e : exn) (r : Request) :
  h (session w) (idle w) = (Throw e, with_log (λ l, (l ++ [r])%list) (idle w)) →
  session (perform h w) = session w
  ∧ pending (perform h w) = pending w
  ∧ disk (perform h w) = disk w.
Proof.
  intros Hh. unfold perform, exec.
  rewrite render_session, render_pending, render_disk, Hh. done.
Qed.

(** C3, as the code has it.  [handleOpen] filters nothing.  For a file
    that parses and reads at the type GraphJson: where [dagre.layout]
    returns on the graph of the file's node ids and edge ends, the open
    returns, every edge record of the file becomes an edge of the
    session, in file order and with its endpoints, whether or not they
    name a loaded node, and the nodes are the node records of the file;
    where [dagre.layout] throws, [handleOpen] throws what it throws, and
    the session, the scheduled save and the disk are what they were. *)
Theorem handleOpen_keeps_every_edge `{Dagre} (r : GraphFilePayload) (w : World)
    (parsed : ParsedGraph) (data : GraphJson.t) :
  parseGraphJson (payload_data r) = Ok parsed →
  asGraphJson parsed = Ok data →
  (dagre_throws (fileGraph data) = None →
     fst (handleOpen_call (Some r) w) = Ok tt
     ∧ (λ edge, (Edge.source edge, Edge.target edge))
         <$> edges (session (perform (λ _, handleOpen_call (Some r)) w))
       = (λ edge, (GraphJson.source edge, GraphJson.target edge)) <$> GraphJson.edges data
     ∧ Node.id <$> nodes (session (perform (λ _, handleOpen_call (Some r)) w))
       = GraphJson.id <$> GraphJson.nodes data)
  ∧ (∀ e, dagre_throws (fileGraph data) = Some e →
       fst (handleOpen_call (Some r) w) = Throw e
       ∧ session (perform (λ _, handleOpen_call (Some r)) w) = session w
       ∧ pending (perform (λ _, handleOpen_call (Some r)) w) = pending w
       ∧ disk (perform (λ _, handleOpen_call (Some r)) w) = disk w).
Proof.
  intros Hp Hd. split.
  - intros Hg.
    destruct (handleOpen_loaded r w _ _ Hp Hd) as (Hok & _).
    destruct (handleOpen_loaded r (idle w) _ _ Hp Hd) as (_ & Hnodes & Hedges & _).
    unfold perform. rewrite render_session. unfold exec in *.
    rewrite !(handleOpen_call_returns r _ _ _ Hp Hd Hg), Hnodes, Hedges.
    split_and!; [done| |].
    + rewrite fmap_imap, <- imap_const. by apply imap_ext.
    + unfold layoutGraph. rewrite <- !list_fmap_compose. done.
  - intros e Hg. split.
    + by rewrite (handleOpen_call_throws r w _ _ e Hp Hd Hg).
    + apply (perform_thrown _ w e OpenGraph).
      apply (handleOpen_call_throws r _ _ _ e Hp Hd Hg).
Qed.


(** ** Saving *)

Lemma writeGraph_effect c fp bo w :
  let baseDir := match bo with
                 | Some b => Some b
                 | None => baseDir <$> graphFile c
                 end in
  log (exec (writeGraph c fp bo) w) = log w ++ saveRequests c fp baseDir
  ∧ pending (exec (writeGraph c fp bo) w) = pending w
  ∧ clock (exec (writeGraph c fp bo) w) = clock w
  ∧ autosaveDeps (exec (writeGraph c fp bo) w) = autosaveDeps w
  ∧ noteDeps (exec (writeGraph c fp bo) w) = noteDeps w
  ∧ nodes (session (exec (writeGraph c fp bo) w)) = nodes (session w)
  ∧ edges (session (exec (writeGraph c fp bo) w)) = edges (session w)
  ∧ nodeNotes (session (exec (writeGraph c fp bo) w)) = nodeNotes (session w)
  ∧ graphFile (session (exec (writeGraph c fp bo) w)) = graphFile (session w).
Proof.
  cbv zeta. unfold writeGraph, saveRequests, request, requestAll. step_handler.
  destruct (fs_ok (graphWrite c fp)); simpl; [|done].
  destruct (truthy_string _); simpl.
  - destruct (forallb fs_ok _); simpl; rewrite <- ?app_assoc; done.
  - rewrite <- ?app_assoc. done.
Qed.

Lemma handleSave_bound c fp :
  truthy_string (filePath <$> graphFile c) = Some fp →
  handleSave c None None = writeGraph c fp None.
Proof. intros Hfp. unfold handleSave. by rewrite Hfp. Qed.

(** A timer that is not yet due stays; only the clock moves. *)
Lemma elapse_waits d w timer :
  pending w = Some timer → (clock w + d < due timer)%N →
  elapse d w = with_clock (clock w + d) w.
Proof.
  intros Hp Hlt. unfold elapse. rewrite Hp.
  destruct (N.leb_spec (due timer) (clock w + d)); [lia|done].
Qed.

(** A timer that comes due fires once: the save of its closure goes
    out and nothing is scheduled afterwards. *)
Lemma elapse_fires d w timer fp :
  pending w = Some timer → (due timer ≤ clock w + d)%N →
  truthy_string (filePath <$> graphFile (closure timer)) = Some fp →
  log (elapse d w)
    = log w ++ saveRequests (closure timer) fp (baseDir <$> graphFile (closure timer))
  ∧ pending (elapse d w) = None
  ∧ clock (elapse d w) = (clock w + d)%N
  ∧ nodes (session (elapse d w)) = nodes (session w)
  ∧ edges (session (elapse d w)) = edges (session w)
  ∧ nodeNotes (session (elapse d w)) = nodeNotes (session w)
  ∧ graphFile (session (elapse d w)) = graphFile (session w).
Proof.
  intros Hp Hle Hfp. unfold elapse. rewrite Hp.
  destruct (N.leb_spec (due timer) (clock w + d)); [|lia].
  cbv zeta. rewrite (handleSave_bound _ fp) by done.
  set (w0 := idle (with_clock (due timer) (with_pending None w))).
  destruct (writeGraph_effect (closure timer) fp None w0)
    as (Hlog & Hpend & Hclock & Hauto & Hnote & Hnodes & Hedges & Hnotes & Hfile).
  cbn [with_clock log pending clock session].
  rewrite render_pending, render_session, Hauto, Hpend, Hnodes, Hedges, Hnotes, Hfile.
  split_and!; try done.
  unfold render. rewrite Hauto. change (autosaveDeps w0) with false. cbv iota.
  rewrite Hnote. change (noteDeps w0) with false. cbv iota. exact Hlog.
Qed.

(** ** Autosave *)

Lemma autosaveEffect_log w : log (autosaveEffect w) = log w.
Proof. unfold autosaveEffect. by destruct (truthy_string _). Qed.

Lemma noteEffect_unselected w :
  truthy_string (selectedNodeId (session w)) = None → noteEffect w = w.
Proof. intros Hw. unfold noteEffect. rewrite Hw. by case_match. Qed.

Lemma render_log w :
  (noteDeps w = true → truthy_string (selectedNodeId (session w)) = None) →
  log (render w) = log w.
Proof.
  intros Hsel. unfold render. cbn [log with_noteDeps with_autosaveDeps].
  destruct (autosaveDeps w) eqn:Hauto.
  - destruct (noteDeps (autosaveEffect w)) eqn:Hnote; [|by rewrite autosaveEffect_log].
    rewrite noteEffect_unselected, autosaveEffect_log; [done|].
    rewrite autosaveEffect_session. apply Hsel.
    revert Hnote. unfold autosaveEffect. by case_match.
  - destruct (noteDeps w) eqn:Hnote; [|done]. by rewrite noteEffect_unselected by auto.
Qed.

(** What the handler of an editing event leaves alone. *)
Lemma edit_frame e w :
  is_edit e = true →
  log (exec (handler e (session w)) (idle w)) = log w
  ∧ clock (exec (handler e (session w)) (idle w)) = clock w
  ∧ graphFile (session (exec (handler e (session w)) (idle w))) = graphFile (session w)
  ∧ (noteDeps (exec (handler e (session w)) (idle w)) = true →
     truthy_string (selectedNodeId (session (exec (handler e (session w)) (idle w)))) = None).
Proof.
  destruct e; try discriminate; intros _; cbn [handler].
  - unfold onAddNode, crypto_randomUUID. step_handler. done.
  - unfold onDeleteNode. destruct (truthy_string _); step_handler; done.
  - unfold onDeleteEdge. destruct (truthy_string _); step_handler; done.
  - unfold onToggleEdgeDirection. destruct (truthy_string _); step_handler; done.
  - unfold onAutoLayout. step_handler. done.
  - unfold onNodesChange. step_handler. done.
  - unfold onEdgesChange. step_handler.
    destruct (selectedEdgeId (session w)); [case_bool_decide|]; simpl; done.
  - unfold updateSelectedNode. destruct (truthy_string _); step_handler; done.
  - unfold updateSelectedNode. destruct (truthy_string _); step_handler; done.
Qed.

(** A mutation while a file is bound: nothing is written, and the one
    scheduled save is due 800 ms later, on the state the mutation left;
    whatever was scheduled before is gone. *)
Lemma dispatch_mutation e w fp :
  truthy_string (filePath <$> graphFile (session w)) = Some fp →
  mutates e w →
  log (dispatch e w) = log w
  ∧ clock (dispatch e w) = clock w
  ∧ graphFile (session (dispatch e w)) = graphFile (session w)
  ∧ pending (dispatch e w)
    = Some {| due := (clock w + 800)%N; closure := session (dispatch e w) |}.
Proof.
  intros Hfp [Hedit Hmut].
  destruct (edit_frame e w Hedit) as (Hlog & Hclock & Hfile & Hsel).
  rewrite dispatch_pending, dispatch_clock, !dispatch_session. cbv zeta.
  rewrite Hmut, Hfile, Hfp, Hclock. split_and!; try done.
  unfold dispatch. by rewrite render_log.
Qed.

Lemma burst_invariant ms w fp :
  truthy_string (filePath <$> graphFile (session w)) = Some fp →
  pending w = Some {| due := (clock w + 800)%N; closure := session w |} →
  within_window w ms →
  log (burst w ms) = log w
  ∧ graphFile (session (burst w ms)) = graphFile (session w)
  ∧ pending (burst w ms)
    = Some {| due := (clock (burst w ms) + 800)%N; closure := session (burst w ms) |}.
Proof.
  revert w. induction ms as [|[gap e] ms IH]; intros w Hfp Hpend Hwin; [done|].
  destruct Hwin as (Hgap & Hmut & Hwin). cbn [burst].
  pose proof (elapse_waits gap w _ Hpend) as Hwait. cbn [due] in Hwait.
  specialize (Hwait ltac:(lia)). rewrite Hwait in *.
  destruct (dispatch_mutation e (with_clock (clock w + gap) w) fp Hfp Hmut)
    as (Hlog & Hclock & Hfile & Hpend').
  destruct (IH (dispatch e (with_clock (clock w + gap) w))) as (IHlog & IHfile & IHpend).
  - by rewrite Hfile.
  - by rewrite Hpend', Hclock.
  - done.
  - rewrite IHlog, IHfile, IHpend, Hlog, Hfile. done.
Qed.


(** ** Opening a file and the notes of the document before *)

Lemma layoutGraph_ids (nodes : list Node.t) (edges : list Edge.t) :
  Node.id <$> layoutGraph nodes edges = Node.id <$> nodes.
Proof. unfold layoutGraph. cbv zeta. by rewrite <- list_fmap_compose. Qed.

Lemma noteWrites_empty (c : Session) (baseDir : string) :
  nodeNotes c = ∅ →
  noteWrites c baseDir = (λ id, WriteNodeFile baseDir id "") <$> (Node.id <$> nodes c).
Proof.
  intros Hn. unfold noteWrites. rewrite <- list_fmap_compose.
  apply list_fmap_ext. intros i node _. simpl. by rewrite Hn, lookup_empty.
Qed.


(** ** Graph Serializer: round trip *)

Lemma as_node_to_json (n : GraphJson.node) : as_node (node_to_json n) = Ok n.
Proof. destruct n as [id [l|] [t|]]; reflexivity. Qed.

Lemma as_edge_to_json (e : GraphJson.edge) : as_edge (edge_to_json e) = Ok e.
Proof. destruct e as [src tgt [b|]]; reflexivity. Qed.

Lemma rmapM_inverse {A} (f : A → json) (g : json → result A) (l : list A) :
  (∀ a, g (f a) = Ok a) → rmapM g (f <$> l) = Ok l.
Proof.
  intros Hgf. induction l as [|a l IH]; [done|].
  cbn [fmap list_fmap rmapM]. rewrite Hgf. cbn [rbind]. rewrite IH. done.
Qed.

Lemma no_null_objects {A} (f : A → json) (l : list A) :
  (∀ a, is_null (f a) = false) → existsb is_null (f <$> l) = false.
Proof.
  intros Hf. induction l as [|a l IH]; [done|].
  cbn [fmap list_fmap existsb]. by rewrite Hf, IH.
Qed.

Lemma asGraphJson_to_json (g : GraphJson.t) :
  asGraphJson {| parsed_nodes := JArr (node_to_json <$> GraphJson.nodes g);
                 parsed_edges := JArr (edge_to_json <$> GraphJson.edges g) |} = Ok g.
Proof.
  unfold asGraphJson, array_elements. cbn [parsed_nodes parsed_edges].
  rewrite !no_null_objects by done.
  unfold mbind, result_bind. cbn [rbind].
  rewrite (rmapM_inverse node_to_json as_node) by apply as_node_to_json.
  cbn [rbind].
  rewrite (rmapM_inverse edge_to_json as_edge) by apply as_edge_to_json.
  by destruct g.
Qed.

Lemma plain_node_to_json (n : GraphJson.node) : plain (node_to_json n) = true.
Proof. destruct n as [id [l|] [t|]]; reflexivity. Qed.

Lemma plain_edge_to_json (e : GraphJson.edge) : plain (edge_to_json e) = true.
Proof. destruct e as [src tgt [b|]]; reflexivity. Qed.

Lemma forallb_fmap_true {A B} (p : B → bool) (f : A → B) (l : list A) :
  (∀ a, p (f a) = true) → forallb p (f <$> l) = true.
Proof.
  intros Hp. induction l as [|a l IH]; [done|].
  cbn [fmap list_fmap forallb]. by rewrite Hp, IH.
Qed.

Lemma plain_GraphJson_to_json (g : GraphJson.t) : plain (GraphJson_to_json g) = true.
Proof.
  unfold GraphJson_to_json. cbn [plain forallb snd].
  rewrite !forallb_fmap_true by (apply plain_node_to_json || apply plain_edge_to_json).
  reflexivity.
Qed.

(** C1.  On a platform whose [JSON.parse] gives back what
    [JSON.stringify] wrote, for every node list and edge list: the text
    of [createGraphJson nodes edges] parses, [parseGraphJson] returns
    its two arrays, and they are, read at the type GraphJson, the
    records that were written.  Node by node the id, label and tag color
    are those of the input; edge by edge the source, target and
    directedness ([edge.data?.directed ?? true]) are those of the
    input. *)
Theorem serialize_deserialize_roundtrip (nodes : list Node.t) (edges : list Edge.t) :
  JSON_faithful →
  ∃ parsed data,
    parseGraphJson (JSON_stringify (GraphJson_to_json (createGraphJson nodes edges)))
    = Ok parsed
    ∧ asGraphJson parsed = Ok data
    ∧ data = createGraphJson nodes edges
    ∧ GraphJson.id <$> GraphJson.nodes data = Node.id <$> nodes
    ∧ GraphJson.label <$> GraphJson.nodes data
      = (λ node, GraphNodeData.label (Node.data node)) <$> nodes
    ∧ GraphJson.tagColor <$> GraphJson.nodes data
      = (λ node, GraphNodeData.tagColor (Node.data node)) <$> nodes
    ∧ GraphJson.source <$> GraphJson.edges data = Edge.source <$> edges
    ∧ GraphJson.target <$> GraphJson.edges data = Edge.target <$> edges
    ∧ GraphJson.directed <$> GraphJson.edges data
      = (λ edge, Some (edge_directed edge)) <$> edges.
Proof.
  intros Hjson.
  pose proof (Hjson _ (plain_GraphJson_to_json (createGraphJson nodes edges))) as Hrt.
  eexists _, (createGraphJson nodes edges). split_and!.
  - unfold parseGraphJson. rewrite Hrt. reflexivity.
  - apply asGraphJson_to_json.
  - done.
  - cbn [createGraphJson GraphJson.nodes]. by rewrite <- list_fmap_compose.
  - cbn [createGraphJson GraphJson.nodes]. by rewrite <- list_fmap_compose.
  - cbn [createGraphJson GraphJson.nodes]. by rewrite <- list_fmap_compose.
  - cbn [createGraphJson GraphJson.edges]. by rewrite <- list_fmap_compose.
  - cbn [createGraphJson GraphJson.edges]. by rewrite <- list_fmap_compose.
  - cbn [createGraphJson GraphJson.edges]. by rewrite <- list_fmap_compose.
Qed.

(** ** What a save writes *)

(** X1.  What [handleSave] writes, in terms of the render [c] it belongs to:
    with a file path and a base directory, and the graph write going
    through, one note write per node of [c], carrying the note [c] holds
    for the node id, or the empty string when it holds none. *)
Lemma handleSave_writes_every_note (c : Session) (w : World) (fp bd : string) :
  truthy_string (filePath <$> graphFile c) = Some fp →
  truthy_string (baseDir <$> graphFile c) = Some bd →
  fs_ok (graphWrite c fp) = true →
  log (exec (handleSave c None None) w) = log w ++ graphWrite c fp :: noteWrites c bd
  ∧ (∀ node, node ∈ nodes c →
       WriteNodeFile bd (Node.id node) (default "" (nodeNotes c !! Node.id node))
         ∈ log (exec (handleSave c None None) w))
  ∧ (∀ node, node ∈ nodes c → nodeNotes c !! Node.id node = None →
       WriteNodeFile bd (Node.id node) "" ∈ log (exec (handleSave c None None) w)).
Proof.
  intros Hfp Hbd Hok. rewrite (handleSave_bound c fp Hfp).
  destruct (writeGraph_effect c fp None w) as (Hlog & _). cbv zeta in Hlog.
  rewrite Hlog. unfold saveRequests. rewrite Hok, Hbd.
  assert (Hin : ∀ node, node ∈ nodes c →
            WriteNodeFile bd (Node.id node) (default "" (nodeNotes c !! Node.id node))
              ∈ log w ++ graphWrite c fp :: noteWrites c bd).
  { intros node Hnode. apply elem_of_app. right. apply elem_of_cons. right.
    unfold noteWrites. apply list_elem_of_fmap. by exists node. }
  split_and!; [done|done|].
  intros node Hnode Hnone. specialize (Hin node Hnode). by rewrite Hnone in Hin.
Qed.

(** The main process on a note write (main.js, lines 104-110): the file
    of the node holds the content afterwards, whatever it held. *)
Lemma node_write_overwrites (baseDir nodeId content : string) (d : gmap string string) :
  node_write baseDir nodeId content d
    !! path_join [path_join [baseDir; "nodes"]; nodeId ++ ".md"]%string
  = Some content.
Proof. unfold node_write. apply lookup_insert_eq. Qed.

End Properties.

(** * Further properties *)

Section Further.
Context `{Env}.

(** ** Relations every step of a handler keeps *)

Lemma keeps_bind {A B} (R : World → World → Prop) `{!PreOrder R} (m : M A) (k : A → M B) :
  keeps R m → (∀ a, keeps R (k a)) → keeps R (m ≫= k).
Proof.
  intros Hm Hk w. specialize (Hm w). unfold exec, mbind, M_bind in *.
  destruct (m w) as [[a|e] w']; simpl in *.
  - etrans; [exact Hm|]. apply Hk.
  - exact Hm.
Qed.

Lemma keeps_ret {A} (R : World → World → Prop) `{!PreOrder R} (a : A) : keeps R (mret a).
Proof. intros w. reflexivity. Qed.

Lemma keeps_lift {A} (R : World → World → Prop) `{!PreOrder R} (r : result A) :
  keeps R (lift r).
Proof. intros w. reflexivity. Qed.

Lemma keeps_modify (R : World → World → Prop) (f : World → World) :
  (∀ w, R w (f w)) → keeps R (modify f).
Proof. intros Hf w. apply Hf. Qed.

Ltac keeps_steps :=
  repeat lazymatch goal with
    | |- keeps _ (mret _) => apply keeps_ret; apply _
    | |- keeps _ (lift _) => apply keeps_lift; apply _
    | |- keeps _ (_ ≫= _) => apply keeps_bind; [apply _ | | intros ?]
    | |- keeps _ (modify _) => apply keeps_modify; intros ?
    end.

#[local] Instance tracked_preorder : PreOrder tracked.
Proof.
  split.
  - intros w. unfold tracked. done.
  - intros w1 w2 w3 (Hp & Hc & Hmono & Hsame) (Hp' & Hc' & Hmono' & Hsame').
    unfold tracked. split_and!; [congruence|congruence|auto|].
    intros Hoff. destruct (autosaveDeps w2) eqn:H2.
    + rewrite Hmono' in Hoff; done.
    + destruct (Hsame' Hoff) as (-> & -> & ->). auto.
Qed.

#[local] Instance saved_preorder : PreOrder saved.
Proof.
  split.
  - intros w. unfold saved. done.
  - intros w1 w2 w3 (? & ? & ? & ? & ? & ?) (? & ? & ? & ? & ? & ?).
    unfold saved. split_and!; congruence.
Qed.

Lemma request_tracked r : keeps tracked (request r).
Proof. intros w. unfold exec, request. destruct (fs_ok r); unfold tracked; done. Qed.

Lemma requestAll_tracked rs : keeps tracked (requestAll rs).
Proof. intros w. unfold exec, requestAll, tracked. done. Qed.

Lemma request_saved r : keeps saved (request r).
Proof. intros w. unfold exec, request. destruct (fs_ok r); unfold saved; done. Qed.

Lemma requestAll_saved rs : keeps saved (requestAll rs).
Proof. intros w. unfold exec, requestAll, saved. done. Qed.

Lemma setGraphFile_tracked v : keeps tracked (setGraphFile v).
Proof.
  intros w. unfold exec, setGraphFile, modify, tracked. simpl. split_and!; try done.
  - intros ->. done.
  - intros [_ Hsame%negb_false_iff]%orb_false_iff.
    apply bool_decide_eq_true in Hsame. done.
Qed.

Lemma writeGraph_tracked c fp bo : keeps tracked (writeGraph c fp bo).
Proof.
  unfold writeGraph. unfold setStatus. keeps_steps.
  - apply request_tracked.
  - destruct (truthy_string _); [apply requestAll_tracked|apply keeps_ret; apply _].
  - unfold tracked. done.
Qed.

Lemma writeGraph_saved c fp bo : keeps saved (writeGraph c fp bo).
Proof.
  unfold writeGraph. unfold setStatus. keeps_steps.
  - apply request_saved.
  - destruct (truthy_string _); [apply requestAll_saved|apply keeps_ret; apply _].
  - unfold saved. done.
Qed.

Lemma handleSaveAs_with_tracked answers c : keeps tracked (handleSaveAs_with answers c).
Proof.
  induction answers as [|answer answers IH]; cbn [handleSaveAs_with].
  - apply request_tracked.
  - keeps_steps; [apply request_tracked|unfold tracked; done|].
    destruct answer as [result|]; [|apply keeps_ret; apply _].
    keeps_steps; [apply setGraphFile_tracked|].
    destruct (truthy_string _); [apply writeGraph_tracked|exact IH].
Qed.

Lemma handleSaveAs_with_saved answers c : keeps saved (handleSaveAs_with answers c).
Proof.
  induction answers as [|answer answers IH]; cbn [handleSaveAs_with].
  - apply request_saved.
  - keeps_steps; [apply request_saved|unfold saved; done|].
    destruct answer as [result|]; [|apply keeps_ret; apply _].
    unfold setGraphFile at 1. keeps_steps; [unfold saved; done|].
    destruct (truthy_string _); [apply writeGraph_saved|exact IH].
Qed.

Lemma handleSave_tracked c fo bo : keeps tracked (handleSave c fo bo).
Proof.
  unfold handleSave. destruct (truthy_string _); [apply writeGraph_tracked|].
  intros w. apply (handleSaveAs_with_tracked (dialogs w) c w).
Qed.

Lemma handleSave_saved c fo bo : keeps saved (handleSave c fo bo).
Proof.
  unfold handleSave. destruct (truthy_string _); [apply writeGraph_saved|].
  intros w. apply (handleSaveAs_with_saved (dialogs w) c w).
Qed.

Lemma handleOpen_tracked answer : keeps tracked (handleOpen answer).
Proof.
  unfold handleOpen. destruct answer as [r|].
  - unfold setNodes, setEdges, setSelectedNodeId, setNodeNotes, setStatus.
    keeps_steps; try apply setGraphFile_tracked; unfold tracked; simpl; done.
  - keeps_steps. unfold tracked. done.
Qed.

(** Every handler keeps [tracked]. *)
Lemma handler_tracked e c : keeps tracked (handler e c).
Proof.
  destruct e; cbn [handler].
  - unfold onAddNode, crypto_randomUUID, setNodes. keeps_steps; [|unfold tracked; done].
    intros w. unfold exec, tracked. done.
  - unfold onDeleteNode. destruct (truthy_string _); [|apply keeps_ret; apply _].
    unfold_setters. keeps_steps; unfold tracked; simpl; done.
  - unfold onDeleteEdge. destruct (truthy_string _); [|apply keeps_ret; apply _].
    unfold_setters. keeps_steps; unfold tracked; simpl; done.
  - unfold onToggleEdgeDirection. destruct (truthy_string _); [|apply keeps_ret; apply _].
    unfold_setters. keeps_steps; unfold tracked; simpl; done.
  - unfold onAutoLayout. unfold_setters. keeps_steps; unfold tracked; simpl; done.
  - unfold onNodesChange. unfold_setters. keeps_steps; unfold tracked; simpl; done.
  - unfold onEdgesChange. unfold_setters. keeps_steps; [unfold tracked; simpl; done|].
    destruct (selectedEdgeId c); [case_bool_decide|]; keeps_steps; unfold tracked; done.
  - unfold onNodeClick. unfold_setters. keeps_steps; unfold tracked; simpl; done.
  - unfold onEdgeClick. unfold_setters. keeps_steps; unfold tracked; simpl; done.
  - unfold updateSelectedNode. destruct (truthy_string _); [|apply keeps_ret; apply _].
    unfold_setters. keeps_steps; unfold tracked; simpl; done.
  - unfold updateSelectedNode. destruct (truthy_string _); [|apply keeps_ret; apply _].
    unfold_setters. keeps_steps; unfold tracked; simpl; done.
  - unfold onNoteChange. destruct (selectedNodeId c); [|apply keeps_ret; apply _].
    unfold_setters. keeps_steps; unfold tracked; simpl; done.
  - intros w. unfold exec, noteReadArrives.
    destruct (reads w !! i) as [[nodeId content]|]; unfold tracked; simpl; done.
  - unfold handleNew. unfold setNodes, setEdges, setSelectedNodeId, setNodeNotes,
      setSelectedTagColor, setStatus.
    keeps_steps; try apply setGraphFile_tracked; unfold tracked; simpl; done.
  - apply handleOpen_tracked.
  - apply handleSave_tracked.
  - intros w. apply (handleSaveAs_with_tracked (dialogs w) c w).
Qed.

(** ** The scheduled save holds the live graph *)

Lemma dispatch_fresh e w : timer_fresh w → timer_fresh (dispatch e w).
Proof.
  intros Hinv t. rewrite dispatch_pending, dispatch_session. cbv zeta.
  destruct (handler_tracked e (session w) (idle w)) as (Hp & Hc & _ & Hsame).
  set (w' := exec (handler e (session w)) (idle w)) in *.
  destruct (autosaveDeps w') eqn:Hauto.
  - destruct (truthy_string (filePath <$> graphFile (session w'))) eqn:Hfp.
    + intros [= <-]. cbn [closure]. split; [|done]. unfold bound. rewrite Hfp. eauto.
    + rewrite Hp. intros Ht. destruct (Hinv t Ht) as [Hb _]. split; [done|].
      unfold bound. rewrite Hfp. intros [? [=]].
  - rewrite Hp. intros Ht. destruct (Hinv t Ht) as [Hb Heq]. split; [done|].
    destruct (Hsame eq_refl) as (Hn & He & Hf). intros Hbound.
    change (session (idle w)) with (session w) in *.
    rewrite Hn, He, Hf. apply Heq. unfold bound in *. by rewrite <- Hf.
Qed.

Lemma elapse_fresh d w : timer_fresh w → timer_fresh (elapse d w).
Proof.
  intros Hinv. destruct (pending w) as [timer|] eqn:Hp.
  - destruct (N.leb_spec (due timer) (clock w + d)) as [Hle|Hlt].
    + destruct (Hinv timer Hp) as [[fp Hfp] _].
      destruct (elapse_fires d w timer fp Hp Hle Hfp) as (_ & Hnone & _).
      intros t. rewrite Hnone. done.
    + rewrite (elapse_waits d w timer Hp Hlt). intros t Ht. apply (Hinv t Ht).
  - unfold elapse. rewrite Hp. intros t Ht. simpl in Ht. congruence.
Qed.

Lemma run_fresh script w : timer_fresh w → timer_fresh (run script w).
Proof.
  revert w. induction script as [|s script IH]; intros w Hw; [done|].
  apply IH. destruct s; [by apply dispatch_fresh|by apply elapse_fresh].
Qed.

(** X2.  At every state the program reaches, when a file is bound and the
    scheduled save comes due, the graph it writes is the serialization
    of the live nodes and edges, to the live file path; only note writes
    follow. *)
Theorem autosave_writes_live_graph (files : gmap string string)
    (answers : list (option GraphFile)) (script : list Step) (t : Timer) (fp : string)
    (d : N) :
  pending (run script (initialWorld files answers)) = Some t →
  truthy_string (filePath <$> graphFile (session (run script (initialWorld files answers))))
  = Some fp →
  (due t ≤ clock (run script (initialWorld files answers)) + d)%N →
  ∃ writes,
    log (elapse d (run script (initialWorld files answers)))
    = log (run script (initialWorld files answers)) ++
      SaveGraph fp
        (JSON_stringify
           (GraphJson_to_json
              (createGraphJson (nodes (session (run script (initialWorld files answers))))
                               (edges (session (run script (initialWorld files answers)))))))
      :: writes
    ∧ Forall is_WriteNodeFile writes.
Proof.
  set (w := run script (initialWorld files answers)). intros Hp Hfp Hdue.
  assert (Hfresh : timer_fresh w) by (apply run_fresh; intros ? [=]).
  destruct (Hfresh t Hp) as [_ Heq].
  destruct Heq as (Hn & He & Hf); [unfold bound; rewrite Hfp; eauto|].
  destruct (elapse_fires d w t fp Hp Hdue) as (Hlog & _); [by rewrite Hf|].
  rewrite Hlog. unfold saveRequests, graphWrite. rewrite Hn, He.
  eexists. split; [reflexivity|].
  destruct (fs_ok _); [|constructor].
  case_match; [|constructor].
  unfold noteWrites. apply Forall_fmap, Forall_forall. intros node _. exact I.
Qed.

(** ** Selection *)

Lemma handleOpen_cases r w :
  (∃ e, handleOpen (Some r) w = (Throw e, with_log (λ l, l ++ [OpenGraph]) w))
  ∨ (∃ parsed data, parseGraphJson (payload_data r) = Ok parsed
                    ∧ asGraphJson parsed = Ok data).
Proof.
  destruct (parseGraphJson (payload_data r)) as [parsed|e] eqn:Hp.
  - destruct (asGraphJson parsed) as [data|e] eqn:Hd; [right; eauto|].
    left. exists e. apply handleOpen_throws. by rewrite Hp.
  - left. exists e. apply handleOpen_throws. by rewrite Hp.
Qed.

Lemma dispatch_exclusive e w : exclusive (session w) → exclusive (session (dispatch e w)).
Proof.
  intros Hex. rewrite dispatch_session.
  assert (Hsaved : ∀ w', saved (idle w) w' → exclusive (session w')).
  { intros w' (_ & _ & Hn & He & _). unfold exclusive. rewrite Hn, He. exact Hex. }
  destruct e; cbn [handler]; try (apply Hsaved; first
    [ apply handleSave_saved
    | apply (handleSaveAs_with_saved (dialogs (idle w)) (session w) (idle w)) ]).
  - unfold onAddNode, crypto_randomUUID. step_handler. exact Hex.
  - unfold onDeleteNode. destruct (truthy_string _); step_handler; [by left|exact Hex].
  - unfold onDeleteEdge. destruct (truthy_string _); step_handler; [by right|exact Hex].
  - unfold onToggleEdgeDirection. destruct (truthy_string _); step_handler; exact Hex.
  - unfold onAutoLayout. step_handler. exact Hex.
  - unfold onNodesChange. step_handler. exact Hex.
  - unfold onEdgesChange. step_handler.
    destruct (selectedEdgeId (session w)) eqn:Hs; [case_bool_decide|]; simpl.
    + by right.
    + exact Hex.
    + exact Hex.
  - unfold onNodeClick. step_handler. by right.
  - unfold onEdgeClick. step_handler. by left.
  - unfold updateSelectedNode. destruct (truthy_string _); step_handler; exact Hex.
  - unfold updateSelectedNode. destruct (truthy_string _); step_handler; exact Hex.
  - unfold onNoteChange. destruct (selectedNodeId (session w)) eqn:Hs; step_handler;
      exact Hex.
  - unfold noteReadArrives. unfold exec. simpl.
    destruct (reads w !! i) as [[nodeId content]|]; exact Hex.
  - unfold handleNew. step_handler. by left.
  - destruct answer as [r|].
    + destruct (handleOpen_cases r (idle w)) as [[e He]|(parsed & data & Hp & Hd)].
      * unfold exec. rewrite He. exact Hex.
      * destruct (handleOpen_loaded r (idle w) _ _ Hp Hd) as (_ & _ & _ & _ & Hsel & _).
        by left.
    + unfold handleOpen. step_handler. exact Hex.
Qed.

Lemma elapse_session d w : saved w (elapse d w).
Proof.
  unfold elapse. destruct (pending w) as [timer|]; [|by unfold saved].
  destruct (due timer <=? clock w + d)%N; [|by unfold saved].
  cbv zeta. unfold saved. cbn [with_clock session]. rewrite render_session.
  apply (handleSave_saved (closure timer) None None
           (idle (with_clock (due timer) (with_pending None w)))).
Qed.

(** X3.  Along every run of the program a node and an edge are never
    selected at once. *)
Theorem selection_is_exclusive (files : gmap string string)
    (answers : list (option GraphFile)) (script : list Step) :
  exclusive (session (run script (initialWorld files answers))).
Proof.
  assert (Hrun : ∀ w, exclusive (session w) → exclusive (session (run script w))).
  { induction script as [|s script IH]; intros w Hw; [done|].
    apply IH. destruct s; [by apply dispatch_exclusive|].
    destruct (elapse_session d w) as (_ & _ & Hn & He & _).
    unfold exclusive. cbn [step]. rewrite Hn, He. exact Hw. }
  apply Hrun. by left.
Qed.

(** ** File Storage Gateway *)

Lemma node_write_insert baseDir nodeId content d :
  node_write baseDir nodeId content d = <[notePath baseDir nodeId := content]> d.
Proof. reflexivity. Qed.

(** X4.  Where [path.join] nests, what [node:write] wrote for a node is what
    [node:read] reads for it; a node without a file reads as the empty
    string; and a write leaves what is read for a node with another
    file. *)
Theorem note_store_roundtrip (baseDir nodeId content : string) (d : gmap string string) :
  path_join_nested →
  node_read baseDir nodeId (node_write baseDir nodeId content d) = content
  ∧ (d !! notePath baseDir nodeId = None → node_read baseDir nodeId d = "")
  ∧ (∀ other, notePath baseDir other ≠ notePath baseDir nodeId →
       node_read baseDir other (node_write baseDir nodeId content d)
       = node_read baseDir other d).
Proof.
  intros Hnest.
  assert (Hread : ∀ id d', node_read baseDir id d' = default "" (d' !! notePath baseDir id)).
  { intros id d'. unfold node_read, notePath. by rewrite Hnest. }
  rewrite !Hread, node_write_insert. split_and!.
  - by rewrite lookup_insert_eq.
  - by intros ->.
  - intros other Hne. rewrite !Hread. by rewrite lookup_insert_ne.
Qed.

Lemma deliver_other r d p : written r ≠ Some p → deliver r d !! p = d !! p.
Proof.
  destruct r; cbn [deliver written]; try done.
  - intros Hne. unfold graph_save. apply lookup_insert_ne. congruence.
  - intros Hne. rewrite node_write_insert. apply lookup_insert_ne. congruence.
Qed.

Lemma deliver_all_other rs d p :
  Forall (λ r, written r ≠ Some p) rs →
  foldl (λ d r, if fs_ok r then deliver r d else d) d rs !! p = d !! p.
Proof.
  revert d. induction rs as [|r rs IH]; intros d Hrs; [done|].
  apply Forall_cons in Hrs as [Hr Hrs]. cbn [foldl]. rewrite IH by done.
  destruct (fs_ok r); [by apply deliver_other|done].
Qed.

(** The disk a save with a file path leaves. *)
Lemma writeGraph_disk c fp bo w :
  disk (exec (writeGraph c fp bo) w) =
    if fs_ok (graphWrite c fp) then
      foldl (λ d r, if fs_ok r then deliver r d else d)
        (deliver (graphWrite c fp) (disk w))
        (match truthy_string (match bo with
                              | Some b => Some b
                              | None => baseDir <$> graphFile c
                              end) with
         | Some baseDir => noteWrites c baseDir
         | None => []
         end)
    else disk w.
Proof.
  unfold writeGraph, request, requestAll. step_handler.
  destruct (fs_ok (graphWrite c fp)); simpl; [|done].
  destruct (truthy_string _); simpl; [|done].
  destruct (forallb fs_ok _); done.
Qed.

(** ** Save, then open *)

Lemma parse_createGraphJson (g : GraphJson.t) :
  JSON_faithful →
  parseGraphJson (JSON_stringify (GraphJson_to_json g))
  = Ok {| parsed_nodes := JArr (node_to_json <$> GraphJson.nodes g);
          parsed_edges := JArr (edge_to_json <$> GraphJson.edges g) |}.
Proof.
  intros Hjson. unfold parseGraphJson.
  rewrite (Hjson _ (plain_GraphJson_to_json g)). reflexivity.
Qed.

Lemma layoutGraph_data (nodes : list Node.t) (edges : list Edge.t) :
  Node.data <$> layoutGraph nodes edges = Node.data <$> nodes.
Proof. unfold layoutGraph. cbv zeta. by rewrite <- list_fmap_compose. Qed.

Lemma layoutGraph_type (nodes : list Node.t) (edges : list Edge.t) :
  Node.type <$> layoutGraph nodes edges = Node.type <$> nodes.
Proof. unfold layoutGraph. cbv zeta. by rewrite <- list_fmap_compose. Qed.

Lemma imap_loadEdge_fmap {B} (f : Edge.t → B) (g : GraphJson.edge → B)
    (l : list GraphJson.edge) :
  (∀ i e, f (loadEdge i e) = g e) → f <$> imap loadEdge l = g <$> l.
Proof.
  intros Hfg. rewrite fmap_imap, <- imap_const. apply imap_ext. intros i e _. apply Hfg.
Qed.



(** ** Opening a document that cannot be read *)

Lemma array_elements_throws v : not_mappable v = true → array_elements v = Throw TypeError.
Proof. destruct v; simpl; try done. by intros ->. Qed.

Lemma array_elements_ok v :
  not_mappable v = false →
  ∃ items, array_elements v = Ok items ∧ existsb is_null items = false.
Proof. destruct v; simpl; try done. intros Hn. rewrite Hn. eauto. Qed.

Lemma as_node_no_TypeError v : is_null v = false → as_node v ≠ Throw TypeError.
Proof.
  unfold as_node. destruct v; try done; intros _; simpl;
    unfold mbind, result_bind, mret, result_ret; simpl; try done.
  destruct (assoc "id" fields) as [[]|]; simpl; try done.
  destruct (assoc "label" fields) as [[]|]; simpl; try done;
    destruct (assoc "tagColor" fields) as [[]|]; simpl; done.
Qed.

Lemma as_edge_no_TypeError v : is_null v = false → as_edge v ≠ Throw TypeError.
Proof.
  unfold as_edge. destruct v; try done; intros _; simpl;
    unfold mbind, result_bind, mret, result_ret; simpl; try done.
  destruct (assoc "source" fields) as [[]|]; simpl; try done.
  destruct (assoc "target" fields) as [[]|]; simpl; try done.
  destruct (assoc "directed" fields) as [[]|]; simpl; done.
Qed.

Lemma rmapM_no_TypeError {A} (f : json → result A) items :
  (∀ v, is_null v = false → f v ≠ Throw TypeError) →
  existsb is_null items = false → rmapM f items ≠ Throw TypeError.
Proof.
  intros Hf. induction items as [|v items IH]; [done|].
  cbn [existsb rmapM]. intros [Hv Hitems]%orb_false_iff.
  specialize (Hf v Hv). specialize (IH Hitems).
  destruct (f v) as [b|e]; simpl; [|congruence].
  destruct (rmapM f items); simpl; congruence.
Qed.

Lemma asGraphJson_TypeError d :
  asGraphJson d = Throw TypeError
  ↔ not_mappable (parsed_nodes d) || not_mappable (parsed_edges d) = true.
Proof.
  unfold asGraphJson, mbind, result_bind.
  destruct (not_mappable (parsed_nodes d)) eqn:Hn.
  { rewrite (array_elements_throws _ Hn). done. }
  destruct (array_elements_ok _ Hn) as (ns & -> & Hns). cbn [rbind].
  destruct (not_mappable (parsed_edges d)) eqn:He.
  { rewrite (array_elements_throws _ He). done. }
  destruct (array_elements_ok _ He) as (es & -> & Hes). cbn [rbind orb].
  split; [|done]. intros Hthrow. exfalso.
  pose proof (rmapM_no_TypeError as_node ns as_node_no_TypeError Hns) as Hnodes.
  pose proof (rmapM_no_TypeError as_edge es as_edge_no_TypeError Hes) as Hedges.
  destruct (rmapM as_node ns); cbn [rbind] in Hthrow; [|congruence].
  destruct (rmapM as_edge es); cbn [rbind] in Hthrow; [done|congruence].
Qed.

Lemma unreadable_TypeError r :
  rbind (parseGraphJson (payload_data r)) asGraphJson = Throw TypeError
  ↔ ∃ v, JSON_parse (payload_data r) = Some v ∧ unreadable v = true.
Proof.
  unfold parseGraphJson.
  destruct (JSON_parse (payload_data r)) as [v|] eqn:Hv.
  - transitivity (unreadable v = true);
      [|split; [eauto|by intros (v' & [= <-] & ?)]].
    destruct v; cbn [prop rbind unreadable]; try done.
    set (d := {| parsed_nodes := _ |}).
    change (asGraphJson d = Throw TypeError
            ↔ not_mappable (parsed_nodes d) || not_mappable (parsed_edges d) = true).
    apply asGraphJson_TypeError.
  - split; [done|]. by intros (v & [=] & _).
Qed.


(** ** Layout and direction leave the document alone *)

(** X8.  Laying out what was laid out changes nothing; a layout keeps the
    number and order of the nodes and all of a node but its position,
    so the serialized document is the same before and after; auto
    layout twice leaves the session auto layout once leaves. *)
Theorem layoutGraph_idempotent (ns : list Node.t) (es es' : list Edge.t) :
  layoutGraph (layoutGraph ns es) es = layoutGraph ns es
  ∧ createGraphJson (layoutGraph ns es) es' = createGraphJson ns es'
  ∧ length (layoutGraph ns es) = length ns
  ∧ (∀ w, session (dispatch AutoLayoutClick (dispatch AutoLayoutClick w))
          = session (dispatch AutoLayoutClick w)).
Proof.
  assert (Hidem : ∀ ns es, layoutGraph (layoutGraph ns es) es = layoutGraph ns es).
  { clear. intros ns es. rewrite (layoutGraph_graphOf (layoutGraph ns es)), layoutGraph_ids.
    rewrite (layoutGraph_graphOf ns es), <- list_fmap_compose. done. }
  split_and!.
  - apply Hidem.
  - unfold createGraphJson. f_equal. unfold layoutGraph. cbv zeta.
    by rewrite <- list_fmap_compose.
  - unfold layoutGraph. cbv zeta. by rewrite length_fmap.
  - intros w.
    assert (Hs : ∀ w, session (dispatch AutoLayoutClick w)
                      = with_nodes (λ current, layoutGraph current (edges (session w)))
                          (session w)).
    { intros w'. by rewrite dispatch_session. }
    rewrite !Hs. unfold with_nodes at 1. cbn [nodes edges with_nodes].
    rewrite Hidem. reflexivity.
Qed.

Lemma toggleEdge_twice sel edge :
  endpoints (toggleEdge sel (toggleEdge sel edge)) = endpoints edge
  ∧ edge_directed (toggleEdge sel (toggleEdge sel edge)) = edge_directed edge
  ∧ Edge.id (toggleEdge sel (toggleEdge sel edge)) = Edge.id edge.
Proof.
  destruct (decide (Edge.id edge = sel)) as [Heq|Hne].
  - destruct (toggleEdge_selected sel edge Heq) as (Hd & _ & Hid & Hs & Ht & _).
    destruct (toggleEdge_selected sel (toggleEdge sel edge)) as (Hd' & _ & Hid' & Hs' & Ht' & _).
    { by rewrite Hid. }
    unfold endpoints. rewrite Hd', Hd, Hid', Hid, Hs', Hs, Ht', Ht, negb_involutive. done.
  - rewrite !(toggleEdge_other sel edge Hne). done.
Qed.

(** X9.  Toggling the direction twice gives back the document: the nodes
    and edges serialize as before, and every edge has the id, the
    endpoints and the directedness it had. *)
Theorem toggle_twice_restores (w : World) :
  createGraphJson
    (nodes (session (dispatch ToggleDirectionClick (dispatch ToggleDirectionClick w))))
    (edges (session (dispatch ToggleDirectionClick (dispatch ToggleDirectionClick w))))
  = createGraphJson (nodes (session w)) (edges (session w))
  ∧ Edge.id <$> edges (session (dispatch ToggleDirectionClick
                                  (dispatch ToggleDirectionClick w)))
    = Edge.id <$> edges (session w)
  ∧ edge_directed <$> edges (session (dispatch ToggleDirectionClick
                                        (dispatch ToggleDirectionClick w)))
    = edge_directed <$> edges (session w).
Proof.
  rewrite !onToggleEdgeDirection_session.
  destruct (truthy_string (selectedEdgeId (session w))) as [sel|] eqn:Hsel.
  - cbn [selectedEdgeId with_edges]. rewrite Hsel. cbn [nodes edges with_edges].
    unfold createGraphJson. rewrite <- !list_fmap_compose. split_and!.
    + f_equal. apply list_fmap_ext. intros i edge _. cbn.
      destruct (toggleEdge_twice sel edge) as (He & Hd & _).
      unfold endpoints in He. injection He as Hs Ht. by rewrite Hs, Ht, Hd.
    + apply list_fmap_ext. intros i edge _. cbn. apply toggleEdge_twice.
    + apply list_fmap_ext. intros i edge _. cbn. apply toggleEdge_twice.
  - rewrite Hsel. done.
Qed.

(** ** Every edge ends in nodes *)

Lemma edges_closed_alt s :
  edges_closed s
  ↔ Forall (λ p, p.1 ∈ Node.id <$> nodes s ∧ p.2 ∈ Node.id <$> nodes s)
      (endpoints <$> edges s).
Proof. unfold edges_closed. rewrite Forall_fmap, Forall_forall. done. Qed.

(** More nodes and fewer edges keep the edges closed. *)
Lemma edges_closed_mono s s' :
  (∀ id, id ∈ Node.id <$> nodes s → id ∈ Node.id <$> nodes s') →
  (∀ p, p ∈ endpoints <$> edges s' → p ∈ endpoints <$> edges s) →
  edges_closed s → edges_closed s'.
Proof.
  rewrite !edges_closed_alt, !Forall_forall. intros Hn He Hc p Hp.
  destruct (Hc p (He p Hp)). auto.
Qed.

Lemma edges_closed_same s s' :
  nodes s' = nodes s → edges s' = edges s → edges_closed s → edges_closed s'.
Proof. intros Hn He. apply edges_closed_mono; rewrite ?Hn, ?He; done. Qed.

Lemma toggleEdge_endpoints sel edge : endpoints (toggleEdge sel edge) = endpoints edge.
Proof. unfold toggleEdge. by case_bool_decide. Qed.

Lemma initial_closed : edges_closed initialSession.
Proof.
  apply edges_closed_alt. cbn [initialSession nodes edges].
  rewrite layoutGraph_ids. cbn. repeat constructor; cbn; set_solver.
Qed.

Lemma dispatch_closed e w :
  is_button e = true → edges_closed (session w) → edges_closed (session (dispatch e w)).
Proof.
  intros He Hc. rewrite dispatch_session.
  assert (Hsaved : ∀ w', saved (idle w) w' → edges_closed (session w')).
  { intros w' (Hn & Hed & _). by apply (edges_closed_same (session w)). }
  destruct e; try discriminate; cbn [handler]; try (apply Hsaved; first
    [ apply handleSave_saved
    | apply (handleSaveAs_with_saved (dialogs (idle w)) (session w) (idle w)) ]).
  - unfold onAddNode, crypto_randomUUID. step_handler.
    revert Hc. apply edges_closed_mono; cbn; [|done].
    intros id Hid. rewrite fmap_app. apply elem_of_app. by left.
  - unfold onDeleteNode. destruct (truthy_string _) as [sel|]; step_handler; [|done].
    intros edge Hin. cbn in *. apply list_elem_of_filter in Hin as [[Hs Ht] Hin].
    destruct (Hc edge Hin). split; by apply filter_id_keeps.
  - unfold onDeleteEdge. destruct (truthy_string _) as [sel|]; step_handler; [|done].
    revert Hc. apply edges_closed_mono; cbn; [done|].
    intros p (edge & -> & Hin)%list_elem_of_fmap.
    apply list_elem_of_filter in Hin as [_ Hin]. apply list_elem_of_fmap. eauto.
  - unfold onToggleEdgeDirection. destruct (truthy_string _) as [sel|]; step_handler; [|done].
    revert Hc. apply edges_closed_mono; cbn; [done|].
    intros p. rewrite <- list_fmap_compose.
    rewrite (list_fmap_ext (endpoints ∘ toggleEdge sel) endpoints); [done|].
    intros i edge _. apply toggleEdge_endpoints.
  - unfold onAutoLayout. step_handler.
    revert Hc. apply edges_closed_mono; cbn; [|done].
    intros id. by rewrite layoutGraph_ids.
  - unfold onNodeClick. step_handler. done.
  - unfold onEdgeClick. step_handler. done.
  - unfold updateSelectedNode. destruct (truthy_string _) as [sel|]; step_handler; [|done].
    revert Hc. apply edges_closed_mono; cbn; [|done].
    intros id.
    match goal with
    | |- context [Node.id <$> (?f <$> ?l)] =>
        assert (Node.id <$> (f <$> l) = Node.id <$> l) as ->; [|done]
    end.
    rewrite <- list_fmap_compose. apply list_fmap_ext.
    intros i node _. cbn. by case_bool_decide.
  - unfold updateSelectedNode. destruct (truthy_string _) as [sel|]; step_handler; [|done].
    revert Hc. apply edges_closed_mono; cbn; [|done].
    intros id.
    match goal with
    | |- context [Node.id <$> (?f <$> ?l)] =>
        assert (Node.id <$> (f <$> l) = Node.id <$> l) as ->; [|done]
    end.
    rewrite <- list_fmap_compose. apply list_fmap_ext.
    intros i node _. cbn. by case_bool_decide.
  - unfold onNoteChange. destruct (selectedNodeId (session w)); step_handler; done.
  - unfold noteReadArrives, exec. simpl.
    destruct (reads w !! i) as [[nodeId content]|]; done.
  - unfold handleNew. step_handler.
    apply (edges_closed_same initialSession); [done..|apply initial_closed].
  - destruct answer; [discriminate|]. unfold handleOpen. step_handler. done.
Qed.

(** X10.  Along every run made of pauses and of events other than opening a
    file and the change lists of reactflow, every edge of the session
    starts and ends in a node of the session. *)
Theorem buttons_keep_edges_closed (files : gmap string string)
    (answers : list (option GraphFile)) (script : list Step) :
  buttons_only script →
  edges_closed (session (run script (initialWorld files answers))).
Proof.
  intros Hscript.
  assert (Hrun : ∀ w, edges_closed (session w) → edges_closed (session (run script w))).
  { induction Hscript as [|s script Hs _ IH]; intros w Hw; [done|].
    apply IH. destruct s as [e|d]; [by apply dispatch_closed|].
    destruct (elapse_session d w) as (Hn & He & _).
    by apply (edges_closed_same (session w)). }
  apply Hrun, initial_closed.
Qed.

(** ** Tags *)

Lemma ensureTagsForColors_tags colors w :
  tags (session (exec (ensureTagsForColors colors) w))
  = tags (session w)
    ++ imap (tagFor (length (tags (session w))) (drawn w))
            (novelColors (tags (session w)) colors).
Proof.
  unfold exec, ensureTagsForColors. cbn [snd session with_drawn with_session tags with_tags].
  fold (tagFor (length (tags (session w))) (drawn w)).
  destruct (imap _ _) eqn:Hadd; [by rewrite app_nil_r|done].
Qed.

Lemma handleOpen_tags r w parsed data :
  parseGraphJson (payload_data r) = Ok parsed →
  asGraphJson parsed = Ok data →
  tags (session (exec (handleOpen (Some r)) w))
  = tags (session w)
    ++ imap (tagFor (length (tags (session w))) (drawn w))
            (novelColors (tags (session w)) (GraphJson.tagColor <$> GraphJson.nodes data)).
Proof.
  intros Hp Hd.
  pose proof (ensureTagsForColors_tags (GraphJson.tagColor <$> GraphJson.nodes data) w) as Ht.
  unfold handleOpen. step_handler. rewrite Hp. simpl. rewrite Hd. simpl.
  unfold exec, ensureTagsForColors in *. simpl in *.
  rewrite <- list_fmap_compose. exact Ht.
Qed.

Lemma novelColors_spec current colors c :
  c ∈ novelColors current colors
  ↔ Some c ∈ colors ∧ c ≠ ""%string ∧ c ∉ TagMeta.color <$> current.
Proof.
  unfold novelColors. rewrite list_elem_of_omap. split.
  - intros (o & Ho & Hc). destruct (truthy_string o) as [c'|] eqn:Ht; [|done].
    apply truthy_string_Some in Ht as [-> Hne]. case_bool_decide; [done|].
    injection Hc as ->. done.
  - intros (Hin & Hne & Hnew). exists (Some c). split; [done|].
    rewrite truthy_string_nonempty by done. by rewrite bool_decide_eq_false_2.
Qed.

Lemma tagFor_color known drawn l :
  TagMeta.color <$> imap (tagFor known drawn) l = l.
Proof.
  rewrite fmap_imap. rewrite (imap_ext _ (const id)); [|done].
  by rewrite imap_const, list_fmap_id.
Qed.


End Further.

Section PanelFacts.
Context `{Env} `{Text}.

Lemma render_quiet w :
  noteDeps w = false → autosaveDeps w = false → log (render w) = log w.
Proof. intros Hn Ha. unfold render. by rewrite Ha, Hn. Qed.

Lemma existsb_color (color : string) (l : list TagMeta.t) :
  existsb (λ tag, String.eqb (TagMeta.color tag) color) l = true
  ↔ color ∈ TagMeta.color <$> l.
Proof.
  induction l as [|tag l IH]; cbn [existsb fmap list_fmap].
  - split; [done|]. by intros ?%elem_of_nil.
  - rewrite orb_true_iff, elem_of_cons, IH, String.eqb_eq. split; intros [?|?]; auto.
Qed.

(** X12.  Adding a tag keeps the tags that are there and never touches the
    graph, the file or the disk.  A name that trims to the empty string
    and a color a tag has already are refused with a status line;
    otherwise one tag is appended, with the trimmed name and the chosen
    color, and the name input is cleared.  Tag colors that were pairwise
    distinct stay so. *)
Theorem onAddTag_keeps_colors_distinct (w : World) :
  NoDup (TagMeta.color <$> tags (session w)) →
  NoDup (TagMeta.color <$> tags (session (perform onAddTag w)))
  ∧ (trim (newTagName (session w)) = ""%string →
       tags (session (perform onAddTag w)) = tags (session w)
       ∧ status (session (perform onAddTag w)) = "Tag name is required."%string)
  ∧ (trim (newTagName (session w)) ≠ ""%string →
     newTagColor (session w) ∈ TagMeta.color <$> tags (session w) →
       tags (session (perform onAddTag w)) = tags (session w)
       ∧ status (session (perform onAddTag w)) = "Each tag color must be unique."%string)
  ∧ (trim (newTagName (session w)) ≠ ""%string →
     newTagColor (session w) ∉ TagMeta.color <$> tags (session w) →
       tags (session (perform onAddTag w))
       = tags (session w)
         ++ [{| TagMeta.id := ("tag-" ++ randomUUID (drawn w))%string;
                TagMeta.name := trim (newTagName (session w));
                TagMeta.color := newTagColor (session w) |}]
       ∧ newTagName (session (perform onAddTag w)) = ""%string)
  ∧ nodes (session (perform onAddTag w)) = nodes (session w)
  ∧ edges (session (perform onAddTag w)) = edges (session w)
  ∧ graphFile (session (perform onAddTag w)) = graphFile (session w)
  ∧ pending (perform onAddTag w) = pending w
  ∧ log (perform onAddTag w) = log w
  ∧ disk (perform onAddTag w) = disk w.
Proof.
  intros Hnodup. unfold perform.
  rewrite render_session, render_pending, render_disk.
  unfold onAddTag.
  destruct (truthy_string (Some (trim (newTagName (session w))))) as [trimmed|] eqn:Htrim.
  - apply truthy_string_Some in Htrim as [[= <-] Hne].
    destruct (existsb _ (tags (session w))) eqn:Hex.
    + apply existsb_color in Hex.
      rewrite render_quiet; [|step_handler; done..].
      step_handler. split_and!; done.
    + assert (Hnew : newTagColor (session w) ∉ TagMeta.color <$> tags (session w)).
      { rewrite <- existsb_color. by rewrite Hex. }
      unfold crypto_randomUUID, setNewTagName.
      rewrite render_quiet; [|step_handler; done..].
      step_handler. split_and!; try done.
      rewrite fmap_app. apply NoDup_app. split_and!; [done| |apply NoDup_singleton].
      intros c Hc ->%list_elem_of_singleton. done.
  - assert (Hempty : trim (newTagName (session w)) = ""%string).
    { simpl in Htrim. destruct (String.eqb _ ""%string) eqn:E; [|done].
      by apply String.eqb_eq in E. }
    rewrite render_quiet; [|step_handler; done..].
    step_handler. split_and!; try done.
Qed.

Lemma focused_count (f : option string) (l : list Node.t) :
  length (filter (λ v, className v = Some "node--focused"%string)
            ((λ node,
                {| shown := node;
                   className :=
                     Some (if bool_decide (GraphNodeData.tagColor (Node.data node) = f)
                           then "node--focused"%string else "node--dim"%string) |}) <$> l))
  = length (filter (λ node, GraphNodeData.tagColor (Node.data node) = f) l).
Proof.
  induction l as [|node l IH]; [done|].
  cbn [fmap list_fmap]. rewrite !filter_cons. cbn [className].
  destruct (decide (GraphNodeData.tagColor (Node.data node) = f)) as [Heq|Hne].
  - rewrite (bool_decide_eq_true_2 _ Heq).
    rewrite decide_True by done. cbn [length]. by rewrite IH.
  - rewrite (bool_decide_eq_false_2 _ Hne).
    rewrite decide_False by done. exact IH.
Qed.

(** X13.  Focus on a tag with a non-empty color: reactflow is given
    the nodes of the session, in order, each marked focused or dim; the
    nodes marked focused are as many as the count the row of the tag
    shows; the row is marked focused.  Clear Focus takes every mark
    away.  Neither touches nodes, edges or the scheduled save, and
    neither issues a request. *)
Theorem focus_marks_the_tagged_nodes (w : World) (tag : TagMeta.t) :
  TagMeta.color tag ≠ ""%string →
  shown <$> visibleNodes (session (perform (λ _, onFocus tag) w)) = nodes (session w)
  ∧ length (filter (λ v, className v = Some "node--focused"%string)
              (visibleNodes (session (perform (λ _, onFocus tag) w))))
    = tagCount (session w) tag
  ∧ (∀ v, v ∈ visibleNodes (session (perform (λ _, onFocus tag) w)) →
       className v = Some "node--focused"%string ∨ className v = Some "node--dim"%string)
  ∧ isFocused (session (perform (λ _, onFocus tag) w)) tag = true
  ∧ (∀ v, v ∈ visibleNodes (session (perform (λ _, onClearFocus)
                                       (perform (λ _, onFocus tag) w))) →
       className v = None)
  ∧ edges (session (perform (λ _, onFocus tag) w)) = edges (session w)
  ∧ pending (perform (λ _, onFocus tag) w) = pending w
  ∧ log (perform (λ _, onFocus tag) w) = log w.
Proof.
  intros Hne.
  assert (Hs : ∀ w' v, session (perform (λ _, setSelectedTagColor v) w')
                       = with_selectedTagColor v (session w')).
  { intros w' v. unfold perform. by rewrite render_session. }
  unfold onFocus, onClearFocus. rewrite !Hs.
  unfold visibleNodes, tagCount, isFocused.
  cbn [selectedTagColor with_selectedTagColor nodes edges].
  rewrite (truthy_string_nonempty _ Hne). cbn [truthy_string].
  split_and!.
  - rewrite <- list_fmap_compose. rewrite <- (list_fmap_id (nodes (session w))) at 2.
    by apply list_fmap_ext.
  - apply focused_count.
  - intros v (node & -> & _)%list_elem_of_fmap. cbn [className].
    case_bool_decide; [by left|by right].
  - by apply bool_decide_eq_true_2.
  - by intros v (node & -> & _)%list_elem_of_fmap.
  - done.
  - unfold perform. by rewrite render_pending.
  - unfold perform. by rewrite render_quiet.
Qed.

End PanelFacts.

Section Persistence.
Context `{Env}.

(** ** Without a file nothing is written *)

Lemma edit_disk e w :
  is_edit e = true → disk (exec (handler e (session w)) (idle w)) = disk w.
Proof.
  destruct e; try discriminate; intros _; cbn [handler].
  - unfold onAddNode, crypto_randomUUID. step_handler. done.
  - unfold onDeleteNode. destruct (truthy_string _); step_handler; done.
  - unfold onDeleteEdge. destruct (truthy_string _); step_handler; done.
  - unfold onToggleEdgeDirection. destruct (truthy_string _); step_handler; done.
  - unfold onAutoLayout. step_handler. done.
  - unfold onNodesChange. step_handler. done.
  - unfold onEdgesChange. step_handler.
    destruct (selectedEdgeId (session w)); [case_bool_decide|]; simpl; done.
  - unfold updateSelectedNode. destruct (truthy_string _); step_handler; done.
  - unfold updateSelectedNode. destruct (truthy_string _); step_handler; done.
Qed.

Lemma dispatch_edit_unbound e w :
  truthy_string (filePath <$> graphFile (session w)) = None →
  is_edit e = true →
  log (dispatch e w) = log w
  ∧ disk (dispatch e w) = disk w
  ∧ pending (dispatch e w) = pending w
  ∧ graphFile (session (dispatch e w)) = graphFile (session w).
Proof.
  intros Hfp Hedit.
  destruct (edit_frame e w Hedit) as (Hlog & Hclock & Hfile & Hsel).
  destruct (handler_tracked e (session w) (idle w)) as (Hp & _).
  rewrite dispatch_disk, dispatch_pending, dispatch_session. cbv zeta.
  rewrite Hfile, Hfp, Hp, (edit_disk e w Hedit). split_and!; try done.
  - unfold dispatch. by rewrite render_log.
  - by destruct (autosaveDeps _).
Qed.

(** X14.  While no file is bound and no save is scheduled, edits, however
    they are spaced, issue no request, leave the disk alone and
    schedule nothing; waiting afterwards issues no request either. *)
Theorem edits_without_file_write_nothing (w : World) (ms : list (N * Event)) :
  truthy_string (filePath <$> graphFile (session w)) = None →
  pending w = None →
  all_edits ms →
  log (burst w ms) = log w
  ∧ disk (burst w ms) = disk w
  ∧ pending (burst w ms) = None
  ∧ (∀ d, log (elapse d (burst w ms)) = log w ∧ disk (elapse d (burst w ms)) = disk w).
Proof.
  intros Hfp Hpend Hms. revert w Hfp Hpend.
  induction Hms as [|[gap e] ms Hedit _ IH]; intros w Hfp Hpend.
  - cbn [burst]. split_and!; try done. intros d. unfold elapse. by rewrite Hpend.
  - cbn [burst]. cbn [snd] in Hedit.
    assert (Hwait : elapse gap w = with_clock (clock w + gap) w).
    { unfold elapse. by rewrite Hpend. }
    rewrite Hwait.
    destruct (dispatch_edit_unbound e (with_clock (clock w + gap) w) Hfp Hedit)
      as (Hlog & Hdisk & Hp & Hfile).
    destruct (IH (dispatch e (with_clock (clock w + gap) w))) as (IHlog & IHdisk & IHp & IHd).
    + by rewrite Hfile.
    + by rewrite Hp.
    + rewrite IHlog, IHdisk, IHp, Hlog, Hdisk. split_and!; try done.
      intros d. destruct (IHd d) as [-> ->]. by rewrite Hlog, Hdisk.
Qed.

(** ** New *)

(** X15.  New gives the initial graph, laid out, with no file, no notes, no
    selected node and no focus; the tags and the selected edge id are
    kept.  Nothing is written.  A save that was scheduled stays
    scheduled: when it comes due it writes the document that was open
    before, to its file, while the session has no file. *)
Theorem handleNew_keeps_scheduled_save (w : World) :
  nodes (session (dispatch NewClick w)) = layoutGraph initialNodes initialEdges
  ∧ edges (session (dispatch NewClick w)) = initialEdges
  ∧ graphFile (session (dispatch NewClick w)) = None
  ∧ nodeNotes (session (dispatch NewClick w)) = ∅
  ∧ selectedNodeId (session (dispatch NewClick w)) = None
  ∧ selectedTagColor (session (dispatch NewClick w)) = None
  ∧ tags (session (dispatch NewClick w)) = tags (session w)
  ∧ selectedEdgeId (session (dispatch NewClick w)) = selectedEdgeId (session w)
  ∧ log (dispatch NewClick w) = log w
  ∧ pending (dispatch NewClick w) = pending w
  ∧ (∀ t fp d,
       pending w = Some t →
       truthy_string (filePath <$> graphFile (closure t)) = Some fp →
       (due t ≤ clock w + d)%N →
       log (elapse d (dispatch NewClick w))
       = log w ++ saveRequests (closure t) fp (baseDir <$> graphFile (closure t))
       ∧ graphFile (session (elapse d (dispatch NewClick w))) = None).
Proof.
  assert (Hsession : session (dispatch NewClick w)
            = with_status "New graph"
                (with_selectedTagColor None
                   (with_nodeNotes (λ _, ∅)
                      (with_selectedNodeId None
                         (with_graphFile None
                            (with_edges (λ _, initialEdges)
                               (with_nodes (λ _, layoutGraph initialNodes initialEdges)
                                  (session w)))))))).
  { rewrite dispatch_session. reflexivity. }
  assert (Hlog : log (dispatch NewClick w) = log w).
  { unfold dispatch. rewrite render_log; [reflexivity|]. intros _. reflexivity. }
  assert (Hpend : pending (dispatch NewClick w) = pending w).
  { rewrite dispatch_pending. cbv zeta.
    destruct (handler_tracked NewClick (session w) (idle w)) as (Hp & _).
    rewrite Hp. change (session (exec (handler NewClick (session w)) (idle w)))
      with (session (dispatch NewClick w)) at 1.
    - by destruct (autosaveDeps _).
  }
  assert (Hclock : clock (dispatch NewClick w) = clock w).
  { rewrite dispatch_clock.
    by destruct (handler_tracked NewClick (session w) (idle w)) as (_ & Hc & _). }
  rewrite Hsession. split_and!; try done.
  intros t fp d Ht Hfp Hdue.
  destruct (elapse_fires d (dispatch NewClick w) t fp) as (Hl & _ & _ & _ & _ & _ & Hf).
  { by rewrite Hpend. }
  { by rewrite Hclock. }
  { done. }
  rewrite Hl, Hlog, Hf, Hsession. done.
Qed.

(** ** Save without a file, and a save that is rejected *)

Lemma handleSave_unbound c w :
  truthy_string (filePath <$> graphFile c) = None →
  handleSave c None None w = handleSaveAs_with (dialogs w) c w.
Proof. intros Hfp. unfold handleSave. by rewrite Hfp. Qed.

(** X16.  Save with no file bound asks for one.  When the dialog is
    cancelled nothing changes and nothing is written.  When it is
    answered the file is bound, the handler writes the graph of its
    render to the chosen path and then the note of every node to the
    chosen directory, and a save of the same nodes, edges and notes to
    the same file is scheduled 800 ms later. *)
Theorem handleSave_asks_for_a_file (w : World) :
  truthy_string (filePath <$> graphFile (session w)) = None →
  fs_ok (SaveGraphAs "graph") = true →
  (∀ rest, dialogs w = None :: rest →
     session (dispatch SaveClick w) = session w
     ∧ log (dispatch SaveClick w) = log w ++ [SaveGraphAs "graph"]
     ∧ disk (dispatch SaveClick w) = disk w
     ∧ pending (dispatch SaveClick w) = pending w)
  ∧ (∀ gf rest, dialogs w = Some gf :: rest → filePath gf ≠ ""%string →
     graphFile (session (dispatch SaveClick w)) = Some gf
     ∧ nodes (session (dispatch SaveClick w)) = nodes (session w)
     ∧ edges (session (dispatch SaveClick w)) = edges (session w)
     ∧ nodeNotes (session (dispatch SaveClick w)) = nodeNotes (session w)
     ∧ log (exec (handleSave (session w) None None) (idle w))
       = log w ++ SaveGraphAs "graph"
           :: saveRequests (session w) (filePath gf) (Some (baseDir gf))
     ∧ ∃ t, pending (dispatch SaveClick w) = Some t
            ∧ due t = (clock w + 800)%N
            ∧ nodes (closure t) = nodes (session w)
            ∧ edges (closure t) = edges (session w)
            ∧ nodeNotes (closure t) = nodeNotes (session w)
            ∧ graphFile (closure t) = Some gf).
Proof.
  intros Hfp Hok. split.
  - intros rest Hd.
    assert (Hrun : handler SaveClick (session w) (idle w)
              = (Ok tt, with_dialogs rest
                          (with_log (λ l, l ++ [SaveGraphAs "graph"]) (idle w)))).
    { cbn [handler]. rewrite (handleSave_unbound _ _ Hfp).
      change (dialogs (idle w)) with (dialogs w). rewrite Hd. cbn [handleSaveAs_with].
      unfold request. step_handler. by rewrite Hok. }
    rewrite dispatch_session, dispatch_disk, dispatch_pending. unfold dispatch, exec.
    rewrite Hrun. cbn [snd]. split_and!; done.
  - intros gf rest Hd Hne.
    set (w1 := with_session (with_graphFile (Some gf))
                 (with_noteDeps
                    (negb (bool_decide (baseDir <$> graphFile (session w) = Some (baseDir gf))))
                    (with_autosaveDeps true
                       (with_dialogs rest
                          (with_log (λ l, l ++ [SaveGraphAs "graph"]) (idle w)))))).
    assert (Hrun : exec (handler SaveClick (session w)) (idle w)
              = exec (writeGraph (session w) (filePath gf) (Some (baseDir gf))) w1).
    { cbn [handler]. unfold exec. rewrite (handleSave_unbound _ _ Hfp).
      change (dialogs (idle w)) with (dialogs w). rewrite Hd. cbn [handleSaveAs_with].
      rewrite (truthy_string_nonempty _ Hne).
      unfold request, setGraphFile. unfold mbind, M_bind, modify. rewrite Hok.
      cbn [with_log with_dialogs with_disk deliver disk session graphFile idle
           with_noteDeps with_autosaveDeps autosaveDeps noteDeps].
      destruct gf as [fp bd]. cbn [filePath baseDir] in *.
      assert (Hpath : bool_decide (filePath <$> graphFile (session w)
                                   = filePath <$> Some {| filePath := fp; baseDir := bd |})
                      = false).
      { apply bool_decide_eq_false_2. intros Heq. rewrite Heq in Hfp.
        cbn [fmap option_fmap option_map filePath] in Hfp.
        by rewrite (truthy_string_nonempty _ Hne) in Hfp. }
      rewrite Hpath. reflexivity. }
    destruct (writeGraph_effect (session w) (filePath gf) (Some (baseDir gf)) w1)
      as (Hlog & Hpend & Hclock & Hauto & Hnote & Hnodes & Hedges & Hnotes & Hfile).
    cbv zeta in Hlog.
    assert (Hlog' : log (exec (handleSave (session w) None None) (idle w))
              = log w ++ SaveGraphAs "graph"
                  :: saveRequests (session w) (filePath gf) (Some (baseDir gf))).
    { change (handleSave (session w) None None) with (handler SaveClick (session w)).
      rewrite Hrun, Hlog. cbn [w1 log with_session with_noteDeps with_autosaveDeps
        with_dialogs with_log idle]. by rewrite <- !app_assoc. }
    rewrite !dispatch_session, dispatch_pending. cbv zeta.
    rewrite Hrun, Hauto, Hfile, Hnodes, Hedges, Hnotes, Hclock.
    cbn [w1 with_session session with_graphFile graphFile autosaveDeps with_noteDeps
         with_autosaveDeps fmap option_fmap option_map clock with_dialogs with_log idle
         nodes edges nodeNotes].
    rewrite (truthy_string_nonempty _ Hne). split_and!; try done.
    eexists. split; [reflexivity|]. cbn [due closure].
    rewrite Hnodes, Hedges, Hnotes, Hfile. done.
Qed.

(** X17.  A save whose graph write is rejected throws, with no note write
    issued; a save one of whose note writes is rejected throws after
    all of them were issued.  Either way the session, its status line
    included, and the scheduled save are what they were. *)
Theorem handleSave_rejected (w : World) (fp : string) :
  truthy_string (filePath <$> graphFile (session w)) = Some fp →
  (fs_ok (graphWrite (session w) fp) = false →
     fst (handleSave (session w) None None (idle w)) = Throw IOError
     ∧ log (dispatch SaveClick w) = log w ++ [graphWrite (session w) fp]
     ∧ disk (dispatch SaveClick w) = disk w
     ∧ session (dispatch SaveClick w) = session w
     ∧ pending (dispatch SaveClick w) = pending w)
  ∧ (∀ bd, fs_ok (graphWrite (session w) fp) = true →
     truthy_string (baseDir <$> graphFile (session w)) = Some bd →
     forallb fs_ok (noteWrites (session w) bd) = false →
     fst (handleSave (session w) None None (idle w)) = Throw IOError
     ∧ log (dispatch SaveClick w)
       = log w ++ graphWrite (session w) fp :: noteWrites (session w) bd
     ∧ session (dispatch SaveClick w) = session w
     ∧ pending (dispatch SaveClick w) = pending w).
Proof.
  intros Hfp. split.
  - intros Hbad.
    assert (Hrun : handleSave (session w) None None (idle w)
              = (Throw IOError,
                 with_log (λ l, l ++ [graphWrite (session w) fp]) (idle w))).
    { rewrite (handleSave_bound _ _ Hfp). unfold writeGraph, request, mbind, M_bind.
      by rewrite Hbad. }
    rewrite dispatch_session, dispatch_disk, dispatch_pending. unfold dispatch, exec.
    cbn [handler]. rewrite Hrun. cbn [fst snd]. split_and!; done.
  - intros bd Hgood Hbd Hbad.
    assert (Hrun : handleSave (session w) None None (idle w)
              = (Throw IOError,
                 with_disk (λ d, foldl (λ d r, if fs_ok r then deliver r d else d) d
                                   (noteWrites (session w) bd))
                   (with_log (λ l, l ++ noteWrites (session w) bd)
                      (with_disk (deliver (graphWrite (session w) fp))
                         (with_log (λ l, l ++ [graphWrite (session w) fp]) (idle w)))))).
    { rewrite (handleSave_bound _ _ Hfp).
      unfold writeGraph, request, requestAll, mbind, M_bind.
      rewrite Hgood, Hbd, Hbad. reflexivity. }
    rewrite dispatch_session, dispatch_pending. unfold dispatch, exec.
    cbn [handler]. rewrite Hrun. cbn [fst snd]. split_and!; try done.
    rewrite render_quiet by done. cbn [log with_disk with_log idle with_noteDeps
      with_autosaveDeps]. by rewrite <- app_assoc.
Qed.

(** ** Notes *)

#[local] Arguments truthy_string : simpl never.

(** X18.  Selecting a node of a document with a base directory, when
    another node or none was selected: without an entry for it in the
    notes map one read of its note file is issued, and when the answer
    arrives the entry is what the file held, the empty string when there
    was no file, and no further read is issued; with an entry, the
    empty string included, nothing is read. *)
Theorem note_is_read_once (w : World) (bd id : string) :
  truthy_string (baseDir <$> graphFile (session w)) = Some bd →
  id ≠ ""%string →
  selectedNodeId (session w) ≠ Some id →
  fs_ok (ReadNodeFile bd id) = true →
  (nodeNotes (session w) !! id = None →
     log (dispatch (NodeClick id) w) = log w ++ [ReadNodeFile bd id]
     ∧ reads (dispatch (NodeClick id) w) = reads w ++ [(id, node_read bd id (disk w))]
     ∧ nodeNotes (session (dispatch (NoteRead (length (reads w)))
                             (dispatch (NodeClick id) w)))
       = <[id := node_read bd id (disk w)]> (nodeNotes (session w))
     ∧ log (dispatch (NoteRead (length (reads w))) (dispatch (NodeClick id) w))
       = log w ++ [ReadNodeFile bd id])
  ∧ (is_Some (nodeNotes (session w) !! id) →
     log (dispatch (NodeClick id) w) = log w
     ∧ reads (dispatch (NodeClick id) w) = reads w
     ∧ nodeNotes (session (dispatch (NodeClick id) w)) = nodeNotes (session w)).
Proof.
  intros Hbd Hid Hsel Hok.
  assert (Hnew : bool_decide (selectedNodeId (session w) = Some id) = false)
    by by apply bool_decide_eq_false_2.
  assert (Htruthy : truthy_string (Some id) = Some id) by by apply truthy_string_nonempty.
  split.
  - intros Hnone.
    assert (Hclick : dispatch (NodeClick id) w
              = with_noteDeps false
                  (with_autosaveDeps false
                     (with_reads (λ l, l ++ [(id, node_read bd id (disk w))])
                        (with_log (λ l, l ++ [ReadNodeFile bd id])
                           (with_session (λ s, with_selectedEdgeId None
                                                 (with_selectedNodeId (Some id) s)) w))))).
    { unfold dispatch. cbn [handler]. unfold onNodeClick. step_handler.
      rewrite Hnew. unfold render, noteEffect. simpl.
      rewrite Hbd, Htruthy, Hnone, Hok. reflexivity. }
    rewrite Hclick. split_and!; try done.
    + unfold dispatch. cbn [handler]. unfold noteReadArrives, exec. simpl.
      rewrite lookup_app_r, Nat.sub_diag by done. simpl. by rewrite noteEffect_session.
    + unfold dispatch. cbn [handler]. unfold noteReadArrives, exec. simpl.
      rewrite lookup_app_r, Nat.sub_diag by done. simpl.
      unfold noteEffect. simpl. rewrite Hbd, Htruthy, lookup_insert_eq. done.
  - intros [note Hnote].
    assert (Hclick : dispatch (NodeClick id) w
              = with_noteDeps false
                  (with_autosaveDeps false
                     (with_session (λ s, with_selectedEdgeId None
                                           (with_selectedNodeId (Some id) s)) w))).
    { unfold dispatch. cbn [handler]. unfold onNodeClick. step_handler.
      rewrite Hnew. unfold render, noteEffect. simpl.
      rewrite Hbd, Htruthy, Hnote. reflexivity. }
    rewrite Hclick. done.
Qed.

Lemma deliver_written r d p :
  written r = Some p → deliver r d !! p = Some (content_of r).
Proof.
  destruct r; cbn [written deliver content_of]; try done; intros [= <-].
  - unfold graph_save. apply lookup_insert_eq.
  - rewrite node_write_insert. apply lookup_insert_eq.
Qed.

(** Of the writes of one [Promise.all] that hit a file, all with the same
    content and none rejected, the file holds that content. *)
Lemma deliver_all_written rs d p v :
  (∀ r, r ∈ rs → written r = Some p → fs_ok r = true ∧ content_of r = v) →
  (∃ r, r ∈ rs ∧ written r = Some p) →
  foldl (λ d r, if fs_ok r then deliver r d else d) d rs !! p = Some v.
Proof.
  induction rs as [|r rs IH] using rev_ind; intros Hall (r0 & Hin & Hr0).
  { by apply elem_of_nil in Hin. }
  rewrite foldl_app. cbn [foldl].
  destruct (decide (written r = Some p)) as [Hr|Hr].
  - destruct (Hall r) as [Hok <-]; [apply elem_of_app; right; by left|done|].
    rewrite Hok. by apply deliver_written.
  - assert (Hrest : foldl (λ d r, if fs_ok r then deliver r d else d) d rs !! p = Some v).
    { apply IH.
      - intros r' Hr'. apply Hall. apply elem_of_app. by left.
      - exists r0. split; [|done].
        apply elem_of_app in Hin as [?|Hlast]; [done|].
        apply list_elem_of_singleton in Hlast as ->. done. }
    destruct (fs_ok r); [by rewrite deliver_other|done].
Qed.

(** X19.  What is typed into the note editor is what Save writes to the
    note file of the selected node: with a file and a base directory
    bound, the selected id among the nodes, the graph write and the write
    of that note going through, and no node with another id sharing the
    note file. *)
Theorem typed_note_is_saved (w : World) (sel value : string) (gf : GraphFile) :
  selectedNodeId (session w) = Some sel →
  graphFile (session w) = Some gf →
  filePath gf ≠ ""%string →
  baseDir gf ≠ ""%string →
  sel ∈ Node.id <$> nodes (session w) →
  Forall (λ node, notePath (baseDir gf) (Node.id node) = notePath (baseDir gf) sel →
                  Node.id node = sel) (nodes (session w)) →
  fs_ok (graphWrite (session w) (filePath gf)) = true →
  fs_ok (WriteNodeFile (baseDir gf) sel value) = true →
  nodeNotes (session (dispatch (NoteInput value) w)) !! sel = Some value
  ∧ disk (dispatch SaveClick (dispatch (NoteInput value) w)) !! notePath (baseDir gf) sel
    = Some value.
Proof.
  intros Hsel Hgf Hfp Hbd Hin Hpaths Hgraph Hnote.
  assert (Hs : session (dispatch (NoteInput value) w)
               = with_nodeNotes (λ current, <[sel := value]> current) (session w)).
  { rewrite dispatch_session. cbn [handler]. unfold onNoteChange. rewrite Hsel. reflexivity. }
  split; [rewrite Hs; apply lookup_insert_eq|].
  assert (Hpath : truthy_string (filePath <$> graphFile (session (dispatch (NoteInput value) w)))
                  = Some (filePath gf)).
  { rewrite Hs. cbn [graphFile with_nodeNotes]. rewrite Hgf.
    by apply truthy_string_nonempty. }
  rewrite dispatch_disk. cbn [handler].
  rewrite (handleSave_bound _ _ Hpath), writeGraph_disk. rewrite !Hs.
  change (graphWrite (with_nodeNotes _ (session w)) (filePath gf))
    with (graphWrite (session w) (filePath gf)).
  rewrite Hgraph. cbn [graphFile with_nodeNotes]. rewrite Hgf.
  cbn [fmap option_fmap option_map].
  rewrite (truthy_string_nonempty _ Hbd).
  apply deliver_all_written.
  - intros r (node & -> & Hnode)%list_elem_of_fmap [= Hp].
    cbn [nodes nodeNotes with_nodeNotes] in *.
    rewrite Forall_forall in Hpaths. rewrite (Hpaths node Hnode Hp).
    cbn [content_of]. by rewrite lookup_insert_eq.
  - apply list_elem_of_fmap in Hin as (node & -> & Hnode).
    eexists. split; [apply list_elem_of_fmap; exists node; split; [reflexivity|exact Hnode]|].
    reflexivity.
Qed.

Lemma render_reads w :
  (noteDeps w = true → truthy_string (selectedNodeId (session w)) = None) →
  reads (render w) = reads w.
Proof.
  intros Hsel. unfold render. cbn [reads with_noteDeps with_autosaveDeps].
  assert (Hauto : ∀ w', reads (autosaveEffect w') = reads w').
  { intros w'. unfold autosaveEffect. by case_match. }
  destruct (autosaveDeps w) eqn:Ha.
  - destruct (noteDeps (autosaveEffect w)) eqn:Hnote; [|by rewrite Hauto].
    rewrite noteEffect_unselected, Hauto; [done|].
    rewrite autosaveEffect_session. apply Hsel.
    revert Hnote. unfold autosaveEffect. by case_match.
  - destruct (noteDeps w) eqn:Hnote; [|done]. by rewrite noteEffect_unselected by auto.
Qed.


(** ** What the editor shows *)

Lemma find_id_is_Some (id : string) (l : list Node.t) :
  is_Some (find (λ node, String.eqb (Node.id node) id) l) ↔ id ∈ Node.id <$> l.
Proof.
  induction l as [|node l IH]; cbn [find fmap list_fmap].
  - split; [by intros [? [=]]|by intros ?%elem_of_nil].
  - rewrite elem_of_cons. destruct (String.eqb_spec (Node.id node) id) as [->|Hne].
    + split; [by left|eauto].
    + rewrite IH. split; [by right|]. intros [->|?]; done.
Qed.

(** X21.  The node editor shows the first node that has the selected id, and
    is there exactly when some node has it; a click on a node closes the
    edge editor; deleting the selected node closes the node editor.
    What is typed into the note editor is what it shows next, unless
    the selected id is the empty string: then it shows the empty
    string, whatever was typed. *)
Theorem editor_follows_selection (w : World) :
  (∀ id,
     selectedNode (session (dispatch (NodeClick id) w))
     = find (λ node, String.eqb (Node.id node) id) (nodes (session w))
     ∧ (is_Some (selectedNode (session (dispatch (NodeClick id) w)))
        ↔ id ∈ Node.id <$> nodes (session w))
     ∧ selectedEdge (session (dispatch (NodeClick id) w)) = None)
  ∧ (∀ sel, truthy_string (selectedNodeId (session w)) = Some sel →
       selectedNode (session (dispatch DeleteClick w)) = None
       ∧ selectedNote (session (dispatch DeleteClick w)) = ""%string)
  ∧ (∀ sel value, selectedNodeId (session w) = Some sel →
       nodeNotes (session (dispatch (NoteInput value) w)) !! sel = Some value
       ∧ selectedNote (session (dispatch (NoteInput value) w))
         = if String.eqb sel "" then ""%string else value).
Proof.
  split_and!.
  - intros id.
    assert (Hs : session (dispatch (NodeClick id) w)
                 = with_selectedEdgeId None (with_selectedNodeId (Some id) (session w))).
    { by rewrite dispatch_session. }
    rewrite Hs. unfold selectedNode, selectedEdge.
    cbn [selectedNodeId selectedEdgeId with_selectedEdgeId with_selectedNodeId nodes].
    split_and!; [done|apply find_id_is_Some|done].
  - intros sel Hsel. rewrite (onDeleteNode_session w sel Hsel). done.
  - intros sel value Hsel.
    assert (Hs : session (dispatch (NoteInput value) w)
                 = with_nodeNotes (λ current, <[sel := value]> current) (session w)).
    { rewrite dispatch_session. cbn [handler]. unfold onNoteChange. by rewrite Hsel. }
    rewrite Hs. unfold selectedNote. cbn [selectedNodeId nodeNotes with_nodeNotes].
    rewrite Hsel. split; [apply lookup_insert_eq|].
    unfold truthy_string. destruct (String.eqb sel ""); [done|].
    by rewrite lookup_insert_eq.
Qed.

(** ** The open dialog *)

(** X22.  Open with the dialog cancelled, with no path chosen, or with a
    first path that names no file: the request goes out and nothing
    else changes.  Otherwise the first chosen path is the file that is
    opened, with the directory of the path as base directory. *)
Theorem openGraph_without_file (chosen : OpenDialog) (w : World) :
  (canceled chosen = true ∨ filePaths chosen = []
   ∨ (∃ filePath rest, filePaths chosen = filePath :: rest ∧ disk w !! filePath = None) →
   session (openGraph chosen w) = session w
   ∧ disk (openGraph chosen w) = disk w
   ∧ pending (openGraph chosen w) = pending w
   ∧ log (openGraph chosen w) = log w ++ [OpenGraph])
  ∧ (∀ filePath rest data,
       canceled chosen = false → filePaths chosen = filePath :: rest →
       disk w !! filePath = Some data →
       openGraph chosen w
       = dispatch (OpenClick (Some {| payload_filePath := filePath;
                                      payload_baseDir := path_dirname filePath;
                                      payload_data := data |})) w).
Proof.
  split.
  - assert (Hnone : session (dispatch (OpenClick None) w) = session w
                    ∧ disk (dispatch (OpenClick None) w) = disk w
                    ∧ pending (dispatch (OpenClick None) w) = pending w
                    ∧ log (dispatch (OpenClick None) w) = log w ++ [OpenGraph]).
    { rewrite dispatch_session, dispatch_disk, dispatch_pending. split_and!; done. }
    unfold openGraph, graph_open.
    intros [Hc|[Hp|(filePath & rest & Hp & Hd)]].
    + rewrite Hc. exact Hnone.
    + rewrite Hp. destruct (canceled chosen); exact Hnone.
    + rewrite Hp, Hd. destruct (canceled chosen); [exact Hnone|done].
  - intros filePath rest data Hc Hp Hd. unfold openGraph, graph_open.
    by rewrite Hc, Hp, Hd.
Qed.

(** ** Added nodes *)

Lemma onAddNode_world w :
  dispatch AddNodeClick w
  = render (with_autosaveDeps true
              (with_session
                 (with_nodes (λ current,
                    current ++ [createNode "New node"
                                  (default "#38BDF8"%string
                                     (TagMeta.color <$> head (tags (session w))))
                                  (randomUUID (drawn w))]))
                 (with_drawn (S (drawn w)) (idle w)))).
Proof. reflexivity. Qed.

Lemma render_drawn w : drawn (render w) = drawn w.
Proof.
  unfold render, autosaveEffect, noteEffect. simpl. repeat case_match; done.
Qed.

(** X23.  Add Node, n times over: the nodes there stay, in order, and n
    nodes are appended, labelled New node, colored like the first tag,
    with no edge; the edges stay.  Where [crypto.randomUUID] never
    returns the same identifier twice, the ids of the appended nodes
    are pairwise distinct. *)
Theorem added_nodes_have_distinct_ids (w : World) (n : nat) :
  Inj (=) (=) randomUUID →
  nodes (session (run (replicate n (Do AddNodeClick)) w))
  = nodes (session w)
    ++ ((λ i, createNode "New node"
                (default "#38BDF8"%string (TagMeta.color <$> head (tags (session w))))
                (randomUUID (drawn w + i))) <$> seq 0 n)
  ∧ edges (session (run (replicate n (Do AddNodeClick)) w)) = edges (session w)
  ∧ NoDup (Node.id <$> drop (length (nodes (session w)))
                         (nodes (session (run (replicate n (Do AddNodeClick)) w)))).
Proof.
  intros Hinj.
  assert (Hrun : ∀ n w,
            nodes (session (run (replicate n (Do AddNodeClick)) w))
            = nodes (session w)
              ++ ((λ i, createNode "New node"
                          (default "#38BDF8"%string
                             (TagMeta.color <$> head (tags (session w))))
                          (randomUUID (drawn w + i))) <$> seq 0 n)
            ∧ edges (session (run (replicate n (Do AddNodeClick)) w)) = edges (session w)).
  { clear w n. intros n. induction n as [|n IH]; intros w.
    - cbn. by rewrite app_nil_r.
    - cbn [replicate run foldl step]. fold (run (replicate n (Do AddNodeClick))).
      destruct (IH (dispatch AddNodeClick w)) as [Hn He]. unfold run in *.
      rewrite Hn, He, onAddNode_world, render_session, render_drawn.
      cbn [session with_autosaveDeps with_session with_drawn idle nodes edges tags
           with_nodes drawn with_noteDeps].
      split; [|done]. rewrite <- app_assoc. f_equal. cbn [seq fmap list_fmap app].
      rewrite Nat.add_0_r. f_equal. rewrite <- fmap_S_seq, <- list_fmap_compose.
      apply list_fmap_ext. intros i k _. cbn. by rewrite Nat.add_succ_r. }
  destruct (Hrun n w) as [Hn He]. split_and!; [done|done|].
  rewrite Hn, drop_app_length, <- list_fmap_compose.
  apply NoDup_fmap_2_strong; [|apply NoDup_seq].
  intros i j _ _ Hij. cbn in Hij.
  apply (inj (String.app "node-")) in Hij. apply Hinj in Hij. lia.
Qed.

End Persistence.

(** ** The executable platform is faithful *)

Section MiniJSONFacts.
Import MiniJSON.
Local Open Scope string_scope.
#[local] Arguments String.append !_ _ / : simpl nomatch.

Lemma string_app_assoc (a b c : string) : (a ++ b) ++ c = a ++ (b ++ c).
Proof. induction a as [|x a IH]; simpl; [done|]. by rewrite IH. Qed.

Lemma string_app_nil_r (a : string) : a ++ "" = a.
Proof. induction a as [|x a IH]; simpl; [done|]. by rewrite IH. Qed.

Lemma string_length_app (a b : string) :
  String.length (a ++ b) = String.length a + String.length b.
Proof. induction a as [|x a IH]; simpl; [done|]. by rewrite IH. Qed.

Lemma skip_ws_spaces n s : skip_ws (spaces n ++ s) = skip_ws s.
Proof. induction n as [|n IH]; simpl; done. Qed.

Lemma skip_ws_idem s : skip_ws (skip_ws s) = skip_ws s.
Proof.
  induction s as [|c s IH]; simpl; [done|].
  destruct (is_ws c) eqn:E; [done|]. simpl. by rewrite E.
Qed.

Lemma parse_chars_escape_char c tl :
  parse_chars (escape_char c ++ tl)
  = '(str, rest) ← parse_chars tl; Some (String c str, rest).
Proof.
  destruct c as [[] [] [] [] [] [] [] []]; reflexivity.
Qed.

Lemma parse_chars_escape s rest :
  parse_chars (escape s ++ String dq rest) = Some (s, rest).
Proof.
  induction s as [|c s IH].
  - reflexivity.
  - cbn [escape]. rewrite string_app_assoc, parse_chars_escape_char, IH. reflexivity.
Qed.

Lemma json_induction (P : json → Prop) :
  P JNull → (∀ b, P (JBool b)) → (∀ n, P (JNum n)) → (∀ s, P (JStr s)) →
  (∀ items, Forall P items → P (JArr items)) →
  (∀ fields, Forall (λ kv, P (snd kv)) fields → P (JObj fields)) →
  ∀ v, P v.
Proof.
  intros Hnull Hbool Hnum Hstr Harr Hobj. fix IH 1.
  intros [ | b | n | s | items | fields ];
    [exact Hnull | apply Hbool | apply Hnum | apply Hstr | | ].
  - apply Harr. induction items as [|x items IHitems]; constructor; [apply IH|exact IHitems].
  - apply Hobj. induction fields as [|[k x] fields IHfields]; constructor;
      [apply IH|exact IHfields].
Qed.

Lemma parse_value_ws fuel s s' :
  skip_ws s = skip_ws s' → parse_value fuel s = parse_value fuel s'.
Proof. intros Hs. destruct fuel; [done|]. cbn [parse_value]. by rewrite Hs. Qed.

Lemma parse_items_ws fuel s s' :
  skip_ws s = skip_ws s' → parse_items fuel s = parse_items fuel s'.
Proof.
  intros Hs. destruct fuel; [done|]. cbn [parse_items].
  by rewrite (parse_value_ws fuel s s').
Qed.

Lemma parse_members_ws fuel s s' :
  skip_ws s = skip_ws s' → parse_members fuel s = parse_members fuel s'.
Proof. intros Hs. destruct fuel; [done|]. cbn [parse_members]. by rewrite Hs. Qed.

Lemma print_opens ind v rest : plain v = true → opens_value (print ind v ++ rest).
Proof.
  destruct v as [ | [] | n | s | [|x items] | [|kv fields] ]; try discriminate; intros _;
    eexists _, _; (split; [reflexivity|done]).
Qed.

Lemma skip_ws_opens s : opens_value s → skip_ws s = s.
Proof. intros (c & tl & -> & Hws & _). simpl. by rewrite Hws. Qed.

Lemma join_opens sep ind x items tail :
  plain x = true → opens_value (join sep (print ind <$> (x :: items)) ++ tail).
Proof.
  intros Hx. destruct items as [|y items]; cbn [fmap list_fmap join].
  - by apply print_opens.
  - rewrite string_app_assoc. by apply print_opens.
Qed.

Lemma skip_ws_closing ind c rest :
  is_ws c = false → skip_ws (String nl (spaces ind ++ String c rest)) = String c rest.
Proof. intros Hc. cbn [skip_ws is_ws]. simpl. rewrite skip_ws_spaces. simpl. by rewrite Hc. Qed.

Lemma parse_items_join ind items rest :
  Forall round_trips items → forallb plain items = true → items ≠ [] →
  ∀ fuel : nat, (foldr (λ x acc, S (weight x + acc)) 0 items ≤ fuel)%nat →
    parse_items fuel (join (item_sep ind) (print (2 + ind) <$> items)
                      ++ String nl (spaces ind ++ String "]" rest))
    = Some (items, rest).
Proof.
  induction 1 as [|x items Hx Hitems IH]; [done|].
  intros Hplain _ fuel Hfuel. cbn [forallb] in Hplain.
  apply andb_true_iff in Hplain as [Hpx Hpitems].
  cbn [foldr] in Hfuel. destruct fuel as [|fuel]; [lia|].
  cbn [parse_items]. destruct items as [|y items].
  - cbn [fmap list_fmap join]. rewrite (Hx Hpx) by lia. cbn [mbind option_bind].
    rewrite skip_ws_closing by done. reflexivity.
  - cbn [fmap list_fmap join]. rewrite string_app_assoc. rewrite (Hx Hpx) by (cbn [foldr] in *; lia).
    cbn [mbind option_bind]. rewrite string_app_assoc.
    unfold item_sep at 1. cbn [String.append skip_ws is_ws]. simpl.
    rewrite (parse_items_ws fuel _
               (join (item_sep ind) (print (2 + ind) <$> (y :: items))
                ++ String nl (spaces ind ++ String "]" rest))).
    + rewrite IH; [done|done|done|lia].
    + simpl. by rewrite skip_ws_spaces.
Qed.

Lemma member_opens sep ind kv members tail :
  opens_value (join sep (member_text ind <$> (kv :: members)) ++ tail).
Proof.
  destruct members as [|kv' members]; cbn [fmap list_fmap join];
    eexists _, _; (split; [reflexivity|done]).
Qed.

Lemma parse_members_join ind members rest :
  Forall (λ kv, round_trips (snd kv)) members →
  forallb (λ kv, plain (snd kv)) members = true → members ≠ [] →
  ∀ fuel : nat, (foldr (λ kv acc, S (weight (snd kv) + acc)) 0 members ≤ fuel)%nat →
    parse_members fuel (join (item_sep ind) (member_text ind <$> members)
                        ++ String nl (spaces ind ++ String "}" rest))
    = Some (members, rest).
Proof.
  induction 1 as [|[k x] members Hx Hmembers IH]; [done|].
  intros Hplain _ fuel Hfuel. cbn [forallb snd] in Hplain.
  apply andb_true_iff in Hplain as [Hpx Hpmembers]. cbn [snd] in Hx.
  cbn [foldr snd] in Hfuel. destruct fuel as [|fuel]; [lia|].
  cbn [parse_members].
  rewrite skip_ws_opens by apply member_opens.
  assert (Hx' : ∀ tail, parse_value fuel (String " " (print (2 + ind) x ++ tail))
                        = Some (x, tail)).
  { intros tail. rewrite (parse_value_ws fuel _ (print (2 + ind) x ++ tail)).
    - apply (Hx Hpx). lia.
    - reflexivity. }
  destruct members as [|kv' members].
  - cbn [fmap list_fmap join]. unfold member_text, quote. cbn [fst snd].
    rewrite !string_app_assoc. cbn [String.append]. rewrite !string_app_assoc.
    cbn [String.append]. change (Ascii.eqb dq dq) with true. cbn iota.
    rewrite parse_chars_escape. cbn [mbind option_bind String.append skip_ws is_ws]. simpl.
    rewrite Hx'. cbn [mbind option_bind].
    rewrite skip_ws_closing by done. reflexivity.
  - cbn [fmap list_fmap join]. unfold member_text at 1, quote. cbn [fst snd].
    rewrite !string_app_assoc. cbn [String.append]. rewrite !string_app_assoc.
    cbn [String.append]. change (Ascii.eqb dq dq) with true. cbn iota.
    rewrite parse_chars_escape. cbn [mbind option_bind String.append skip_ws is_ws]. simpl.
    rewrite Hx'. cbn [mbind option_bind].
    unfold item_sep at 1. cbn [String.append skip_ws is_ws]. simpl.
    rewrite (parse_members_ws fuel _
               (join (item_sep ind) (member_text ind <$> (kv' :: members))
                ++ String nl (spaces ind ++ String "}" rest))).
    + rewrite IH; [done|done|done|cbn [foldr snd] in *; lia].
    + simpl. by rewrite skip_ws_spaces.
Qed.

Lemma obj_set_fresh k v fields :
  k ∉ fst <$> fields → obj_set k v fields = (fields ++ [(k, v)])%list.
Proof.
  induction fields as [|[k' v'] fields IH]; intros Hk; [done|].
  cbn [obj_set]. destruct (String.eqb_spec k k') as [->|Hne].
  - exfalso. apply Hk. cbn. left.
  - rewrite IH; [done|]. intros Hin. apply Hk. cbn. by right.
Qed.

Lemma object_of_distinct acc members :
  NoDup (fst <$> (acc ++ members)%list) →
  foldl (λ fields kv, obj_set (fst kv) (snd kv) fields) acc members = (acc ++ members)%list.
Proof.
  revert acc. induction members as [|[k v] members IH]; intros acc Hnd.
  - by rewrite app_nil_r.
  - cbn [foldl fst snd]. rewrite obj_set_fresh.
    + rewrite IH; rewrite <- app_assoc; done.
    + rewrite fmap_app in Hnd. apply NoDup_app in Hnd as (_ & Hdisj & _).
      intros Hin. apply (Hdisj k Hin). cbn. left.
Qed.

Lemma print_array ind x items rest :
  print ind (JArr (x :: items)) ++ rest
  = String "[" (String nl (spaces (2 + ind)
      ++ (join (item_sep ind) (print (2 + ind) <$> (x :: items))
          ++ String nl (spaces ind ++ String "]" rest)))).
Proof.
  cbn [print fmap list_fmap]. rewrite !string_app_assoc. cbn [String.append].
  rewrite ?string_app_assoc. reflexivity.
Qed.

Lemma print_object ind kv fields rest :
  print ind (JObj (kv :: fields)) ++ rest
  = String "{" (String nl (spaces (2 + ind)
      ++ (join (item_sep ind) (member_text ind <$> (kv :: fields))
          ++ String nl (spaces ind ++ String "}" rest)))).
Proof.
  cbn [print fmap list_fmap]. rewrite !string_app_assoc. cbn [String.append].
  rewrite ?string_app_assoc. reflexivity.
Qed.

Lemma parse_value_array fuel text :
  parse_value (S fuel) (String "[" text)
  = match skip_ws text with
    | String c rest =>
        if Ascii.eqb c "]" then Some (JArr [], rest)
        else '(items, rest) ← parse_items fuel text; Some (JArr items, rest)
    | EmptyString => None
    end.
Proof. reflexivity. Qed.

Lemma parse_value_object fuel text :
  parse_value (S fuel) (String "{" text)
  = match skip_ws text with
    | String c rest =>
        if Ascii.eqb c "}" then Some (JObj [], rest)
        else '(members, rest) ← parse_members fuel text; Some (object_of members, rest)
    | EmptyString => None
    end.
Proof. reflexivity. Qed.

Lemma skip_ws_indent n text : skip_ws (String nl (spaces n ++ text)) = skip_ws text.
Proof. cbn [skip_ws]. change (is_ws nl) with true. cbn iota. apply skip_ws_spaces. Qed.

Lemma parse_value_print v : round_trips v.
Proof.
  induction v as [ | b | n | s | items IH | fields IH ] using json_induction;
    intros Hplain fuel ind rest Hfuel.
  - destruct fuel; [cbn in Hfuel; lia|]. reflexivity.
  - destruct fuel; [cbn in Hfuel; lia|]. by destruct b.
  - done.
  - destruct fuel; [cbn in Hfuel; lia|]. cbn [print]. unfold quote.
    cbn [String.append]. rewrite string_app_assoc. cbn [String.append].
    cbn [parse_value skip_ws]. change (is_ws dq) with false. cbn iota.
    change (Ascii.eqb dq "n") with false. change (Ascii.eqb dq "t") with false.
    change (Ascii.eqb dq "f") with false. change (Ascii.eqb dq dq) with true. cbn iota.
    by rewrite parse_chars_escape.
  - destruct fuel as [|fuel]; [cbn in Hfuel; lia|]. cbn [weight] in Hfuel.
    cbn [plain] in Hplain.
    destruct items as [|x items]; [reflexivity|].
    rewrite print_array, parse_value_array.
    set (text := join _ _ ++ _).
    assert (Hopen : opens_value text).
    { apply join_opens. cbn [forallb] in Hplain. by apply andb_true_iff in Hplain as [? _]. }
    rewrite skip_ws_indent, (skip_ws_opens _ Hopen).
    destruct Hopen as (c & tl & Heq & Hws & Hclose & _). rewrite Heq, Hclose, <- Heq.
    rewrite (parse_items_ws fuel _ text) by apply skip_ws_indent.
    subst text. rewrite parse_items_join; [done|done|done|done|lia].
  - destruct fuel as [|fuel]; [cbn in Hfuel; lia|]. cbn [weight] in Hfuel.
    cbn [plain] in Hplain. apply andb_true_iff in Hplain as [Hkeys Hplain].
    apply bool_decide_eq_true in Hkeys.
    destruct fields as [|kv fields]; [reflexivity|].
    rewrite print_object, parse_value_object.
    set (text := join _ _ ++ _).
    assert (Hopen : opens_value text) by apply member_opens.
    rewrite skip_ws_indent, (skip_ws_opens _ Hopen).
    destruct Hopen as (c & tl & Heq & Hws & _ & Hclose). rewrite Heq, Hclose, <- Heq.
    rewrite (parse_members_ws fuel _ text) by apply skip_ws_indent.
    subst text. rewrite parse_members_join; [|done|done|done|lia].
    cbn [mbind option_bind]. unfold object_of.
    rewrite (object_of_distinct [] (kv :: fields)) by done. done.
Qed.

Lemma length_item_sep ind : (1 ≤ String.length (item_sep ind))%nat.
Proof. cbn. lia. Qed.

Lemma join_length {A} (f : A → string) (w : A → nat) sep (l : list A) :
  (1 ≤ String.length sep)%nat →
  Forall (λ a, w a ≤ String.length (f a))%nat l →
  (foldr (λ a acc, S (w a + acc)) 0 l ≤ S (String.length (join sep (f <$> l))))%nat.
Proof.
  intros Hsep. induction 1 as [|a l Ha Hl IH]; [cbn; lia|].
  destruct l as [|b l]; cbn [fmap list_fmap join foldr] in *.
  - lia.
  - rewrite !string_length_app. lia.
Qed.

Lemma weight_print v : short v.
Proof.
  induction v as [ | b | n | s | items IH | fields IH ] using json_induction;
    intros Hplain ind.
  - cbn. lia.
  - destruct b; cbn; lia.
  - done.
  - cbn. lia.
  - destruct items as [|x items]; [cbn; lia|].
    rewrite <- (string_app_nil_r (print ind (JArr (x :: items)))), print_array.
    cbn [weight String.length]. rewrite !string_length_app.
    pose proof (join_length (print (2 + ind)) weight (item_sep ind) (x :: items)
                  (length_item_sep ind)) as Hjoin.
    cbn [plain] in Hplain.
    assert (Forall (λ a, weight a ≤ String.length (print (2 + ind) a))%nat (x :: items)).
    { apply Forall_forall. intros a Ha. rewrite Forall_forall in IH.
      apply (IH a Ha). rewrite forallb_forall in Hplain. apply Hplain.
      by apply list_elem_of_In. }
    specialize (Hjoin H). lia.
  - destruct fields as [|kv fields]; [cbn; lia|].
    rewrite <- (string_app_nil_r (print ind (JObj (kv :: fields)))), print_object.
    cbn [weight String.length]. rewrite !string_length_app.
    pose proof (join_length (member_text ind) (λ kv, weight (snd kv)) (item_sep ind)
                  (kv :: fields) (length_item_sep ind)) as Hjoin.
    cbn [plain] in Hplain. apply andb_true_iff in Hplain as [_ Hplain].
    assert (Forall (λ a, weight (snd a) ≤ String.length (member_text ind a))%nat
              (kv :: fields)).
    { apply Forall_forall. intros a Ha. rewrite Forall_forall in IH.
      unfold member_text. rewrite !string_length_app.
      pose proof (IH a Ha) as Hshort. unfold short in Hshort.
      rewrite forallb_forall in Hplain.
      specialize (Hshort (Hplain a ltac:(by apply list_elem_of_In)) (2 + ind)). lia. }
    specialize (Hjoin H). lia.
Qed.

Lemma mini_parse_stringify v : plain v = true → parse (stringify v) = Some v.
Proof.
  intros Hplain. unfold parse, stringify.
  rewrite <- (string_app_nil_r (print 0 v)) at 2.
  rewrite parse_value_print; [reflexivity|done|].
  pose proof (weight_print v Hplain 0). lia.
Qed.

Lemma demo_env_faithful : @JSON_faithful demo_env.
Proof. intros v Hv. apply mini_parse_stringify, Hv. Qed.

End MiniJSONFacts.

(** * Examples on the executable platform *)

Section Examples.
#[local] Existing Instance demo_env.
#[local] Existing Instance demo_dagre.

(** ** Saving the notes *)

(** C2, where the code departs from it.  The user opens a file, selects
    its node 100 ms later, and the note of the node, hello, is read into
    the notes map.  When the save armed by the open runs, 800 ms after
    the open, the notes map holds hello for the node, yet the note write
    carries the empty string, and the file of the note is empty
    afterwards: the timer runs the [handleSave] of the render of the
    open, whose notes map was empty.  The manual save at the same point
    writes hello. *)
Theorem autosave_writes_stale_note :
  nodeNotes (session (run autosave_after_select (initialWorld notes_disk [])))
    !! "node-1" = Some "hello"
  ∧ last (log (run autosave_after_select (initialWorld notes_disk [])))
    = Some (WriteNodeFile "/graphs/g_data" "node-1" "")
  ∧ disk (run autosave_after_select (initialWorld notes_disk []))
      !! "/graphs/g_data/nodes/node-1.md" = Some ""
  ∧ last (log (run manual_save_after_select (initialWorld notes_disk [])))
    = Some (WriteNodeFile "/graphs/g_data" "node-1" "hello")
  ∧ disk (run manual_save_after_select (initialWorld notes_disk []))
      !! "/graphs/g_data/nodes/node-1.md" = Some "hello".
Proof. split_and!; vm_compute; reflexivity. Qed.

(** ** The dangling edge *)

(** C3, as stated, fails on the example of the spec: the file loads
    without exception, the session holds the node a and the edge from a
    to b, and b names no node. *)
Lemma dangling_edge_survives_load :
  fst (handleOpen (Some dangling_file) (initialWorld ∅ [])) = Ok tt
  ∧ Node.id <$> nodes (session (dispatch (OpenClick (Some dangling_file)) (initialWorld ∅ [])))
    = ["a"]
  ∧ endpoints <$> edges (session (dispatch (OpenClick (Some dangling_file)) (initialWorld ∅ [])))
    = [("a", "b")]
  ∧ ¬ edges_closed (session (dispatch (OpenClick (Some dangling_file)) (initialWorld ∅ []))).
Proof.
  split_and!; try (vm_compute; reflexivity).
  intros Hclosed.
  assert (Hedge : ∃ edge,
            edge ∈ edges (session (dispatch (OpenClick (Some dangling_file))
                                     (initialWorld ∅ [])))
            ∧ Edge.target edge = "b").
  { vm_compute. eexists. split; [apply list_elem_of_here|reflexivity]. }
  destruct Hedge as (edge & Hin & Htarget).
  destruct (Hclosed edge Hin) as [_ Hb]. rewrite Htarget in Hb.
  assert (Hids : Node.id <$> nodes (session (dispatch (OpenClick (Some dangling_file))
                                              (initialWorld ∅ []))) = ["a"])
    by (vm_compute; reflexivity).
  rewrite Hids in Hb. apply list_elem_of_singleton in Hb. discriminate.
Qed.

(** ** The theorems at concrete inputs *)

Lemma serialize_deserialize_roundtrip_witness :
  JSON_faithful
  ∧ ∃ parsed data,
      parseGraphJson
        (JSON_stringify (GraphJson_to_json (createGraphJson initialNodes initialEdges)))
      = Ok parsed
      ∧ asGraphJson parsed = Ok data
      ∧ GraphJson.id <$> GraphJson.nodes data = ["node-1"; "node-2"]
      ∧ GraphJson.directed <$> GraphJson.edges data = [Some true].
Proof.
  split; [exact demo_env_faithful|].
  destruct (serialize_deserialize_roundtrip initialNodes initialEdges demo_env_faithful)
    as (parsed & data & Hparse & Hcast & _ & Hid & _ & _ & _ & _ & Hdir).
  exists parsed, data. split_and!; [exact Hparse|exact Hcast|exact Hid|exact Hdir].
Defined.

Lemma handleOpen_keeps_every_edge_witness :
  parseGraphJson (payload_data dangling_file) = Ok dangling_parsed
  ∧ asGraphJson dangling_parsed = Ok dangling_data
  ∧ dagre_throws (fileGraph dangling_data) = None
  ∧ (λ edge, (Edge.source edge, Edge.target edge))
      <$> edges (session (perform (λ _, handleOpen_call (Some dangling_file))
                            (initialWorld ∅ [])))
    = [("a", "b")]
  ∧ parseGraphJson (payload_data constructor_file) = Ok constructor_parsed
  ∧ asGraphJson constructor_parsed = Ok constructor_data
  ∧ dagre_throws (fileGraph constructor_data) = Some TypeError
  ∧ session (perform (λ _, handleOpen_call (Some constructor_file)) (initialWorld ∅ []))
    = session (initialWorld ∅ []).
Proof.
  assert (Hp : parseGraphJson (payload_data dangling_file) = Ok dangling_parsed)
    by (vm_compute; reflexivity).
  assert (Hd : asGraphJson dangling_parsed = Ok dangling_data) by reflexivity.
  assert (Hg : dagre_throws (fileGraph dangling_data) = None) by reflexivity.
  assert (Hp' : parseGraphJson (payload_data constructor_file) = Ok constructor_parsed)
    by (vm_compute; reflexivity).
  assert (Hd' : asGraphJson constructor_parsed = Ok constructor_data) by reflexivity.
  assert (Hg' : dagre_throws (fileGraph constructor_data) = Some TypeError) by reflexivity.
  split_and!; [exact Hp|exact Hd|exact Hg| |exact Hp'|exact Hd'|exact Hg'|].
  - exact (proj1 (proj2 (proj1 (handleOpen_keeps_every_edge dangling_file (initialWorld ∅ [])
                                  dangling_parsed dangling_data Hp Hd) Hg))).
  - exact (proj1 (proj2 (proj2 (handleOpen_keeps_every_edge constructor_file
                                  (initialWorld ∅ []) constructor_parsed constructor_data
                                  Hp' Hd') TypeError Hg'))).
Defined.


Lemma onDeleteNode_cascades_witness :
  truthy_string (selectedNodeId (session (dispatch (NodeClick "node-1") (initialWorld ∅ []))))
  = Some "node-1"
  ∧ ("node-1" ∉ Node.id <$> nodes (session (dispatch DeleteClick
                                     (dispatch (NodeClick "node-1") (initialWorld ∅ [])))))
  ∧ nodeNotes (session (dispatch DeleteClick
                          (dispatch (NodeClick "node-1") (initialWorld ∅ []))))
      !! "node-1" = None.
Proof.
  assert (Hsel : truthy_string
            (selectedNodeId (session (dispatch (NodeClick "node-1") (initialWorld ∅ []))))
          = Some "node-1") by reflexivity.
  destruct (onDeleteNode_cascades _ "node-1" Hsel) as (_ & _ & _ & Hgone & _ & Hnote & _).
  split_and!; [exact Hsel|exact Hgone|exact Hnote].
Defined.

Lemma parseGraphJson_tolerant_witness :
  JSON_parse "{}" = Some (JObj [])
  ∧ ∃ d, parseGraphJson "{}" = Ok d ∧ parsed_nodes d = JArr [] ∧ parsed_edges d = JArr [].
Proof.
  assert (Hp : JSON_parse "{}" = Some (JObj [])) by reflexivity.
  split; [exact Hp|].
  destruct (proj2 (proj2 (parseGraphJson_tolerant "{}")) [] Hp) as (d & Hd & Hn & He & _).
  exists d. split_and!; [exact Hd|exact (Hn eq_refl)|exact (He eq_refl)].
Defined.

Lemma handleOpen_malformed_is_atomic_witness :
  JSON_parse (payload_data broken_file) = None
  ∧ fst (handleOpen (Some broken_file) (initialWorld ∅ [])) = Throw SyntaxError
  ∧ session (dispatch (OpenClick (Some broken_file)) (initialWorld ∅ []))
    = session (initialWorld ∅ []).
Proof.
  assert (Hp : JSON_parse (payload_data broken_file) = None) by reflexivity.
  destruct (handleOpen_malformed_is_atomic broken_file (initialWorld ∅ []) Hp)
    as (Hthrow & Hsession & _).
  split_and!; [exact Hp|exact Hthrow|exact Hsession].
Defined.

Lemma layoutGraph_reads_ids_and_ends_witness :
  Node.id <$> initialNodes = Node.id <$> relabelled_nodes
  ∧ endpoints <$> initialEdges = endpoints <$> undirected_edges
  ∧ (λ node, (Node.id node, Node.position node)) <$> layoutGraph initialNodes initialEdges
    = (λ node, (Node.id node, Node.position node))
        <$> layoutGraph relabelled_nodes undirected_edges.
Proof.
  assert (Hn : Node.id <$> initialNodes = Node.id <$> relabelled_nodes) by reflexivity.
  assert (He : endpoints <$> initialEdges = endpoints <$> undirected_edges) by reflexivity.
  split_and!; [exact Hn|exact He|].
  exact (layoutGraph_reads_ids_and_ends _ _ _ _ Hn He).
Defined.

Lemma onToggleEdgeDirection_frame_witness :
  truthy_string (selectedEdgeId (session (dispatch (EdgeClick "e1-2") (initialWorld ∅ []))))
  = Some "e1-2"
  ∧ length (edges (session (dispatch ToggleDirectionClick
                              (dispatch (EdgeClick "e1-2") (initialWorld ∅ [])))))
    = length (edges (session (dispatch (EdgeClick "e1-2") (initialWorld ∅ [])))).
Proof.
  assert (Hsel : truthy_string
            (selectedEdgeId (session (dispatch (EdgeClick "e1-2") (initialWorld ∅ []))))
          = Some "e1-2") by reflexivity.
  split; [exact Hsel|].
  exact (proj1 (proj2 (proj2 (onToggleEdgeDirection_frame _)) "e1-2" Hsel)).
Defined.


End Examples.

(** * Further examples on the executable platform *)

Section FurtherExamples.
#[local] Existing Instance demo_env.
#[local] Existing Instance demo_text.
#[local] Existing Instance demo_dagre.

Lemma demo_path_join_nested : @path_join_nested demo_env.
Proof.
  intros a b c. cbn [path_join demo_env MiniJSON.join].
  rewrite string_app_assoc. reflexivity.
Qed.

Lemma demo_uuid_inj : Inj (=) (=) (@randomUUID demo_env).
Proof.
  intros i j Hij. cbn [randomUUID demo_env] in Hij.
  apply (inj (String.app "uuid-")) in Hij. by apply (inj pretty) in Hij.
Qed.

Lemma autosave_writes_live_graph_witness :
  pending (run add_after_open (initialWorld notes_disk []))
  = Some {| due := 900; closure := session (run add_after_open (initialWorld notes_disk [])) |}
  ∧ truthy_string
      (filePath <$> graphFile (session (run add_after_open (initialWorld notes_disk []))))
    = Some "/graphs/g_data/g.json"
  ∧ (900 ≤ clock (run add_after_open (initialWorld notes_disk [])) + 800)%N
  ∧ ∃ writes,
      log (elapse 800 (run add_after_open (initialWorld notes_disk [])))
      = log (run add_after_open (initialWorld notes_disk [])) ++
        SaveGraph "/graphs/g_data/g.json"
          (JSON_stringify
             (GraphJson_to_json
                (createGraphJson
                   (nodes (session (run add_after_open (initialWorld notes_disk []))))
                   (edges (session (run add_after_open (initialWorld notes_disk [])))))))
        :: writes
      ∧ Forall is_WriteNodeFile writes.
Proof.
  assert (Hp : pending (run add_after_open (initialWorld notes_disk []))
               = Some {| due := 900;
                         closure := session (run add_after_open (initialWorld notes_disk [])) |})
    by (vm_compute; reflexivity).
  assert (Hfp : truthy_string
                  (filePath <$> graphFile (session (run add_after_open
                                                      (initialWorld notes_disk []))))
                = Some "/graphs/g_data/g.json") by (vm_compute; reflexivity).
  assert (Hd : (900 ≤ clock (run add_after_open (initialWorld notes_disk [])) + 800)%N)
    by (vm_compute; discriminate).
  split_and!; [exact Hp|exact Hfp|exact Hd|].
  exact (autosave_writes_live_graph notes_disk [] add_after_open _ _ 800 Hp Hfp Hd).
Defined.

Lemma note_store_roundtrip_witness :
  path_join_nested
  ∧ node_read "/graphs/g_data" "node-1"
      (node_write "/graphs/g_data" "node-1" "typed" notes_disk) = "typed".
Proof.
  split; [exact demo_path_join_nested|].
  exact (proj1 (note_store_roundtrip "/graphs/g_data" "node-1" "typed" notes_disk
                  demo_path_join_nested)).
Defined.




Lemma buttons_keep_edges_closed_witness :
  buttons_only add_select_delete
  ∧ edges_closed (session (run add_select_delete (initialWorld ∅ []))).
Proof.
  assert (Hb : buttons_only add_select_delete) by (repeat constructor).
  split; [exact Hb|].
  exact (buttons_keep_edges_closed ∅ [] add_select_delete Hb).
Defined.


Lemma onAddTag_keeps_colors_distinct_witness :
  NoDup (TagMeta.color <$> tags (session tag_typed))
  ∧ NoDup (TagMeta.color <$> tags (session (perform onAddTag tag_typed)))
  ∧ tags (session (perform onAddTag tag_typed))
    = tags (session tag_typed)
      ++ [{| TagMeta.id := "tag-uuid-0"; TagMeta.name := "Research";
             TagMeta.color := "#FF0000" |}].
Proof.
  assert (Hn : NoDup (TagMeta.color <$> tags (session tag_typed))).
  { apply (bool_decide_unpack _). vm_compute. exact I. }
  assert (Hname : trim (newTagName (session tag_typed)) ≠ "") by (vm_compute; discriminate).
  assert (Hnew : newTagColor (session tag_typed) ∉ TagMeta.color <$> tags (session tag_typed)).
  { apply (bool_decide_unpack _). vm_compute. exact I. }
  destruct (onAddTag_keeps_colors_distinct tag_typed Hn) as (Hn' & _ & _ & Hadd & _).
  split_and!; [exact Hn|exact Hn'|exact (proj1 (Hadd Hname Hnew))].
Defined.

Lemma focus_marks_the_tagged_nodes_witness :
  TagMeta.color {| TagMeta.id := "tag-core"; TagMeta.name := "Core";
                   TagMeta.color := "#6366F1" |} ≠ ""
  ∧ length (filter (λ v, className v = Some "node--focused")
              (visibleNodes
                 (session (perform (λ _, onFocus {| TagMeta.id := "tag-core";
                                                    TagMeta.name := "Core";
                                                    TagMeta.color := "#6366F1" |})
                             (initialWorld ∅ [])))))
    = tagCount (session (initialWorld ∅ []))
        {| TagMeta.id := "tag-core"; TagMeta.name := "Core"; TagMeta.color := "#6366F1" |}.
Proof.
  assert (Hne : TagMeta.color {| TagMeta.id := "tag-core"; TagMeta.name := "Core";
                                 TagMeta.color := "#6366F1" |} ≠ "") by discriminate.
  split; [exact Hne|].
  exact (proj1 (proj2 (focus_marks_the_tagged_nodes (initialWorld ∅ []) _ Hne))).
Defined.

Lemma edits_without_file_write_nothing_witness :
  truthy_string (filePath <$> graphFile (session (initialWorld notes_disk []))) = None
  ∧ pending (initialWorld notes_disk []) = None
  ∧ all_edits two_edits
  ∧ log (burst (initialWorld notes_disk []) two_edits) = log (initialWorld notes_disk [])
  ∧ disk (burst (initialWorld notes_disk []) two_edits) = disk (initialWorld notes_disk []).
Proof.
  assert (Hfp : truthy_string (filePath <$> graphFile (session (initialWorld notes_disk [])))
                = None) by reflexivity.
  assert (Hp : pending (initialWorld notes_disk []) = None) by reflexivity.
  assert (He : all_edits two_edits) by (repeat constructor).
  destruct (edits_without_file_write_nothing (initialWorld notes_disk []) two_edits
              Hfp Hp He) as (Hlog & Hdisk & _).
  split_and!; [exact Hfp|exact Hp|exact He|exact Hlog|exact Hdisk].
Defined.

Lemma handleSave_asks_for_a_file_witness :
  truthy_string (filePath <$> graphFile (session (initialWorld ∅ [Some saved_file]))) = None
  ∧ fs_ok (SaveGraphAs "graph") = true
  ∧ graphFile (session (dispatch SaveClick (initialWorld ∅ [Some saved_file])))
    = Some saved_file.
Proof.
  assert (Hfp : truthy_string
                  (filePath <$> graphFile (session (initialWorld ∅ [Some saved_file])))
                = None) by reflexivity.
  assert (Hok : fs_ok (SaveGraphAs "graph") = true) by reflexivity.
  split_and!; [exact Hfp|exact Hok|].
  refine (proj1 (proj2 (handleSave_asks_for_a_file _ Hfp Hok) saved_file [] eq_refl _)).
  discriminate.
Defined.

Lemma note_is_read_once_witness :
  truthy_string (baseDir <$> graphFile (session opened)) = Some "/graphs/g_data"
  ∧ "node-1" ≠ ""
  ∧ selectedNodeId (session opened) ≠ Some "node-1"
  ∧ fs_ok (ReadNodeFile "/graphs/g_data" "node-1") = true
  ∧ nodeNotes (session opened) !! "node-1" = None
  ∧ nodeNotes (session (dispatch (NoteRead (length (reads opened)))
                          (dispatch (NodeClick "node-1") opened)))
    = <[ "node-1" := node_read "/graphs/g_data" "node-1" (disk opened) ]>
        (nodeNotes (session opened)).
Proof.
  assert (Hbd : truthy_string (baseDir <$> graphFile (session opened))
                = Some "/graphs/g_data") by (vm_compute; reflexivity).
  assert (Hid : "node-1" ≠ "") by discriminate.
  assert (Hsel : selectedNodeId (session opened) ≠ Some "node-1")
    by (vm_compute; discriminate).
  assert (Hok : fs_ok (ReadNodeFile "/graphs/g_data" "node-1") = true) by reflexivity.
  assert (Hnone : nodeNotes (session opened) !! "node-1" = None) by (vm_compute; reflexivity).
  destruct (proj1 (note_is_read_once opened _ _ Hbd Hid Hsel Hok) Hnone)
    as (_ & _ & Hnotes & _).
  split_and!; [exact Hbd|exact Hid|exact Hsel|exact Hok|exact Hnone|exact Hnotes].
Defined.

Lemma typed_note_is_saved_witness :
  selectedNodeId (session (dispatch (NodeClick "node-1") opened)) = Some "node-1"
  ∧ graphFile (session (dispatch (NodeClick "node-1") opened)) = Some saved_file
  ∧ filePath saved_file ≠ ""
  ∧ baseDir saved_file ≠ ""
  ∧ "node-1" ∈ Node.id <$> nodes (session (dispatch (NodeClick "node-1") opened))
  ∧ Forall (λ node, notePath (baseDir saved_file) (Node.id node)
                    = notePath (baseDir saved_file) "node-1" → Node.id node = "node-1")
      (nodes (session (dispatch (NodeClick "node-1") opened)))
  ∧ fs_ok (graphWrite (session (dispatch (NodeClick "node-1") opened))
             (filePath saved_file)) = true
  ∧ fs_ok (WriteNodeFile (baseDir saved_file) "node-1" "typed") = true
  ∧ disk (dispatch SaveClick
            (dispatch (NoteInput "typed") (dispatch (NodeClick "node-1") opened)))
      !! notePath (baseDir saved_file) "node-1"
    = Some "typed".
Proof.
  assert (Hsel : selectedNodeId (session (dispatch (NodeClick "node-1") opened))
                 = Some "node-1") by reflexivity.
  assert (Hgf : graphFile (session (dispatch (NodeClick "node-1") opened)) = Some saved_file)
    by (vm_compute; reflexivity).
  assert (Hfp : filePath saved_file ≠ "") by discriminate.
  assert (Hbd : baseDir saved_file ≠ "") by discriminate.
  assert (Hin : "node-1" ∈ Node.id <$> nodes (session (dispatch (NodeClick "node-1") opened))).
  { vm_compute. apply list_elem_of_here. }
  assert (Hpaths : Forall (λ node, notePath (baseDir saved_file) (Node.id node)
                                   = notePath (baseDir saved_file) "node-1"
                                   → Node.id node = "node-1")
                     (nodes (session (dispatch (NodeClick "node-1") opened)))).
  { vm_compute. repeat constructor. }
  assert (Hgraph : fs_ok (graphWrite (session (dispatch (NodeClick "node-1") opened))
                            (filePath saved_file)) = true) by reflexivity.
  assert (Hnote : fs_ok (WriteNodeFile (baseDir saved_file) "node-1" "typed") = true)
    by reflexivity.
  split_and!; [exact Hsel|exact Hgf|exact Hfp|exact Hbd|exact Hin|exact Hpaths|exact Hgraph
              |exact Hnote|].
  exact (proj2 (typed_note_is_saved _ "node-1" "typed" saved_file
                  Hsel Hgf Hfp Hbd Hin Hpaths Hgraph Hnote)).
Defined.

Lemma added_nodes_have_distinct_ids_witness :
  Inj (=) (=) randomUUID
  ∧ NoDup (Node.id <$> drop (length (nodes (session (initialWorld ∅ []))))
                         (nodes (session (run (replicate 3 (Do AddNodeClick))
                                            (initialWorld ∅ []))))).
Proof.
  split; [exact demo_uuid_inj|].
  exact (proj2 (proj2 (added_nodes_have_distinct_ids (initialWorld ∅ []) 3 demo_uuid_inj))).
Defined.


Lemma handleSave_writes_every_note_witness :
  truthy_string (filePath <$> graphFile (session opened)) = Some "/graphs/g_data/g.json"
  ∧ truthy_string (baseDir <$> graphFile (session opened)) = Some "/graphs/g_data"
  ∧ fs_ok (graphWrite (session opened) "/graphs/g_data/g.json") = true
  ∧ log (exec (handleSave (session opened) None None) opened)
    = log opened ++ graphWrite (session opened) "/graphs/g_data/g.json"
        :: noteWrites (session opened) "/graphs/g_data".
Proof.
  assert (Hfp : truthy_string (filePath <$> graphFile (session opened))
                = Some "/graphs/g_data/g.json") by (vm_compute; reflexivity).
  assert (Hbd : truthy_string (baseDir <$> graphFile (session opened))
                = Some "/graphs/g_data") by (vm_compute; reflexivity).
  assert (Hok : fs_ok (graphWrite (session opened) "/graphs/g_data/g.json") = true)
    by reflexivity.
  split_and!; [exact Hfp|exact Hbd|exact Hok|].
  exact (proj1 (handleSave_writes_every_note (session opened) opened _ _ Hfp Hbd Hok)).
Defined.

End FurtherExamples.

Section ReadOnlyDisk.
#[local] Existing Instance readonly_env.

Lemma handleSave_rejected_witness :
  truthy_string (filePath <$> graphFile (session opened_readonly))
  = Some "/graphs/g_data/g.json"
  ∧ fs_ok (graphWrite (session opened_readonly) "/graphs/g_data/g.json") = false
  ∧ fst (handleSave (session opened_readonly) None None (idle opened_readonly))
    = Throw IOError
  ∧ session (dispatch SaveClick opened_readonly) = session opened_readonly.
Proof.
  assert (Hfp : truthy_string (filePath <$> graphFile (session opened_readonly))
                = Some "/graphs/g_data/g.json") by (vm_compute; reflexivity).
  assert (Hbad : fs_ok (graphWrite (session opened_readonly) "/graphs/g_data/g.json") = false)
    by reflexivity.
  destruct (proj1 (handleSave_rejected opened_readonly _ Hfp) Hbad)
    as (Hthrow & _ & _ & Hsession & _).
  split_and!; [exact Hfp|exact Hbad|exact Hthrow|exact Hsession].
Defined.

End ReadOnlyDisk.
